(** * Robot-Terrain: the movement and terrain-following core

    A shallow embedding of the two variants of the demo:

    - the closed-form variant (the file that defines [getTerrainHeight] and
      moves the robot along fixed world axes), in [Module ClosedForm];
    - the tiled variant ([main.js]: camera-relative movement, ray casts
      against a 3x3 window of terrain tiles), in [Module Tiled].

    The animation controller ([createGUI], [fadeToAction], [restoreState])
    is textually the same in both files and is embedded once.

    JavaScript numbers are idealised as real numbers.  Every JavaScript
    function is embedded as a state-passing computation that either
    completes normally or throws; a throw keeps the state reached so far,
    as an uncaught exception does in JavaScript. *)

From Stdlib Require Import Reals Lra Lia List ZArith Bool Ascii String.
From stdpp Require Import base gmap strings.
Import ListNotations.

Open Scope string_scope.
Open Scope R_scope.

(** ** Computations with state and exceptions *)

Inductive Exception :=
| TypeError (what : string).

Inductive Completion (A : Type) :=
| Normal (a : A)
| Throw (e : Exception).
Arguments Normal {A} a.
Arguments Throw {A} e.

Definition JS (S A : Type) : Type := S -> Completion A * S.

Definition ret {S A} (a : A) : JS S A := fun s => (Normal a, s).

Definition bind {S A B} (c : JS S A) (k : A -> JS S B) : JS S B :=
  fun s =>
    match c s with
    | (Normal a, s') => k a s'
    | (Throw e, s') => (Throw e, s')
    end.

Definition throw {S A} (e : Exception) : JS S A := fun s => (Throw e, s).
Definition get {S} : JS S S := fun s => (Normal s, s).
Definition gets {S A} (f : S -> A) : JS S A := fun s => (Normal (f s), s).
Definition modify {S} (f : S -> S) : JS S unit := fun s => (Normal tt, f s).

Declare Scope js_scope.
Delimit Scope js_scope with js.
Notation "x <- c ;; k" := (bind c (fun x => k))
  (at level 100, c at next level, right associativity) : js_scope.
Notation "c ;; k" := (bind c (fun _ => k))
  (at level 100, right associativity) : js_scope.
Open Scope js_scope.

(** [for (let x of l) body(x)] *)
Fixpoint forOf {S A} (l : list A) (body : A -> JS S unit) : JS S unit :=
  match l with
  | [] => ret tt
  | x :: rest => body x ;; forOf rest body
  end.

(** Running a computation for its final state, and whether it returned. *)
Definition exec {S A} (c : JS S A) (s : S) : S := snd (c s).
Definition returns {S A} (c : JS S A) (s : S) : Prop :=
  exists a, fst (c s) = Normal a.
Definition throws {S A} (c : JS S A) (s : S) : Prop :=
  exists e, fst (c s) = Throw e.

(** ** JavaScript and three.js arithmetic *)

(** [Math.round]: the nearest integer, halves going up. *)
Definition Math_round (r : R) : Z := Int_part (r + 0.5).

(** [Math.atan2 (y, x)] on real arguments. *)
Definition Math_atan2 (y x : R) : R :=
  if Rlt_dec 0 x then atan (y / x)
  else if Rlt_dec x 0 then
         (if Rle_dec 0 y then atan (y / x) + PI else atan (y / x) - PI)
  else if Rlt_dec 0 y then PI / 2
  else if Rlt_dec y 0 then - PI / 2
  else 0.

(** [Array.prototype.indexOf] on a list of strings. *)
Fixpoint indexOf_from (i : Z) (l : list string) (name : string) : Z :=
  match l with
  | [] => (-1)%Z
  | h :: rest => if String.eqb h name then i else indexOf_from (i + 1)%Z rest name
  end.
Definition indexOf (l : list string) (name : string) : Z := indexOf_from 0%Z l name.
Definition includes (l : list string) (name : string) : bool :=
  (0 <=? indexOf l name)%Z.

(** [String.prototype.toLowerCase] on the ASCII letters.  No character
    outside ASCII lowers to one of the characters of the key labels that
    the handlers test. *)
Definition lower_ascii (c : ascii) : ascii :=
  let n := nat_of_ascii c in
  if ((65 <=? n) && (n <=? 90))%nat then ascii_of_nat (n + 32) else c.
Fixpoint toLowerCase (s : string) : string :=
  match s with
  | EmptyString => EmptyString
  | String c rest => String (lower_ascii c) (toLowerCase rest)
  end.

Module Vector3.
Record t := new { x : R; y : R; z : R }.

(** [new THREE.Vector3()] *)
Definition zero : t := new 0 0 0.

Definition add (a b : t) : t := new (x a + x b) (y a + y b) (z a + z b).
Definition sub (a b : t) : t := new (x a - x b) (y a - y b) (z a - z b).
Definition multiplyScalar (v : t) (k : R) : t := new (x v * k) (y v * k) (z v * k).
Definition divideScalar (v : t) (k : R) : t := multiplyScalar v (1 / k).
Definition length (v : t) : R := sqrt (x v * x v + y v * y v + z v * z v).

(** [normalize () { return this.divideScalar (this.length () || 1); }] *)
Definition normalize (v : t) : t :=
  divideScalar v (if Req_dec_T (length v) 0 then 1 else length v).

Definition crossVectors (a b : t) : t :=
  new (y a * z b - z a * y b) (z a * x b - x a * z b) (x a * y b - y a * x b).

(** [this.x += (v.x - this.x) * alpha] and the same for y and z *)
Definition lerp (a v : t) (alpha : R) : t :=
  new (x a + (x v - x a) * alpha) (y a + (y v - y a) * alpha) (z a + (z v - z a) * alpha).

Definition set_x (v : t) (r : R) : t := new r (y v) (z v).
Definition set_y (v : t) (r : R) : t := new (x v) r (z v).
Definition set_z (v : t) (r : R) : t := new (x v) (y v) r.
End Vector3.

(** ** Input state: [const keys = { w, a, s, d, shift }] *)

Module Keys.
Record t := new { w : bool; a : bool; s : bool; d : bool; shift : bool }.
Definition initial : t := new false false false false false.
Definition set_w (k : t) (b : bool) := new b (a k) (s k) (d k) (shift k).
Definition set_a (k : t) (b : bool) := new (w k) b (s k) (d k) (shift k).
Definition set_s (k : t) (b : bool) := new (w k) (a k) b (d k) (shift k).
Definition set_d (k : t) (b : bool) := new (w k) (a k) (s k) b (shift k).
Definition set_shift (k : t) (b : bool) := new (w k) (a k) (s k) (d k) b.
End Keys.

Definition moveSpeed : R := 0.1.

(** ** The animation controller (shared by both variants) *)

Inductive LoopMode := LoopRepeat | LoopOnce.

(** An action as [mixer.clipAction (clip)] returns it, with the two
    properties the program sets. *)
Record AnimationAction := mkAction {
  clipName : string;
  clampWhenFinished : bool;
  loop : LoopMode
}.

Global Instance LoopMode_eq_dec : EqDecision LoopMode.
Proof. solve_decision. Defined.
Global Instance AnimationAction_eq_dec : EqDecision AnimationAction.
Proof. solve_decision. Defined.

(** The calls the program makes on three.js actions, in the order made.
    What three.js does with them (weights, times) is outside the program;
    the controller state records the calls. *)
Inductive ActionCall :=
| fadeOut (a : AnimationAction) (duration : R)
| reset (a : AnimationAction)
| setEffectiveTimeScale (a : AnimationAction) (timeScale : R)
| setEffectiveWeight (a : AnimationAction) (weight : R)
| fadeIn (a : AnimationAction) (duration : R)
| play (a : AnimationAction).

(** The only function the program ever registers on the mixer. *)
Inductive Listener := restoreState_listener.
Global Instance Listener_eq_dec : EqDecision Listener.
Proof. solve_decision. Defined.

(** The mixer's listeners for the 'finished' event. *)
Record AnimationMixer := mkMixer { finishedListeners : list Listener }.

Record Controller := mkController {
  mixer : option AnimationMixer;
  actions : option (gmap string AnimationAction);
  activeAction : option AnimationAction;
  previousAction : option AnimationAction;
  api_state : string;
  currentMovement : string;
  calls : list ActionCall
}.

(** The module-level declarations: [api = { state: 'Walking' }],
    [currentMovement = 'Idle'], everything else undefined. *)
Definition initialController : Controller :=
  mkController None None None None "Walking" "Idle" [].

Definition set_mixer v (c : Controller) :=
  mkController v (actions c) (activeAction c) (previousAction c) (api_state c) (currentMovement c) (calls c).
Definition set_actions v (c : Controller) :=
  mkController (mixer c) v (activeAction c) (previousAction c) (api_state c) (currentMovement c) (calls c).
Definition set_activeAction v (c : Controller) :=
  mkController (mixer c) (actions c) v (previousAction c) (api_state c) (currentMovement c) (calls c).
Definition set_previousAction v (c : Controller) :=
  mkController (mixer c) (actions c) (activeAction c) v (api_state c) (currentMovement c) (calls c).
Definition set_api_state v (c : Controller) :=
  mkController (mixer c) (actions c) (activeAction c) (previousAction c) v (currentMovement c) (calls c).
Definition set_currentMovement v (c : Controller) :=
  mkController (mixer c) (actions c) (activeAction c) (previousAction c) (api_state c) v (calls c).
Definition add_call (k : ActionCall) (c : Controller) :=
  mkController (mixer c) (actions c) (activeAction c) (previousAction c) (api_state c) (currentMovement c)
               (calls c ++ [k]).

Definition states : list string :=
  ["Idle"; "Walking"; "Running"; "Dance"; "Death"; "Sitting"; "Standing"].
Definition emotes : list string :=
  ["Jump"; "Yes"; "No"; "Wave"; "Punch"; "ThumbsUp"].

(** A method call on a variable holding an action; on [undefined] it is a
    TypeError. *)
Definition call_on (o : option AnimationAction) (method : AnimationAction -> ActionCall)
  : JS Controller unit :=
  match o with
  | Some a => modify (add_call (method a))
  | None => throw (TypeError "cannot read properties of undefined")
  end.

(** [actions[name]]; reading a property of [actions] while it is still
    undefined is a TypeError. *)
Definition actions_at (name : string) : JS Controller (option AnimationAction) :=
  acts <- gets actions ;;
  match acts with
  | Some m => ret (m !! name)
  | None => throw (TypeError "cannot read properties of undefined")
  end.

(** The body of the loop over the clips in [createGUI]. *)
Definition clipAction (name : string) : AnimationAction :=
  if includes emotes name || (4 <=? indexOf states name)%Z
  then mkAction name true LoopOnce
  else mkAction name false LoopRepeat.

Definition fadeToAction (name : string) (duration : R) : JS Controller unit :=
  active <- gets activeAction ;;
  target <- actions_at name ;;
  if decide (active = target) then ret tt
  else
    modify (set_previousAction active) ;;
    modify (set_activeAction target) ;;
    previous <- gets previousAction ;;
    active' <- gets activeAction ;;
    (if decide (previous = active') then ret tt
     else call_on previous (fun a => fadeOut a duration)) ;;
    call_on active' reset ;;
    call_on active' (fun a => setEffectiveTimeScale a 1) ;;
    call_on active' (fun a => setEffectiveWeight a 1) ;;
    call_on active' (fun a => fadeIn a duration) ;;
    call_on active' play.

(** three.js [EventDispatcher]: [addEventListener] pushes the listener
    unless it is already in the array; [removeEventListener] splices out
    its first occurrence. *)
Definition addEventListener (l : Listener) (m : AnimationMixer) : AnimationMixer :=
  if decide (l ∈ finishedListeners m) then m
  else mkMixer (finishedListeners m ++ [l]).

Fixpoint remove_first (l : Listener) (ls : list Listener) : list Listener :=
  match ls with
  | [] => []
  | h :: rest => if decide (h = l) then rest else h :: remove_first l rest
  end.
Definition removeEventListener (l : Listener) (m : AnimationMixer) : AnimationMixer :=
  mkMixer (remove_first l (finishedListeners m)).

(** A method call on [mixer]. *)
Definition on_mixer (f : AnimationMixer -> AnimationMixer) : JS Controller unit :=
  mx <- gets mixer ;;
  match mx with
  | Some m => modify (set_mixer (Some (f m)))
  | None => throw (TypeError "cannot read properties of undefined")
  end.

Definition restoreState : JS Controller unit :=
  on_mixer (removeEventListener restoreState_listener) ;;
  name <- gets currentMovement ;;
  fadeToAction name 0.2.

Definition run_listener (l : Listener) : JS Controller unit :=
  match l with
  | restoreState_listener => restoreState
  end.

(** three.js [dispatchEvent]: the listeners present when the event is
    dispatched are called in order. *)
Definition dispatchFinished : JS Controller unit :=
  mx <- gets mixer ;;
  match mx with
  | Some m => forOf (finishedListeners m) run_listener
  | None => ret tt
  end.

(** [mixer.update (dt)].  Which actions reach their end during this update
    is decided by three.js from the clips; [finished] lists them, and the
    mixer dispatches one 'finished' event for each. *)
Definition mixer_update (dt : R) (finished : list AnimationAction) : JS Controller unit :=
  forOf finished (fun _ => dispatchFinished).

(** The states-folder [onChange] handler; the panel has stored the chosen
    option in [api.state] before calling it. *)
Definition api_state_onChange (choice : string) : JS Controller unit :=
  modify (set_api_state choice) ;;
  st <- gets api_state ;;
  modify (set_currentMovement st) ;;
  st' <- gets api_state ;;
  fadeToAction st' 0.5.

(** [api[name]], the handler of an emote button. *)
Definition api_emote (name : string) : JS Controller unit :=
  fadeToAction name 0.2 ;;
  on_mixer (addEventListener restoreState_listener).

(** [createGUI (model, animations)].  [animations] are the names of the
    clips; [face] is the list of morph targets of the object named
    'Head_4', or [None] when the model has no such object. *)
Definition createGUI (animations : list string) (face : option (list string))
  : JS Controller unit :=
  modify (set_mixer (Some (mkMixer []))) ;;
  modify (set_actions (Some ∅)) ;;
  forOf animations (fun clip =>
    modify (fun c => set_actions (option_map (insert clip (clipAction clip)) (actions c)) c)) ;;
  match face with
  | None => throw (TypeError "cannot read properties of undefined")
  | Some _ =>
      walking <- actions_at "Walking" ;;
      modify (set_activeAction walking) ;;
      active <- gets activeAction ;;
      call_on active play
  end.

(** The part of [updateRobotMovement] that sets the locomotion state
    of a moving robot (the same text in both variants). *)
Definition movingState (shift : bool) : JS Controller unit :=
  cm <- gets currentMovement ;;
  if shift && negb (String.eqb cm "Running") then
    modify (set_currentMovement "Running") ;;
    fadeToAction "Running" 0.2
  else if negb shift && negb (String.eqb cm "Walking") then
    modify (set_currentMovement "Walking") ;;
    fadeToAction "Walking" 0.2
  else ret tt.

(** ... and of a robot that does not move. *)
Definition idleState : JS Controller unit :=
  cm <- gets currentMovement ;;
  if negb (String.eqb cm "Idle") then
    modify (set_currentMovement "Idle") ;;
    fadeToAction "Idle" 0.2
  else ret tt.

(** [n] consecutive runs of a computation; a throw ends the sequence. *)
Fixpoint repeat_js {S} (n : nat) (c : JS S unit) : JS S unit :=
  match n with
  | O => ret tt
  | Datatypes.S n' => c ;; repeat_js n' c
  end.

(** ** The closed-form variant: analytic terrain, world-axis movement *)

Module ClosedForm.

Definition TERRAIN_SIZE : R := 100.
Definition TERRAIN_SEGMENTS : R := 100.
Definition TERRAIN_HEIGHT : R := 5.

(** The robot: [model.position] and [model.rotation.y]. *)
Record Model := mkModel { position : Vector3.t; rotation_y : R }.

Record World := mkWorld {
  model : option Model;
  keys : Keys.t;
  ctl : Controller
}.

Definition initialWorld : World := mkWorld None Keys.initial initialController.

Definition set_model v (w : World) := mkWorld v (keys w) (ctl w).
Definition set_keys v (w : World) := mkWorld (model w) v (ctl w).
Definition set_ctl v (w : World) := mkWorld (model w) (keys w) v.

(** A controller computation run on the controller part of the world. *)
Definition liftC {A} (c : JS Controller A) : JS World A :=
  fun w => let (r, c') := c (ctl w) in (r, set_ctl c' w).

(** The height-map loop of [createTerrain], over the vertices of the
    plane geometry (the position attribute read three numbers at a
    time). *)
Definition createTerrain_vertices (vertices : list Vector3.t) : list Vector3.t :=
  map (fun v =>
         let x := Vector3.x v in
         let z := Vector3.z v in
         Vector3.set_y v (sin (x * 0.1) * cos (z * 0.1) * TERRAIN_HEIGHT +
                          sin (x * 0.2 + z * 0.2) * TERRAIN_HEIGHT * 0.5))
      vertices.

Definition getTerrainHeight {S} (x z : R) : JS S R :=
  let terrainX := (x + TERRAIN_SIZE / 2) / TERRAIN_SIZE in
  let terrainZ := (z + TERRAIN_SIZE / 2) / TERRAIN_SIZE in
  ret (sin (x * 0.1) * cos (z * 0.1) * TERRAIN_HEIGHT +
       sin (x * 0.2 + z * 0.2) * TERRAIN_HEIGHT * 0.5).

Definition onKeyDown (key : string) : JS World unit :=
  let k := toLowerCase key in
  if String.eqb k "w" then modify (fun w => set_keys (Keys.set_w (keys w) true) w)
  else if String.eqb k "a" then modify (fun w => set_keys (Keys.set_a (keys w) true) w)
  else if String.eqb k "s" then modify (fun w => set_keys (Keys.set_s (keys w) true) w)
  else if String.eqb k "d" then modify (fun w => set_keys (Keys.set_d (keys w) true) w)
  else if String.eqb k "shift" then modify (fun w => set_keys (Keys.set_shift (keys w) true) w)
  else if String.eqb k " " then
    m <- gets model ;;
    match m with
    | Some _ => liftC (fadeToAction "Jump" 0.2)
    | None => ret tt
    end
  else ret tt.

Definition onKeyUp (key : string) : JS World unit :=
  let k := toLowerCase key in
  if String.eqb k "w" then modify (fun w => set_keys (Keys.set_w (keys w) false) w)
  else if String.eqb k "a" then modify (fun w => set_keys (Keys.set_a (keys w) false) w)
  else if String.eqb k "s" then modify (fun w => set_keys (Keys.set_s (keys w) false) w)
  else if String.eqb k "d" then modify (fun w => set_keys (Keys.set_d (keys w) false) w)
  else if String.eqb k "shift" then modify (fun w => set_keys (Keys.set_shift (keys w) false) w)
  else ret tt.

Definition moveDirection_of (k : Keys.t) : Vector3.t :=
  let moveDirection := Vector3.zero in
  let moveDirection :=
    if Keys.w k then Vector3.set_z moveDirection (Vector3.z moveDirection - 1) else moveDirection in
  let moveDirection :=
    if Keys.s k then Vector3.set_z moveDirection (Vector3.z moveDirection + 1) else moveDirection in
  let moveDirection :=
    if Keys.a k then Vector3.set_x moveDirection (Vector3.x moveDirection - 1) else moveDirection in
  let moveDirection :=
    if Keys.d k then Vector3.set_x moveDirection (Vector3.x moveDirection + 1) else moveDirection in
  moveDirection.

Definition updateRobotMovement : JS World unit :=
  m <- gets model ;;
  match m with
  | None => ret tt
  | Some robot =>
      k <- gets keys ;;
      let moveDirection := moveDirection_of k in
      if Rlt_dec 0 (Vector3.length moveDirection) then
        let moveDirection := Vector3.normalize moveDirection in
        let speed := if Keys.shift k then moveSpeed * 2 else moveSpeed in
        let newPos := position robot in
        let newPos := Vector3.set_x newPos (Vector3.x newPos + Vector3.x moveDirection * speed) in
        let newPos := Vector3.set_z newPos (Vector3.z newPos + Vector3.z moveDirection * speed) in
        h <- getTerrainHeight (Vector3.x newPos) (Vector3.z newPos) ;;
        let newPos := Vector3.set_y newPos h in
        let targetRotation := Math_atan2 (Vector3.x moveDirection) (Vector3.z moveDirection) in
        modify (set_model (Some (mkModel newPos targetRotation))) ;;
        liftC (movingState (Keys.shift k))
      else liftC idleState
  end.

(** [animate ()].  [dt] is what [clock.getDelta ()] returns and
    [finished] what the mixer finds finished during its update; the
    orbit controls, the renderer and the stats panel do not touch the
    state modelled here. *)
Definition animate (dt : R) (finished : list AnimationAction) : JS World unit :=
  mx <- gets (fun w => mixer (ctl w)) ;;
  match mx with
  | Some _ => liftC (mixer_update dt finished)
  | None => ret tt
  end ;;
  updateRobotMovement.

(** What the browser, the loader and the debug panel deliver. *)
Inductive Event :=
| ModelLoaded (scene : Model) (animations : list string) (face : option (list string))
| KeyDown (key : string)
| KeyUp (key : string)
| StateChosen (choice : string)
| EmoteClicked (name : string)
| AnimationFrame (dt : R) (finished : list AnimationAction).

Definition handle (e : Event) : JS World unit :=
  match e with
  | ModelLoaded scene animations face =>
      modify (set_model (Some scene)) ;;
      liftC (createGUI animations face)
  | KeyDown key => onKeyDown key
  | KeyUp key => onKeyUp key
  | StateChosen choice => liftC (api_state_onChange choice)
  | EmoteClicked name => liftC (api_emote name)
  | AnimationFrame dt finished => animate dt finished
  end.

End ClosedForm.

(** ** The tiled variant: ray casts against terrain tiles *)

(** One entry of the array [raycaster.intersectObject] returns. *)
Record Intersection := mkIntersection { distance : R; point : Vector3.t }.

(** A clone of the base tile; the clones differ in their position only. *)
Record Tile := mkTile { tile_position : Vector3.t }.

(** The three.js services the tiled variant calls and whose results
    depend on data outside the program (the terrain mesh, the quaternion
    and camera algebra). *)
Class Three := {
  Quaternion : Type;
  (** [new THREE.Quaternion ().setFromUnitVectors (from, to)] *)
  setFromUnitVectors : Vector3.t -> Vector3.t -> Quaternion;
  (** [q.slerp (target, t)] *)
  slerp : Quaternion -> Quaternion -> R -> Quaternion;
  (** [v.applyQuaternion (q)] *)
  applyQuaternion : Vector3.t -> Quaternion -> Vector3.t;
  Camera : Type;
  (** [camera.getWorldDirection (v)]: a unit vector *)
  getWorldDirection : Camera -> Vector3.t;
  camera_position : Camera -> Vector3.t;
  camera_set_position : Camera -> Vector3.t -> Camera;
  (** [camera.lookAt (target)] *)
  lookAt : Camera -> Vector3.t -> Camera;
  (** [new THREE.Raycaster (origin, direction).intersectObject (tile, true)] *)
  intersectObject : Tile -> Vector3.t -> Vector3.t -> list Intersection
}.

(** [intersections.sort ((a, b) => a.distance - b.distance)]: ascending
    distance, equal distances keep their order. *)
Fixpoint insert_by_distance (h : Intersection) (l : list Intersection) : list Intersection :=
  match l with
  | [] => [h]
  | h' :: rest =>
      if Rle_dec (distance h) (distance h') then h :: l
      else h' :: insert_by_distance h rest
  end.
Fixpoint sort_by_distance (l : list Intersection) : list Intersection :=
  match l with
  | [] => []
  | h :: rest => insert_by_distance h (sort_by_distance rest)
  end.

Module Tiled.
Section WithThree.
Context `{Three}.

Definition tileSize : R := 20.
Definition scaleFactor : R := 5.
Definition tileRepeat : Z := 3.

(** The robot: [model.position] and [model.quaternion]. *)
Record Model := mkModel { position : Vector3.t; quaternion : Quaternion }.

Record World := mkWorld {
  model : option Model;
  terrainTiles : list Tile;
  camera : Camera;
  keys : Keys.t;
  ctl : Controller
}.

Definition initialWorld (camera0 : Camera) : World :=
  mkWorld None [] camera0 Keys.initial initialController.

Definition set_model v (w : World) := mkWorld v (terrainTiles w) (camera w) (keys w) (ctl w).
Definition set_terrainTiles v (w : World) := mkWorld (model w) v (camera w) (keys w) (ctl w).
Definition set_camera v (w : World) := mkWorld (model w) (terrainTiles w) v (keys w) (ctl w).
Definition set_keys v (w : World) := mkWorld (model w) (terrainTiles w) (camera w) v (ctl w).
Definition set_ctl v (w : World) := mkWorld (model w) (terrainTiles w) (camera w) (keys w) v.

Definition liftC {A} (c : JS Controller A) : JS World A :=
  fun w => let (r, c') := c (ctl w) in (r, set_ctl c' w).

(** [model.position = v] on a variable that may be undefined *)
Definition set_model_position (v : Vector3.t) : JS World unit :=
  m <- gets model ;;
  match m with
  | Some robot => modify (set_model (Some (mkModel v (quaternion robot))))
  | None => throw (TypeError "cannot read properties of undefined")
  end.

(** The values [-half], ..., [half] of a loop counter. *)
Definition range (lo hi : Z) : list Z :=
  map (fun n => (lo + Z.of_nat n)%Z) (seq 0 (Z.to_nat (hi - lo + 1))).

Definition createTerrainGrid : JS World unit :=
  let half := (tileRepeat / 2)%Z in
  let tileSpacing := tileSize * scaleFactor * 0.99 in
  forOf (range (- half) half) (fun i =>
    forOf (range (- half) half) (fun j =>
      let tile := mkTile (Vector3.new (IZR i * tileSpacing) 0 (IZR j * tileSpacing)) in
      modify (fun w => set_terrainTiles (terrainTiles w ++ [tile]) w))).

(** The body of the two loops of [repositionTerrain]; [idx] is the local
    counter. *)
Definition reposition_slot (centerX centerZ spacing : R) (i j : Z)
           (st : list Tile * nat) : list Tile * nat :=
  let (tiles, idx) := st in
  match tiles !! idx with
  | Some _ =>
      (<[idx := mkTile (Vector3.new (centerX + IZR i * spacing) 0 (centerZ + IZR j * spacing))]> tiles,
       Datatypes.S idx)
  | None => (tiles, idx)
  end.

Definition repositionTerrain : JS World unit :=
  m <- gets model ;;
  match m with
  | None => throw (TypeError "cannot read properties of undefined")
  | Some robot =>
      let spacing := tileSize * scaleFactor * 0.99 in
      let centerX := IZR (Math_round (Vector3.x (position robot) / spacing)) * spacing in
      let centerZ := IZR (Math_round (Vector3.z (position robot) / spacing)) * spacing in
      modify (fun w =>
        set_terrainTiles
          (fst (fold_left
                  (fun st i =>
                     fold_left (fun st j => reposition_slot centerX centerZ spacing i j st)
                               (range (-1) 1) st)
                  (range (-1) 1) (terrainTiles w, O)))
          w)
  end.

Definition down : Vector3.t := Vector3.new 0 (-1) 0.

(** [for (let tile of terrainTiles) { const hits = ...;
      if (hits.length > 0) intersections.push (...hits); }] *)
Definition collect_hits (tiles : list Tile) (origin : Vector3.t) : list Intersection :=
  fold_left
    (fun (intersections : list Intersection) tile =>
       let hits := intersectObject tile origin down in
       if (0 <? List.length hits)%nat then (intersections ++ hits)%list else intersections)
    tiles [].

(** The terrain height [updateRobotMovement] gives the robot at the
    tentative position. *)
Definition groundHeight (tiles : list Tile) (newPos : Vector3.t) : R :=
  let origin := Vector3.new (Vector3.x newPos) 20 (Vector3.z newPos) in
  let intersections := collect_hits tiles origin in
  if (0 <? List.length intersections)%nat then
    match sort_by_distance intersections with
    | first :: _ => Vector3.y (point first)
    | [] => Vector3.y newPos
    end
  else 0.

(** The body of the timer that [init] sets once the robot is loaded. *)
Definition spawn : JS World unit :=
  tiles <- gets terrainTiles ;;
  let spawnPos := Vector3.new 0 20 0 in
  let hits := flat_map (fun tile => intersectObject tile spawnPos down) tiles in
  match hits with
  | first :: _ => set_model_position (point first)
  | [] => set_model_position (Vector3.new 0 0 0)
  end.

(** The camera basis and the movement vector composed from the input. *)
Definition forward_of (cam : Camera) : Vector3.t :=
  let forward := getWorldDirection cam in
  let forward := Vector3.set_y forward 0 in
  Vector3.normalize forward.

Definition right_of (forward : Vector3.t) : Vector3.t :=
  Vector3.normalize (Vector3.crossVectors forward (Vector3.new 0 1 0)).

Definition direction_of (k : Keys.t) (forward right : Vector3.t) : Vector3.t :=
  let direction := Vector3.zero in
  let direction := if Keys.w k then Vector3.add direction forward else direction in
  let direction := if Keys.s k then Vector3.sub direction forward else direction in
  let direction := if Keys.a k then Vector3.sub direction right else direction in
  let direction := if Keys.d k then Vector3.add direction right else direction in
  direction.

Definition updateRobotMovement : JS World unit :=
  m <- gets model ;;
  tiles <- gets terrainTiles ;;
  match m with
  | None => ret tt
  | Some robot =>
      if (List.length tiles =? 0)%nat then ret tt
      else
        cam <- gets camera ;;
        k <- gets keys ;;
        let forward := forward_of cam in
        let right := right_of forward in
        let direction := direction_of k forward right in
        if Rlt_dec 0 (Vector3.length direction) then
          let direction := Vector3.normalize direction in
          let speed := if Keys.shift k then moveSpeed * 2 else moveSpeed in
          let velocity := Vector3.multiplyScalar direction speed in
          let newPos := Vector3.add (position robot) velocity in
          let newPos := Vector3.set_y newPos (groundHeight tiles newPos) in
          let targetQuaternion :=
            setFromUnitVectors (Vector3.new 0 0 1) (Vector3.normalize direction) in
          modify (set_model (Some (mkModel newPos (slerp (quaternion robot) targetQuaternion 0.2)))) ;;
          liftC (movingState (Keys.shift k)) ;;
          repositionTerrain
        else liftC idleState
  end.

Definition updateThirdPersonCamera : JS World unit :=
  m <- gets model ;;
  match m with
  | None => ret tt
  | Some robot =>
      tiles <- gets terrainTiles ;;
      cam <- gets camera ;;
      let offset := Vector3.new 0 5 (-10) in
      let cameraTarget := position robot in
      let cameraOffset := applyQuaternion offset (quaternion robot) in
      let desiredCameraPos := Vector3.add cameraTarget cameraOffset in
      let origin := Vector3.new (Vector3.x desiredCameraPos)
                                (Vector3.y desiredCameraPos + 10)
                                (Vector3.z desiredCameraPos) in
      let intersects := flat_map (fun tile => intersectObject tile origin down) tiles in
      let desiredCameraPos :=
        match intersects with
        | first :: _ =>
            let groundY := Vector3.y (point first) in
            if Rlt_dec (Vector3.y desiredCameraPos) (groundY + 2.5)
            then Vector3.set_y desiredCameraPos (groundY + 2.5)
            else desiredCameraPos
        | [] => desiredCameraPos
        end in
      let cam := camera_set_position cam (Vector3.lerp (camera_position cam) desiredCameraPos 0.1) in
      let lookTarget := Vector3.add (position robot) (Vector3.new 0 2 0) in
      modify (set_camera (lookAt cam lookTarget))
  end.

Definition onKeyDown (key : string) : JS World unit :=
  let k := toLowerCase key in
  if String.eqb k "w" then modify (fun w => set_keys (Keys.set_w (keys w) true) w)
  else if String.eqb k "a" then modify (fun w => set_keys (Keys.set_a (keys w) true) w)
  else if String.eqb k "s" then modify (fun w => set_keys (Keys.set_s (keys w) true) w)
  else if String.eqb k "d" then modify (fun w => set_keys (Keys.set_d (keys w) true) w)
  else if String.eqb k "shift" then modify (fun w => set_keys (Keys.set_shift (keys w) true) w)
  else if String.eqb k " " then
    m <- gets model ;;
    match m with
    | Some _ => liftC (fadeToAction "Jump" 0.2)
    | None => ret tt
    end
  else ret tt.

Definition onKeyUp (key : string) : JS World unit :=
  let k := toLowerCase key in
  if String.eqb k "w" then modify (fun w => set_keys (Keys.set_w (keys w) false) w)
  else if String.eqb k "a" then modify (fun w => set_keys (Keys.set_a (keys w) false) w)
  else if String.eqb k "s" then modify (fun w => set_keys (Keys.set_s (keys w) false) w)
  else if String.eqb k "d" then modify (fun w => set_keys (Keys.set_d (keys w) false) w)
  else if String.eqb k "shift" then modify (fun w => set_keys (Keys.set_shift (keys w) false) w)
  else ret tt.

(** [animate ()]; the renderer and the stats panel do not touch the
    state modelled here. *)
Definition animate (dt : R) (finished : list AnimationAction) : JS World unit :=
  mx <- gets (fun w => mixer (ctl w)) ;;
  match mx with
  | Some _ => liftC (mixer_update dt finished)
  | None => ret tt
  end ;;
  updateRobotMovement ;;
  updateThirdPersonCamera.

(** What the browser, the loaders, the orbit controls and the debug
    panel deliver. *)
Inductive Event :=
| TerrainLoaded
| ModelLoaded (scene : Model) (animations : list string) (face : option (list string))
| SpawnTimer
| KeyDown (key : string)
| KeyUp (key : string)
| StateChosen (choice : string)
| EmoteClicked (name : string)
| CameraDragged (cam : Camera)
| AnimationFrame (dt : R) (finished : list AnimationAction).

Definition handle (e : Event) : JS World unit :=
  match e with
  | TerrainLoaded => createTerrainGrid
  | ModelLoaded scene animations face =>
      modify (set_model (Some scene)) ;;
      liftC (createGUI animations face)
  | SpawnTimer => spawn
  | KeyDown key => onKeyDown key
  | KeyUp key => onKeyUp key
  | StateChosen choice => liftC (api_state_onChange choice)
  | EmoteClicked name => liftC (api_emote name)
  | CameraDragged cam => modify (set_camera cam)
  | AnimationFrame dt finished => animate dt finished
  end.

End WithThree.
End Tiled.

(** * Reference definitions and concrete scenes used in the statements *)

(** The analytic reference of the specification: two sinusoidal terms
    with frequencies [f1], [f2] and amplitude [A]. *)
Definition heightAt_reference (f1 f2 A x z : R) : R :=
  sin (x * f1) * cos (z * f1) * A + sin ((x + z) * f2) * A / 2.

(** The slot-to-offset mapping of the specification: the tiles take, in
    the order of the array, the offsets in the fixed order of the two
    loops; a tile beyond the last offset stays where it is. *)
Fixpoint place_tiles (centerX centerZ spacing : R) (slots : list (Z * Z)) (tiles : list Tile)
  : list Tile :=
  match slots, tiles with
  | (i, j) :: slots', _ :: tiles' =>
      mkTile (Vector3.new (centerX + IZR i * spacing) 0 (centerZ + IZR j * spacing))
      :: place_tiles centerX centerZ spacing slots' tiles'
  | _, _ => tiles
  end.

Definition slots3x3 : list (Z * Z) :=
  [(-1, -1); (-1, 0); (-1, 1); (0, -1); (0, 0); (0, 1); (1, -1); (1, 0); (1, 1)]%Z.

(** A controller on which the locomotion transitions cannot throw: some
    action is active and the three locomotion clips exist. *)
Definition ready (c : Controller) : Prop :=
  exists m, actions c = Some m /\ is_Some (activeAction c) /\
            is_Some (m !! "Idle") /\ is_Some (m !! "Walking") /\ is_Some (m !! "Running").

(** The position and heading a moving tick of the closed-form variant
    gives the robot: the step along the normalised direction, then the
    height of the terrain at the new (x, z). *)
Definition newPos_of (k : Keys.t) (p : Vector3.t) : Vector3.t :=
  let moveDirection := Vector3.normalize (ClosedForm.moveDirection_of k) in
  let speed := if Keys.shift k then moveSpeed * 2 else moveSpeed in
  let newPos := p in
  let newPos := Vector3.set_x newPos (Vector3.x newPos + Vector3.x moveDirection * speed) in
  let newPos := Vector3.set_z newPos (Vector3.z newPos + Vector3.z moveDirection * speed) in
  Vector3.set_y newPos
    (sin (Vector3.x newPos * 0.1) * cos (Vector3.z newPos * 0.1) * ClosedForm.TERRAIN_HEIGHT +
     sin (Vector3.x newPos * 0.2 + Vector3.z newPos * 0.2) * ClosedForm.TERRAIN_HEIGHT * 0.5).

Definition targetRotation_of (k : Keys.t) : R :=
  let moveDirection := Vector3.normalize (ClosedForm.moveDirection_of k) in
  Math_atan2 (Vector3.x moveDirection) (Vector3.z moveDirection).

(** The movement vector of the tiled variant for the keys held and the
    camera, and the position a moving tick gives the robot. *)
Definition camera_direction `{Three} (k : Keys.t) (cam : Camera) : Vector3.t :=
  Tiled.direction_of k (Tiled.forward_of cam) (Tiled.right_of (Tiled.forward_of cam)).

Definition tiled_newPos `{Three} (k : Keys.t) (cam : Camera) (tiles : list Tile) (p : Vector3.t)
  : Vector3.t :=
  let direction := Vector3.normalize (camera_direction k cam) in
  let speed := if Keys.shift k then moveSpeed * 2 else moveSpeed in
  let velocity := Vector3.multiplyScalar direction speed in
  let newPos := Vector3.add p velocity in
  Vector3.set_y newPos (Tiled.groundHeight tiles newPos).

Definition tiled_quaternion `{Three} (k : Keys.t) (cam : Camera) (q : Quaternion) : Quaternion :=
  let direction := Vector3.normalize (camera_direction k cam) in
  slerp q (setFromUnitVectors (Vector3.new 0 0 1) (Vector3.normalize direction)) 0.2.

(** All the hits of the downward ray from [origin], tile by tile. *)
Definition all_hits `{Three} (tiles : list Tile) (origin : Vector3.t) : list Intersection :=
  flat_map (fun tile => intersectObject tile origin Tiled.down) tiles.

(** ** Concrete scenes *)

(** A robot whose clips are the seven states and the six emotes. *)
Definition standard_clips : list string := (states ++ emotes)%list.

Definition standard_actions : gmap string AnimationAction :=
  fold_left (fun m clip => <[clip := clipAction clip]> m) standard_clips ∅.

Definition walkingAction : AnimationAction := mkAction "Walking" false LoopRepeat.
Definition idleAction : AnimationAction := mkAction "Idle" false LoopRepeat.
Definition runningAction : AnimationAction := mkAction "Running" false LoopRepeat.
Definition jumpAction : AnimationAction := mkAction "Jump" true LoopOnce.

(** The controller as [createGUI] leaves it for that robot. *)
Definition loaded_controller : Controller :=
  mkController (Some (mkMixer [])) (Some standard_actions) (Some walkingAction) None
               "Walking" "Idle" [play walkingAction].

(** The closed-form world once that robot is loaded at the origin. *)
Definition cf_loaded : ClosedForm.World :=
  ClosedForm.mkWorld (Some (ClosedForm.mkModel (Vector3.new 0 0 0) 0)) Keys.initial
                     loaded_controller.

(** A terrain for the tiled variant given as a height field: [surfaces lx
    lz] lists the heights of the mesh above the point (lx, lz) of the
    tile's own frame, highest first.  Rays start above the mesh.
    Quaternions carry no information here and the camera is a position
    and a viewing direction. *)
Definition heightfield (surfaces : R -> R -> list R) : Three := {|
  Quaternion := unit;
  setFromUnitVectors := fun _ _ => tt;
  slerp := fun _ _ _ => tt;
  applyQuaternion := fun v _ => v;
  Camera := Vector3.t * Vector3.t;
  getWorldDirection := snd;
  camera_position := fst;
  camera_set_position := fun c p => (p, snd c);
  lookAt := fun c target => (fst c, Vector3.normalize (Vector3.sub target (fst c)));
  intersectObject := fun tile origin _ =>
    map (fun h =>
           let y := Vector3.y (tile_position tile) + h in
           mkIntersection (Vector3.y origin - y)
                          (Vector3.new (Vector3.x origin) y (Vector3.z origin)))
        (surfaces (Vector3.x origin - Vector3.x (tile_position tile))
                  (Vector3.z origin - Vector3.z (tile_position tile)))
|}.

(** A scene file without any mesh: no ray meets anything. *)
Definition no_mesh (lx lz : R) : list R := [].

(** A tile mesh wider than the spacing of the grid: a plateau of height 2
    over the square of side 100 around the tile's centre and, east of it,
    a skirt of height -5 that reaches under the neighbouring tile. *)
Definition skirted (lx lz : R) : list R :=
  if Rle_dec (-50) lz then
    if Rle_dec lz 50 then
      if Rle_dec (-50) lx then
        if Rle_dec lx 50 then [2]
        else if Rle_dec lx 150 then [-5] else []
      else []
    else []
  else [].

(** The nine tiles as [createTerrainGrid] places them. *)
Definition grid_tiles : list Tile :=
  map (fun slot : Z * Z =>
         mkTile (Vector3.new (IZR (fst slot) * (20 * 5 * 0.99)) 0 (IZR (snd slot) * (20 * 5 * 0.99))))
      slots3x3.

(** A camera at (-5, 3, 10) looking along the negative z axis. *)
Definition camera_north : Vector3.t * Vector3.t :=
  (Vector3.new (-5) 3 10, Vector3.new 0 0 (-1)).

(** The tiled world with the grid in place and the standard robot loaded
    at the origin. *)
Definition tiled_loaded (surfaces : R -> R -> list R) : @Tiled.World (heightfield surfaces) :=
  @Tiled.mkWorld (heightfield surfaces)
    (Some (@Tiled.mkModel (heightfield surfaces) (Vector3.new 0 0 0) tt))
    grid_tiles camera_north Keys.initial loaded_controller.

(** ** The interval before the first movement or panel operation *)

Definition no_net_direction (k : Keys.t) : Prop :=
  Keys.w k = Keys.s k /\ Keys.a k = Keys.d k.

(** The events of that interval in the closed-form variant: keys other
    than the space bar going down, any key going up, and frames in which
    the keys held have no net direction. *)
Definition cf_quiet_event (e : ClosedForm.Event) (w : ClosedForm.World) : Prop :=
  match e with
  | ClosedForm.KeyDown key => toLowerCase key <> " "
  | ClosedForm.KeyUp _ => True
  | ClosedForm.AnimationFrame _ _ => no_net_direction (ClosedForm.keys w)
  | _ => False
  end.

Fixpoint cf_quiet (evs : list ClosedForm.Event) (w : ClosedForm.World) : Prop :=
  match evs with
  | [] => True
  | e :: rest => cf_quiet_event e w /\ cf_quiet rest (exec (ClosedForm.handle e) w)
  end.

(** The same in the tiled variant, where the terrain may still arrive,
    the spawn timer fires and the orbit controls move the camera. *)
Definition tiled_quiet_event `{Three} (e : Tiled.Event) (w : Tiled.World) : Prop :=
  match e with
  | Tiled.KeyDown key => toLowerCase key <> " "
  | Tiled.KeyUp _ => True
  | Tiled.AnimationFrame _ _ => no_net_direction (Tiled.keys w)
  | Tiled.TerrainLoaded => True
  | Tiled.SpawnTimer => True
  | Tiled.CameraDragged _ => True
  | _ => False
  end.

Fixpoint tiled_quiet `{Three} (evs : list Tiled.Event) (w : Tiled.World) : Prop :=
  match evs with
  | [] => True
  | e :: rest => tiled_quiet_event e w /\ tiled_quiet rest (exec (Tiled.handle e) w)
  end.

(** The controller between [createGUI] and the first transition: no
    listener, the Walking action active, Idle recorded, and [play] on the
    Walking action the only call made so far. *)
Definition walking_while_idle (c : Controller) : Prop :=
  mixer c = Some (mkMixer []) /\
  (exists m, actions c = Some m) /\
  activeAction c = Some walkingAction /\
  currentMovement c = "Idle" /\
  calls c = [play walkingAction].

(** ** The controller during and after a Jump *)

(** After the crossfade from Walking to Jump on [loaded_controller]. *)
Definition jumping_controller : Controller :=
  mkController (Some (mkMixer [])) (Some standard_actions) (Some jumpAction) (Some walkingAction)
               "Walking" "Idle"
               [play walkingAction;
                fadeOut walkingAction 0.2; reset jumpAction; setEffectiveTimeScale jumpAction 1;
                setEffectiveWeight jumpAction 1; fadeIn jumpAction 0.2; play jumpAction].

(** The same with the listener armed, as the emote button leaves it. *)
Definition armed_controller : Controller :=
  set_mixer (Some (mkMixer [restoreState_listener])) jumping_controller.

(** After [restoreState]: listener gone, crossfade from Jump to Idle. *)
Definition restored_controller : Controller :=
  mkController (Some (mkMixer [])) (Some standard_actions) (Some idleAction) (Some jumpAction)
               "Walking" "Idle"
               [play walkingAction;
                fadeOut walkingAction 0.2; reset jumpAction; setEffectiveTimeScale jumpAction 1;
                setEffectiveWeight jumpAction 1; fadeIn jumpAction 0.2; play jumpAction;
                fadeOut jumpAction 0.2; reset idleAction; setEffectiveTimeScale idleAction 1;
                setEffectiveWeight idleAction 1; fadeIn idleAction 0.2; play idleAction].

(** ** A robot file without a Running clip *)

Definition sparse_clips : list string := ["Idle"; "Walking"].

Definition sparse_actions : gmap string AnimationAction :=
  fold_left (fun m clip => <[clip := clipAction clip]> m) sparse_clips ∅.

Definition sparse_controller : Controller :=
  mkController (Some (mkMixer [])) (Some sparse_actions) (Some walkingAction) None
               "Walking" "Idle" [play walkingAction].

(** That robot loaded in the closed-form variant, forward and sprint
    held. *)
Definition cf_sparse_sprinting : ClosedForm.World :=
  ClosedForm.mkWorld (Some (ClosedForm.mkModel (Vector3.new 0 0 0) 0))
                     (Keys.new true false false false true) sparse_controller.

(** The closed-form world with forward held, and with forward and sprint
    held, on the loaded standard robot. *)
Definition cf_forward (sprint : bool) : ClosedForm.World :=
  ClosedForm.set_keys (Keys.new true false false false sprint) cf_loaded.

(** The tiled world with forward held, and with forward and sprint
    held. *)
Definition tiled_forward (surfaces : R -> R -> list R) (sprint : bool)
  : @Tiled.World (heightfield surfaces) :=
  Tiled.set_keys (Keys.new true false false false sprint) (tiled_loaded surfaces).

(** The sparse robot in the tiled variant, forward and sprint held. *)
Definition tiled_sparse_sprinting : @Tiled.World (heightfield no_mesh) :=
  @Tiled.mkWorld (heightfield no_mesh)
    (Some (@Tiled.mkModel (heightfield no_mesh) (Vector3.new 0 0 0) tt))
    grid_tiles camera_north (Keys.new true false false false true) sparse_controller.

(** A robot with two emotes, after three clicks in the panel between two
    frames: the Jump button, the state Dance (for which the file has no
    clip: the handler throws), the Yes button (the handler throws on the
    undefined previous action).  The listener armed by the first click is
    still registered. *)
Definition emote_clips : list string := ["Idle"; "Walking"; "Jump"; "Yes"].

Definition yesAction : AnimationAction := mkAction "Yes" true LoopOnce.

Definition tangled_controller : Controller :=
  exec (api_emote "Yes")
       (exec (api_state_onChange "Dance")
             (exec (api_emote "Jump")
                   (exec (createGUI emote_clips (Some [])) initialController))).

Definition cf_tangled : ClosedForm.World :=
  ClosedForm.mkWorld (Some (ClosedForm.mkModel (Vector3.new 0 0 0) 0)) Keys.initial
                     tangled_controller.

Definition tiled_tangled : @Tiled.World (heightfield no_mesh) :=
  @Tiled.mkWorld (heightfield no_mesh)
    (Some (@Tiled.mkModel (heightfield no_mesh) (Vector3.new 0 0 0) tt))
    grid_tiles camera_north Keys.initial tangled_controller.

(** * Definitions for the further properties *)

(** The listeners registered on the mixer, none while there is no mixer. *)
Definition listeners_of (c : Controller) : list Listener :=
  match mixer c with
  | Some m => finishedListeners m
  | None => []
  end.

(** The three clips [createGUI] configures to play once, besides the
    emotes: the entries of [states] from index 4 on. *)
Definition once_states : list string := ["Death"; "Sitting"; "Standing"].

(** Each event is handled in a turn of its own: an exception ends that
    handler only, and the next event finds the state the handler left.
    (Frames are run here even after a frame that threw, which covers
    more runs than the renderer produces.) *)
Definition cf_run (evs : list ClosedForm.Event) (w : ClosedForm.World) : ClosedForm.World :=
  fold_left (fun w e => exec (ClosedForm.handle e) w) evs w.

Definition tiled_run `{Three} (evs : list Tiled.Event) (w : Tiled.World) : Tiled.World :=
  fold_left (fun w e => exec (Tiled.handle e) w) evs w.

(** The locomotion state a live tick records for the input. *)
Definition locomotion_of (moving shift : bool) : string :=
  if moving then (if shift then "Running" else "Walking") else "Idle".

(** A point of the analytic terrain of the closed-form variant. *)
Definition on_terrain (p : Vector3.t) : Prop :=
  Vector3.y p = heightAt_reference 0.1 0.2 5 (Vector3.x p) (Vector3.z p).

(** The robot of the closed-form variant stands on the terrain (or is not
    loaded yet). *)
Definition cf_grounded (w : ClosedForm.World) : Prop :=
  match ClosedForm.model w with
  | Some robot => on_terrain (ClosedForm.position robot)
  | None => True
  end.

(** The robot file places the robot on the terrain. *)
Definition cf_loads_grounded (e : ClosedForm.Event) : Prop :=
  match e with
  | ClosedForm.ModelLoaded scene _ _ => on_terrain (ClosedForm.position scene)
  | _ => True
  end.

(** The number of times the terrain file arrives in a run of events. *)
Definition terrain_loads `{Three} (evs : list Tiled.Event) : nat :=
  List.length (List.filter (fun e => match e with Tiled.TerrainLoaded => true | _ => false end) evs).

(** What the camera update relies on of a three.js camera: setting the
    position sets it, and [lookAt] turns the camera without moving it. *)
Definition camera_laws `{Three} : Prop :=
  (forall (c : Camera) (p : Vector3.t), camera_position (camera_set_position c p) = p) /\
  (forall (c : Camera) (target : Vector3.t), camera_position (lookAt c target) = camera_position c).

(** The point behind and above the robot that the camera heads for, and
    the origin of the ray cast down through it. *)
Definition camera_goal `{Three} (robot : Tiled.Model) : Vector3.t :=
  Vector3.add (Tiled.position robot)
              (applyQuaternion (Vector3.new 0 5 (-10)) (Tiled.quaternion robot)).

Definition camera_probe `{Three} (robot : Tiled.Model) : Vector3.t :=
  Vector3.new (Vector3.x (camera_goal robot)) (Vector3.y (camera_goal robot) + 10)
              (Vector3.z (camera_goal robot)).

(** The horizontal step of a moving tick of the tiled variant, before the
    height is looked up. *)
Definition tiled_step `{Three} (k : Keys.t) (cam : Camera) (p : Vector3.t) : Vector3.t :=
  Vector3.add p
    (Vector3.multiplyScalar (Vector3.normalize (camera_direction k cam))
                            (if Keys.shift k then moveSpeed * 2 else moveSpeed)).

(** The events that can occur before the robot file has arrived: keys,
    frames and, in the tiled variant, the terrain file and camera drags.
    (The panel and the spawn timer are set up by the robot's loader.) *)
Definition cf_early_event (e : ClosedForm.Event) : Prop :=
  match e with
  | ClosedForm.KeyDown _ | ClosedForm.KeyUp _ | ClosedForm.AnimationFrame _ _ => True
  | _ => False
  end.

Definition tiled_early_event `{Three} (e : Tiled.Event) : Prop :=
  match e with
  | Tiled.TerrainLoaded | Tiled.KeyDown _ | Tiled.KeyUp _
  | Tiled.CameraDragged _ | Tiled.AnimationFrame _ _ => True
  | _ => False
  end.

(** A controller set up from a robot file that has a clip for every
    state and every emote of the panel. *)
Definition complete (c : Controller) : Prop :=
  is_Some (mixer c) /\
  (exists m, actions c = Some m /\
             forall name, In name (states ++ emotes)%list -> is_Some (m !! name)) /\
  is_Some (activeAction c) /\
  In (currentMovement c) states.

(** The events after loading: the panel offers the states of [states] and
    one button per emote of [emotes]; keys and frames are unrestricted. *)
Definition cf_panel_event (e : ClosedForm.Event) : Prop :=
  match e with
  | ClosedForm.ModelLoaded _ _ _ => False
  | ClosedForm.StateChosen choice => In choice states
  | ClosedForm.EmoteClicked name => In name emotes
  | _ => True
  end.

Definition tiled_panel_event `{Three} (e : Tiled.Event) : Prop :=
  match e with
  | Tiled.ModelLoaded _ _ _ => False
  | Tiled.StateChosen choice => In choice states
  | Tiled.EmoteClicked name => In name emotes
  | _ => True
  end.

(** ** More scenes *)

(** A level mesh: one surface of height 1 under every point of every
    tile. *)
Definition level (lx lz : R) : list R := [1].

(** A camera above the origin looking straight down, and the tiled world
    with that camera and forward held. *)
Definition camera_overhead : Vector3.t * Vector3.t :=
  (Vector3.new 0 10 0, Vector3.new 0 (-1) 0).

Definition tiled_overhead : @Tiled.World (heightfield no_mesh) :=
  Tiled.set_camera (H := heightfield no_mesh) camera_overhead (tiled_forward no_mesh false).

(** A run of events on the loaded robot: the space bar, the Jump button,
    the Dance state, and a frame in which the Jump action finishes. *)
Definition cf_session : list ClosedForm.Event :=
  [ClosedForm.KeyDown " "; ClosedForm.EmoteClicked "Jump"; ClosedForm.StateChosen "Dance";
   ClosedForm.AnimationFrame (1 / 60) [jumpAction]].

Definition tiled_session : list (@Tiled.Event (heightfield no_mesh)) :=
  [Tiled.TerrainLoaded; Tiled.SpawnTimer; Tiled.KeyDown " "; Tiled.EmoteClicked "Jump";
   Tiled.StateChosen "Dance"; Tiled.AnimationFrame (1 / 60) [jumpAction]].

(** Input that arrives before the files do. *)
Definition cf_early : list ClosedForm.Event :=
  [ClosedForm.KeyDown "w"; ClosedForm.KeyDown " "; ClosedForm.AnimationFrame (1 / 60) [];
   ClosedForm.KeyUp "w"].

Definition tiled_early : list (@Tiled.Event (heightfield no_mesh)) :=
  [Tiled.KeyDown (H := heightfield no_mesh) "w"; Tiled.KeyDown " ";
   Tiled.AnimationFrame (1 / 60) [];
   Tiled.TerrainLoaded; Tiled.CameraDragged (H := heightfield no_mesh) camera_overhead; Tiled.KeyUp "w"].

(** A camera at (5, 3, -10) looking along the positive z axis, the
    direction the robot faces when loaded, and the scene without mesh
    with that camera and forward held ([sprint]: with the sprint
    modifier).  A step along that axis leaves the robot's heading as it
    is, so the camera offset (0, 5, -10) is not rotated in the frame that
    follows. *)
Definition camera_south : Vector3.t * Vector3.t :=
  (Vector3.new 5 3 (-10), Vector3.new 0 0 1).

Definition tiled_southward (sprint : bool) : @Tiled.World (heightfield no_mesh) :=
  Tiled.set_camera (H := heightfield no_mesh) camera_south (tiled_forward no_mesh sprint).

(** * Properties *)

(** ** The animation controller *)

Arguments fadeToAction : simpl never.

Ltac js_unfold :=
  unfold fadeToAction, actions_at, call_on, on_mixer, bind, ret, gets, get, modify, throw.

(** What [fadeToAction] never touches, whether it returns or throws. *)
Lemma fadeToAction_frame (name : string) (duration : R) (c : Controller) :
  let c' := snd (fadeToAction name duration c) in
  mixer c' = mixer c /\ actions c' = actions c /\
  api_state c' = api_state c /\ currentMovement c' = currentMovement c.
Proof.
  js_unfold. destruct (actions c) as [m|] eqn:Hact; cbn; [|auto].
  destruct (decide (activeAction c = m !! name)); cbn; [auto|].
  destruct (activeAction c); destruct (m !! name); cbn; auto.
Qed.

(** The no-op case: the requested action is the active one. *)
Lemma fadeToAction_same (name : string) (duration : R) (c : Controller)
      (m : gmap string AnimationAction) :
  actions c = Some m ->
  activeAction c = m !! name ->
  fadeToAction name duration c = (Normal tt, c).
Proof.
  intros Hact Heq. js_unfold. rewrite Hact. cbn.
  destruct (decide (activeAction c = m !! name)); [reflexivity|contradiction].
Qed.

(** The crossfade: the requested action exists and differs from the
    active one. *)
Lemma fadeToAction_switch (name : string) (duration : R) (c : Controller)
      (m : gmap string AnimationAction) (p a : AnimationAction) :
  actions c = Some m ->
  m !! name = Some a ->
  activeAction c = Some p ->
  p <> a ->
  fadeToAction name duration c
  = (Normal tt,
     mkController (mixer c) (actions c) (Some a) (Some p) (api_state c) (currentMovement c)
                  (calls c ++ [fadeOut p duration; reset a; setEffectiveTimeScale a 1;
                               setEffectiveWeight a 1; fadeIn a duration; play a])).
Proof.
  intros Hact Hname Hp Hne. js_unfold. rewrite Hact, Hname, Hp. cbn.
  destruct (decide (Some p = Some a)) as [E|_]; [congruence|]. cbn.
  destruct (decide (Some p = Some a)) as [E|_]; [congruence|]. cbn.
  unfold add_call, set_activeAction, set_previousAction; cbn.
  rewrite Hact. repeat rewrite <- app_assoc. reflexivity.
Qed.

(** The requested clip is missing while another action is active: the
    active variable becomes undefined and the call on it throws. *)
Lemma fadeToAction_missing (name : string) (duration : R) (c : Controller)
      (m : gmap string AnimationAction) (p : AnimationAction) :
  actions c = Some m ->
  m !! name = None ->
  activeAction c = Some p ->
  fadeToAction name duration c
  = (Throw (TypeError "cannot read properties of undefined"),
     mkController (mixer c) (actions c) None (Some p) (api_state c) (currentMovement c)
                  (calls c ++ [fadeOut p duration])).
Proof.
  intros Hact Hname Hp. js_unfold. rewrite Hact, Hname, Hp. cbn.
  destruct (decide (Some p = None)) as [E|_]; [congruence|]. cbn.
  destruct (decide (Some p = None)) as [E|_]; [congruence|]. cbn.
  unfold add_call, set_activeAction, set_previousAction; cbn.
  rewrite Hact. reflexivity.
Qed.

Lemma fadeToAction_returns (name : string) (duration : R) (c : Controller)
      (m : gmap string AnimationAction) :
  actions c = Some m ->
  is_Some (activeAction c) ->
  is_Some (m !! name) ->
  fst (fadeToAction name duration c) = Normal tt /\
  is_Some (activeAction (snd (fadeToAction name duration c))).
Proof.
  intros Hact [p Hp] [a Ha].
  destruct (decide (p = a)) as [->|Hne].
  - rewrite (fadeToAction_same name duration c m) by congruence. cbn. rewrite Hp. eauto.
  - rewrite (fadeToAction_switch name duration c m p a) by assumption. cbn. eauto.
Qed.

Lemma ready_fadeToAction (name : string) (duration : R) (c : Controller) :
  ready c ->
  (exists m, actions c = Some m /\ is_Some (m !! name)) ->
  fst (fadeToAction name duration c) = Normal tt /\ ready (snd (fadeToAction name duration c)).
Proof.
  intros (m & Hact & Hp & Hi & Hw & Hr) (m' & Hact' & Hn).
  assert (m' = m) by congruence. subst m'.
  destruct (fadeToAction_returns name duration c m Hact Hp Hn) as [Hret Hact''].
  split; [exact Hret|].
  exists m. destruct (fadeToAction_frame name duration c) as (_ & Ha & _).
  rewrite Ha. auto.
Qed.

(** The locomotion state a moving tick records: Running with the sprint
    modifier, Walking without, whether or not the transition throws. *)
Lemma movingState_currentMovement (shift : bool) (c : Controller) :
  currentMovement (snd (movingState shift c)) = if shift then "Running" else "Walking".
Proof.
  unfold movingState, bind, gets, modify.
  destruct shift; cbn.
  - destruct (String.eqb_spec (currentMovement c) "Running") as [E|E]; cbn; [exact E|].
    destruct (fadeToAction_frame "Running" 0.2 (set_currentMovement "Running" c)) as (_&_&_&Hc).
    rewrite Hc. reflexivity.
  - destruct (String.eqb_spec (currentMovement c) "Walking") as [E|E]; cbn; [exact E|].
    destruct (fadeToAction_frame "Walking" 0.2 (set_currentMovement "Walking" c)) as (_&_&_&Hc).
    rewrite Hc. reflexivity.
Qed.

Lemma idleState_currentMovement (c : Controller) :
  currentMovement (snd (idleState c)) = "Idle".
Proof.
  unfold idleState, bind, gets, modify.
  destruct (String.eqb_spec (currentMovement c) "Idle") as [E|E]; cbn; [exact E|].
  destruct (fadeToAction_frame "Idle" 0.2 (set_currentMovement "Idle" c)) as (_&_&_&Hc).
  rewrite Hc. reflexivity.
Qed.

Lemma ready_set_currentMovement (name : string) (c : Controller) :
  ready c -> ready (set_currentMovement name c).
Proof. intros (m & H); exists m; exact H. Qed.

Lemma movingState_ready (shift : bool) (c : Controller) :
  ready c ->
  fst (movingState shift c) = Normal tt /\ ready (snd (movingState shift c)).
Proof.
  intros Hr. unfold movingState, bind, gets, modify.
  destruct shift; cbn.
  - destruct (String.eqb (currentMovement c) "Running"); cbn; [auto|].
    apply ready_fadeToAction; [now apply ready_set_currentMovement|].
    destruct Hr as (m & Hact & _ & _ & _ & Hrun). exists m; auto.
  - destruct (String.eqb (currentMovement c) "Walking"); cbn; [auto|].
    apply ready_fadeToAction; [now apply ready_set_currentMovement|].
    destruct Hr as (m & Hact & _ & _ & Hwalk & _). exists m; auto.
Qed.

Lemma idleState_ready (c : Controller) :
  ready c ->
  fst (idleState c) = Normal tt /\ ready (snd (idleState c)).
Proof.
  intros Hr. unfold idleState, bind, gets, modify.
  destruct (String.eqb (currentMovement c) "Idle"); cbn; [auto|].
  apply ready_fadeToAction; [now apply ready_set_currentMovement|].
  destruct Hr as (m & Hact & _ & Hidle & _). exists m; auto.
Qed.



(** ** Terrain height of the closed-form variant *)

(** C1.  [getTerrainHeight (x, z)] returns the analytic reference sum with
    f1 = 0.1, f2 = 0.2 and A = TERRAIN_HEIGHT = 5 and leaves the state as
    it found it, whatever the state; so a call gives the same result
    wherever it stands among other calls, and the vertices [createTerrain]
    writes carry the same heights. *)
Theorem getTerrainHeight_is_reference :
  ClosedForm.TERRAIN_HEIGHT = 5 /\
  (forall (S : Type) (x z : R) (s : S),
      ClosedForm.getTerrainHeight x z s = (Normal (heightAt_reference 0.1 0.2 5 x z), s)) /\
  (forall (S : Type) (x z x' z' : R) (s : S),
      (_ <- ClosedForm.getTerrainHeight x' z' ;; ClosedForm.getTerrainHeight x z) s
      = ClosedForm.getTerrainHeight x z s) /\
  (forall (S : Type) (x z : R) (s : S),
      (h1 <- ClosedForm.getTerrainHeight x z ;;
       h2 <- ClosedForm.getTerrainHeight x z ;;
       ret (h1, h2)) s
      = (Normal (heightAt_reference 0.1 0.2 5 x z, heightAt_reference 0.1 0.2 5 x z), s)) /\
  (forall vertices : list Vector3.t,
      map Vector3.y (ClosedForm.createTerrain_vertices vertices)
      = map (fun v => heightAt_reference 0.1 0.2 5 (Vector3.x v) (Vector3.z v)) vertices).
Proof.
  assert (Href : forall (S : Type) (x z : R) (s : S),
             ClosedForm.getTerrainHeight x z s = (Normal (heightAt_reference 0.1 0.2 5 x z), s)).
  { intros S x z s. unfold ClosedForm.getTerrainHeight, heightAt_reference, ret,
      ClosedForm.TERRAIN_HEIGHT.
    do 2 f_equal.
    replace (x * 0.2 + z * 0.2) with ((x + z) * 0.2) by lra. lra. }
  split; [reflexivity|]. split; [exact Href|]. split; [|split].
  - intros S x z x' z' s. unfold bind. rewrite (Href S x' z'). reflexivity.
  - intros S x z s. unfold bind. rewrite !Href. reflexivity.
  - intros vertices. unfold ClosedForm.createTerrain_vertices.
    rewrite map_map. apply map_ext. intros u.
    unfold heightAt_reference, ClosedForm.TERRAIN_HEIGHT. cbn.
    replace (Vector3.x u * 0.2 + Vector3.z u * 0.2)
      with ((Vector3.x u + Vector3.z u) * 0.2) by lra. lra.
Qed.

(** ** Recentering the tile window *)

Section Recenter.
Context `{Three}.
Variables centerX centerZ spacing : R.

Let step (st : list Tile * nat) (slot : Z * Z) : list Tile * nat :=
  Tiled.reposition_slot centerX centerZ spacing (fst slot) (snd slot) st.

Lemma place_tiles_nil (slots : list (Z * Z)) :
  place_tiles centerX centerZ spacing slots [] = [].
Proof. destruct slots as [|[? ?] ?]; reflexivity. Qed.

Lemma fold_reposition_slots (slots : list (Z * Z)) :
  forall pre tiles : list Tile,
    fst (fold_left step slots ((pre ++ tiles)%list, List.length pre))
    = (pre ++ place_tiles centerX centerZ spacing slots tiles)%list.
Proof.
  induction slots as [|[i j] slots IH]; intros pre tiles.
  - destruct tiles; reflexivity.
  - destruct tiles as [|t tiles].
    + rewrite place_tiles_nil.
      cbn [fold_left step Tiled.reposition_slot fst snd].
      rewrite lookup_ge_None_2 by (rewrite length_app; cbn; lia).
      rewrite IH. now rewrite place_tiles_nil.
    + cbn [fold_left step Tiled.reposition_slot fst snd place_tiles].
      rewrite list_lookup_middle by reflexivity.
      replace (List.length pre) with (List.length pre + 0)%nat at 1 by lia.
      rewrite insert_app_r. cbn [insert list_insert].
      set (t' := mkTile _).
      specialize (IH (pre ++ [t'])%list tiles).
      rewrite <- app_assoc in IH. cbn [app] in IH.
      rewrite length_app in IH. cbn [List.length] in IH.
      replace (List.length pre + 1)%nat with (Datatypes.S (List.length pre)) in IH by lia.
      rewrite IH. rewrite <- app_assoc. reflexivity.
Qed.

Lemma place_tiles_length (slots : list (Z * Z)) :
  forall tiles, List.length (place_tiles centerX centerZ spacing slots tiles) = List.length tiles.
Proof.
  induction slots as [|[i j] slots IH]; intros [|t tiles]; cbn; auto.
Qed.

Lemma place_tiles_idempotent (slots : list (Z * Z)) :
  forall tiles,
    place_tiles centerX centerZ spacing slots (place_tiles centerX centerZ spacing slots tiles)
    = place_tiles centerX centerZ spacing slots tiles.
Proof.
  induction slots as [|[i j] slots IH]; intros [|t tiles]; cbn; auto.
  now rewrite IH.
Qed.

Lemma place_tiles_lookup (slots : list (Z * Z)) :
  forall (tiles : list Tile) (k : nat) (i j : Z) (t : Tile),
    slots !! k = Some (i, j) ->
    tiles !! k = Some t ->
    place_tiles centerX centerZ spacing slots tiles !! k
    = Some (mkTile (Vector3.new (centerX + IZR i * spacing) 0 (centerZ + IZR j * spacing))).
Proof.
  induction slots as [|[i0 j0] slots IH]; intros tiles k i j t Hs Ht.
  - destruct k; discriminate.
  - destruct tiles as [|t0 tiles]; [destruct k; discriminate|].
    destruct k as [|k]; cbn in *.
    + congruence.
    + eapply IH; eauto.
Qed.

(** The two loops of [repositionTerrain] visit the nine offsets in the
    order of [slots3x3]. *)
Lemma reposition_loops (tiles : list Tile) :
  fst (fold_left
         (fun st i =>
            fold_left (fun st j => Tiled.reposition_slot centerX centerZ spacing i j st)
                      (Tiled.range (-1) 1) st)
         (Tiled.range (-1) 1) (tiles, O))
  = place_tiles centerX centerZ spacing slots3x3 tiles.
Proof.
  change (Tiled.range (-1) 1) with [-1; 0; 1]%Z.
  pose proof (fold_reposition_slots slots3x3 [] tiles) as Hf.
  cbn [app List.length] in Hf. rewrite <- Hf. reflexivity.
Qed.
End Recenter.

Section RecenterRun.
Context `{Three}.

(** What one call of [repositionTerrain] does when the robot exists. *)
Lemma repositionTerrain_places (w : Tiled.World) (robot : Tiled.Model) :
  Tiled.model w = Some robot ->
  let spacing := Tiled.tileSize * Tiled.scaleFactor * 0.99 in
  let centerX := IZR (Math_round (Vector3.x (Tiled.position robot) / spacing)) * spacing in
  let centerZ := IZR (Math_round (Vector3.z (Tiled.position robot) / spacing)) * spacing in
  Tiled.repositionTerrain w
  = (Normal tt,
     Tiled.set_terrainTiles
       (place_tiles centerX centerZ spacing slots3x3 (Tiled.terrainTiles w)) w).
Proof.
  intros Hm spacing centerX centerZ.
  unfold Tiled.repositionTerrain, bind, gets, modify. rewrite Hm.
  rewrite reposition_loops. reflexivity.
Qed.

(** C8.  [repositionTerrain] is idempotent: with the robot at a given
    position, a second call in a row leaves every tile where the first
    call put it.  The first call returns, keeps the number of tiles and
    the robot, and puts the tiles, in array order, on the offsets of the
    3x3 window around the cell obtained by rounding position / spacing on
    each axis. *)
Theorem repositionTerrain_idempotent (w : Tiled.World) (robot : Tiled.Model) :
  Tiled.model w = Some robot ->
  let w1 := exec Tiled.repositionTerrain w in
  let spacing := Tiled.tileSize * Tiled.scaleFactor * 0.99 in
  let centerX := IZR (Math_round (Vector3.x (Tiled.position robot) / spacing)) * spacing in
  let centerZ := IZR (Math_round (Vector3.z (Tiled.position robot) / spacing)) * spacing in
  Tiled.repositionTerrain w = (Normal tt, w1) /\
  Tiled.repositionTerrain w1 = (Normal tt, w1) /\
  Tiled.terrainTiles w1 = place_tiles centerX centerZ spacing slots3x3 (Tiled.terrainTiles w) /\
  List.length (Tiled.terrainTiles w1) = List.length (Tiled.terrainTiles w) /\
  Tiled.model w1 = Tiled.model w /\
  (forall (k : nat) (i j : Z),
      slots3x3 !! k = Some (i, j) ->
      (k < List.length (Tiled.terrainTiles w))%nat ->
      Tiled.terrainTiles w1 !! k
      = Some (mkTile (Vector3.new (centerX + IZR i * spacing) 0 (centerZ + IZR j * spacing)))).
Proof.
  intros Hm w1 spacing centerX centerZ.
  pose proof (repositionTerrain_places w robot Hm) as Hrun. cbv zeta in Hrun.
  fold spacing centerX centerZ in Hrun.
  assert (Hw1 : w1 = Tiled.set_terrainTiles
                       (place_tiles centerX centerZ spacing slots3x3 (Tiled.terrainTiles w)) w).
  { unfold w1, exec. rewrite Hrun. reflexivity. }
  split; [rewrite Hrun, Hw1; reflexivity|].
  split.
  { rewrite Hw1.
    rewrite (repositionTerrain_places _ robot) by exact Hm.
    cbn [Tiled.model Tiled.set_terrainTiles Tiled.terrainTiles Tiled.camera Tiled.keys Tiled.ctl].
    fold spacing. fold centerX. fold centerZ.
    rewrite place_tiles_idempotent. reflexivity. }
  split; [rewrite Hw1; reflexivity|].
  split; [rewrite Hw1; apply place_tiles_length|].
  split; [rewrite Hw1; reflexivity|].
  intros k i j Hs Hk. rewrite Hw1. cbn [Tiled.terrainTiles Tiled.set_terrainTiles].
  destruct (lookup_lt_is_Some_2 (Tiled.terrainTiles w) k Hk) as [t Ht].
  eapply place_tiles_lookup; eauto.
Qed.
End RecenterRun.

(** ** Vectors *)

Lemma length_nonneg (v : Vector3.t) : 0 <= Vector3.length v.
Proof. apply sqrt_pos. Qed.

Lemma length_zero : Vector3.length Vector3.zero = 0.
Proof.
  unfold Vector3.length, Vector3.zero; cbn.
  replace (0 * 0 + 0 * 0 + 0 * 0) with 0 by lra. apply sqrt_0.
Qed.

(** The guard of [normalize]: the zero vector stays the zero vector. *)
Lemma normalize_zero : Vector3.normalize Vector3.zero = Vector3.zero.
Proof.
  unfold Vector3.normalize. rewrite length_zero.
  destruct (Req_dec_T 0 0) as [_|Hne]; [|contradiction].
  unfold Vector3.divideScalar, Vector3.multiplyScalar, Vector3.zero; cbn.
  f_equal; lra.
Qed.

Lemma length_sqr (v : Vector3.t) :
  Vector3.length v * Vector3.length v
  = Vector3.x v * Vector3.x v + Vector3.y v * Vector3.y v + Vector3.z v * Vector3.z v.
Proof.
  unfold Vector3.length. apply sqrt_sqrt. nra.
Qed.

Lemma normalize_nonzero (v : Vector3.t) :
  0 < Vector3.length v ->
  Vector3.normalize v = Vector3.divideScalar v (Vector3.length v).
Proof.
  intros Hpos. unfold Vector3.normalize.
  destruct (Req_dec_T (Vector3.length v) 0) as [E|_]; [lra|reflexivity].
Qed.

(** A normalised horizontal vector has unit horizontal length. *)
Lemma normalize_horizontal_unit (v : Vector3.t) :
  Vector3.y v = 0 ->
  0 < Vector3.length v ->
  Vector3.x (Vector3.normalize v) * Vector3.x (Vector3.normalize v)
  + Vector3.z (Vector3.normalize v) * Vector3.z (Vector3.normalize v) = 1.
Proof.
  intros Hy Hpos. rewrite normalize_nonzero by assumption.
  unfold Vector3.divideScalar, Vector3.multiplyScalar; cbn.
  pose proof (length_sqr v) as Hs. rewrite Hy in Hs.
  set (l := Vector3.length v) in *.
  assert (Hl : l <> 0) by lra.
  replace (Vector3.x v * (1 / l) * (Vector3.x v * (1 / l))
           + Vector3.z v * (1 / l) * (Vector3.z v * (1 / l)))
    with ((Vector3.x v * Vector3.x v + 0 * 0 + Vector3.z v * Vector3.z v) / (l * l))
    by (field; exact Hl).
  rewrite <- Hs. field. exact Hl.
Qed.

(** The length of a horizontal step of a unit direction scaled by a
    speed is the speed. *)
Lemma step_magnitude (dx dz speed : R) :
  0 <= speed ->
  dx * dx + dz * dz = 1 ->
  sqrt ((dx * speed) * (dx * speed) + (dz * speed) * (dz * speed)) = speed.
Proof.
  intros Hs Hu.
  replace ((dx * speed) * (dx * speed) + (dz * speed) * (dz * speed))
    with ((dx * dx + dz * dz) * (speed * speed)) by ring.
  rewrite Hu, Rmult_1_l. apply sqrt_square. exact Hs.
Qed.

Lemma moveSpeed_pos : 0 < moveSpeed.
Proof. unfold moveSpeed. lra. Qed.

(** ** Movement in the closed-form variant *)

Module ClosedFormFacts.
Import ClosedForm.

Lemma liftC_eq {A} (c : JS Controller A) (w : World) :
  liftC c w = (fst (c (ctl w)), set_ctl (snd (c (ctl w))) w).
Proof. unfold liftC. destruct (c (ctl w)); reflexivity. Qed.

Lemma moveDirection_y (k : Keys.t) : Vector3.y (moveDirection_of k) = 0.
Proof. destruct k as [[] [] [] [] ?]; reflexivity. Qed.

(** Opposite keys cancel: no net direction gives a vector of length 0. *)
Lemma moveDirection_cancel (k : Keys.t) :
  Keys.w k = Keys.s k -> Keys.a k = Keys.d k ->
  Vector3.length (moveDirection_of k) = 0.
Proof.
  destruct k as [w a s d sh]; cbn. intros -> ->.
  unfold Vector3.length.
  destruct s, d; cbn;
    match goal with |- sqrt ?e = 0 => replace e with 0 by lra end; apply sqrt_0.
Qed.

Lemma moveDirection_forward (b : bool) :
  Vector3.length (moveDirection_of (Keys.new true false false false b)) = 1 /\
  Vector3.normalize (moveDirection_of (Keys.new true false false false b))
  = Vector3.new 0 0 (-1).
Proof.
  assert (Hl : Vector3.length (moveDirection_of (Keys.new true false false false b)) = 1).
  { unfold Vector3.length; cbn.
    replace (0 * 0 + 0 * 0 + (0 - 1) * (0 - 1)) with 1 by lra. apply sqrt_1. }
  split; [exact Hl|].
  rewrite normalize_nonzero by lra. rewrite Hl.
  unfold Vector3.divideScalar, Vector3.multiplyScalar; cbn. f_equal; lra.
Qed.

(** A tick without net direction is the idle branch. *)
Lemma tick_idle (w : World) (robot : Model) :
  model w = Some robot ->
  Vector3.length (moveDirection_of (keys w)) = 0 ->
  updateRobotMovement w = liftC idleState w.
Proof.
  intros Hm Hl. unfold updateRobotMovement, bind, gets. rewrite Hm, Hl.
  destruct (Rlt_dec 0 0) as [Hlt|_]; [lra|reflexivity].
Qed.

Lemma tick_unloaded (w : World) :
  model w = None -> updateRobotMovement w = (Normal tt, w).
Proof. intros Hm. unfold updateRobotMovement, bind, gets, ret. now rewrite Hm. Qed.

(** A tick with a net direction moves the robot to [newPos_of] and
    then sets the locomotion state. *)
Lemma tick_moving (w : World) (robot : Model) :
  model w = Some robot ->
  0 < Vector3.length (moveDirection_of (keys w)) ->
  updateRobotMovement w
  = liftC (movingState (Keys.shift (keys w)))
          (set_model (Some (mkModel (newPos_of (keys w) (position robot))
                                    (targetRotation_of (keys w)))) w).
Proof.
  intros Hm Hl. unfold updateRobotMovement, bind, gets. rewrite Hm.
  destruct (Rlt_dec 0 (Vector3.length (moveDirection_of (keys w)))) as [_|Hn]; [|contradiction].
  reflexivity.
Qed.

Lemma newPos_displacement (k : Keys.t) (p : Vector3.t) :
  let speed := if Keys.shift k then moveSpeed * 2 else moveSpeed in
  Vector3.x (newPos_of k p) - Vector3.x p
  = Vector3.x (Vector3.normalize (moveDirection_of k)) * speed /\
  Vector3.z (newPos_of k p) - Vector3.z p
  = Vector3.z (Vector3.normalize (moveDirection_of k)) * speed.
Proof. unfold newPos_of; cbn. split; ring. Qed.

Lemma newPos_forward (b : bool) (p : Vector3.t) :
  Vector3.x (newPos_of (Keys.new true false false false b) p) = Vector3.x p /\
  Vector3.z (newPos_of (Keys.new true false false false b) p)
  = Vector3.z p - (if b then moveSpeed * 2 else moveSpeed).
Proof.
  unfold newPos_of. destruct (moveDirection_forward b) as [_ Hn]. rewrite Hn.
  cbn. split; ring.
Qed.

(** The state after one moving tick, whether or not the transition of
    the animation throws. *)
Lemma tick_moving_state (w : World) (robot : Model) :
  model w = Some robot ->
  0 < Vector3.length (moveDirection_of (keys w)) ->
  let w' := exec updateRobotMovement w in
  model w' = Some (mkModel (newPos_of (keys w) (position robot)) (targetRotation_of (keys w))) /\
  keys w' = keys w /\
  currentMovement (ctl w') = (if Keys.shift (keys w) then "Running" else "Walking").
Proof.
  intros Hm Hl. unfold exec. rewrite (tick_moving w robot Hm Hl), liftC_eq. cbn.
  split; [reflexivity|]. split; [reflexivity|]. apply movingState_currentMovement.
Qed.

(** [n] moving ticks with the same keys held, on a ready controller:
    every tick returns and the position is the [n]-fold step. *)
Lemma ticks_moving (n : nat) :
  forall (w : World) (robot : Model),
    model w = Some robot ->
    ready (ctl w) ->
    0 < Vector3.length (moveDirection_of (keys w)) ->
    let r := repeat_js n updateRobotMovement w in
    fst r = Normal tt /\
    keys (snd r) = keys w /\
    ready (ctl (snd r)) /\
    (exists rot, model (snd r)
                 = Some (mkModel (Nat.iter n (newPos_of (keys w)) (position robot)) rot)) /\
    ((0 < n)%nat ->
     currentMovement (ctl (snd r)) = (if Keys.shift (keys w) then "Running" else "Walking")) /\
    ((0 < n)%nat -> model (snd r)
       = Some (mkModel (Nat.iter n (newPos_of (keys w)) (position robot))
                       (targetRotation_of (keys w)))).
Proof.
  induction n as [|n IH]; intros w robot Hm Hr Hl.
  - cbn. repeat split; auto; try lia. exists (rotation_y robot). rewrite Hm. now destruct robot.
  - cbn [repeat_js]. unfold bind.
    rewrite (tick_moving w robot Hm Hl), liftC_eq.
    destruct (movingState_ready (Keys.shift (keys w)) (ctl w) Hr) as [Hret Hready].
    cbn [set_model ctl model keys] in *. rewrite Hret.
    set (w1 := set_ctl _ _).
    assert (Hm1 : model w1 = Some (mkModel (newPos_of (keys w) (position robot))
                                           (targetRotation_of (keys w)))) by reflexivity.
    assert (Hk1 : keys w1 = keys w) by reflexivity.
    assert (Hr1 : ready (ctl w1)) by exact Hready.
    assert (Hl1 : 0 < Vector3.length (moveDirection_of (keys w1))) by (rewrite Hk1; exact Hl).
    destruct (IH w1 _ Hm1 Hr1 Hl1) as (H1 & H2 & H3 & [rot H4] & H5 & H6).
    rewrite Hk1 in *. cbn [position] in *.
    assert (Hiter : forall p, Nat.iter n (newPos_of (keys w)) (newPos_of (keys w) p)
                              = Nat.iter (Datatypes.S n) (newPos_of (keys w)) p).
    { intros p. symmetry. apply Nat.iter_succ_r. }
    rewrite Hiter in H4, H6.
    split; [exact H1|]. split; [exact H2|]. split; [exact H3|].
    split; [exists rot; exact H4|].
    destruct n as [|n'].
    + cbn [repeat_js] in *. unfold ret in *. cbn [snd] in *.
      split; intros _; [|exact Hm1].
      subst w1. cbn [ctl set_ctl]. apply movingState_currentMovement.
    + split; intros _; [apply H5; lia|apply H6; lia].
Qed.

Lemma iter_forward (b : bool) (n : nat) (p : Vector3.t) :
  Vector3.x (Nat.iter n (newPos_of (Keys.new true false false false b)) p) = Vector3.x p /\
  Vector3.z (Nat.iter n (newPos_of (Keys.new true false false false b)) p)
  = Vector3.z p - INR n * (if b then moveSpeed * 2 else moveSpeed).
Proof.
  induction n as [|n [IHx IHz]].
  - cbn. split; [reflexivity|lra].
  - cbn [Nat.iter nat_rect].
    destruct (newPos_forward b (Nat.iter n (newPos_of (Keys.new true false false false b)) p))
      as [Hx Hz].
    unfold Nat.iter in *. rewrite Hx, Hz, IHx, IHz. split; [reflexivity|].
    rewrite S_INR. ring.
Qed.
End ClosedFormFacts.

(** ** Ray casts and movement in the tiled variant *)

Lemma insert_by_distance_In (h x : Intersection) (l : list Intersection) :
  In x (insert_by_distance h l) <-> x = h \/ In x l.
Proof.
  induction l as [|h' l IH]; cbn.
  - intuition.
  - destruct (Rle_dec (distance h) (distance h')); cbn; [intuition|].
    rewrite IH. intuition.
Qed.

Lemma sort_by_distance_In (x : Intersection) (l : list Intersection) :
  In x (sort_by_distance l) <-> In x l.
Proof.
  induction l as [|h l IH]; cbn; [reflexivity|].
  rewrite insert_by_distance_In, IH. intuition.
Qed.

(** After the sort the first element is a closest hit. *)
Lemma sort_by_distance_head (l : list Intersection) :
  l <> [] ->
  exists first rest,
    sort_by_distance l = first :: rest /\
    In first l /\
    forall h, In h l -> distance first <= distance h.
Proof.
  induction l as [|h l IH]; [congruence|]. intros _.
  destruct l as [|h1 l1].
  - exists h, []. cbn. repeat split; auto. intros h' [<-|[]]. lra.
  - destruct IH as (f & r & Hs & Hin & Hmin); [congruence|].
    cbn [sort_by_distance] in *. rewrite Hs. cbn [insert_by_distance].
    destruct (Rle_dec (distance h) (distance f)) as [Hle|Hgt].
    + exists h, (f :: r). repeat split; [now left|].
      intros h' [<-|Hin']; [lra|]. specialize (Hmin h' Hin'). lra.
    + exists f, (insert_by_distance h r). repeat split; [now right|].
      intros h' [<-|Hin']; [lra|]. now apply Hmin.
Qed.

Section TiledFacts.
Context `{Three}.

Lemma tiled_liftC_eq {A} (c : JS Controller A) (w : Tiled.World) :
  Tiled.liftC c w = (fst (c (Tiled.ctl w)), Tiled.set_ctl (snd (c (Tiled.ctl w))) w).
Proof. unfold Tiled.liftC. destruct (c (Tiled.ctl w)); reflexivity. Qed.

(** The loop over the tiles tests every tile and keeps every hit. *)
Lemma collect_hits_all (tiles : list Tile) (origin : Vector3.t) :
  Tiled.collect_hits tiles origin = all_hits tiles origin.
Proof.
  unfold Tiled.collect_hits, all_hits.
  enough (Hgen : forall acc,
             fold_left
               (fun (intersections : list Intersection) tile =>
                  let hits := intersectObject tile origin Tiled.down in
                  if (0 <? List.length hits)%nat then (intersections ++ hits)%list
                  else intersections) tiles acc
             = (acc ++ flat_map (fun tile => intersectObject tile origin Tiled.down) tiles)%list)
    by apply (Hgen []).
  induction tiles as [|t tiles IH]; intros acc; cbn [fold_left flat_map].
  - now rewrite app_nil_r.
  - rewrite IH. destruct (intersectObject t origin Tiled.down) as [|h hits]; cbn.
    + reflexivity.
    + now rewrite <- app_assoc.
Qed.

(** The height of the movement query: 0 when the ray meets no tile,
    otherwise the height of a hit of minimal distance among all hits of
    all tiles. *)
Lemma groundHeight_miss (tiles : list Tile) (newPos : Vector3.t) :
  all_hits tiles (Vector3.new (Vector3.x newPos) 20 (Vector3.z newPos)) = [] ->
  Tiled.groundHeight tiles newPos = 0.
Proof.
  intros Hno. unfold Tiled.groundHeight. rewrite collect_hits_all, Hno. reflexivity.
Qed.

Lemma groundHeight_closest (tiles : list Tile) (newPos : Vector3.t) :
  let origin := Vector3.new (Vector3.x newPos) 20 (Vector3.z newPos) in
  all_hits tiles origin <> [] ->
  exists first,
    In first (all_hits tiles origin) /\
    (forall h, In h (all_hits tiles origin) -> distance first <= distance h) /\
    Tiled.groundHeight tiles newPos = Vector3.y (point first).
Proof.
  intros origin Hne. unfold Tiled.groundHeight. fold origin. rewrite collect_hits_all.
  destruct (sort_by_distance_head _ Hne) as (f & r & Hs & Hin & Hmin).
  exists f. repeat split; auto.
  rewrite Hs. destruct (all_hits tiles origin); [congruence|reflexivity].
Qed.

(** The camera basis is horizontal, and so is the movement vector. *)
Lemma forward_y (cam : Camera) : Vector3.y (Tiled.forward_of cam) = 0.
Proof.
  unfold Tiled.forward_of, Vector3.normalize, Vector3.divideScalar, Vector3.multiplyScalar.
  cbn. ring.
Qed.

Lemma right_y (f : Vector3.t) : Vector3.y (Tiled.right_of f) = 0.
Proof.
  unfold Tiled.right_of, Vector3.normalize, Vector3.divideScalar, Vector3.multiplyScalar.
  cbn. ring.
Qed.

Lemma direction_y (k : Keys.t) (f r : Vector3.t) :
  Vector3.y f = 0 -> Vector3.y r = 0 -> Vector3.y (Tiled.direction_of k f r) = 0.
Proof.
  intros Hf Hr. destruct k as [[] [] [] [] ?]; cbn; rewrite ?Hf, ?Hr; ring.
Qed.

Lemma camera_direction_y (k : Keys.t) (cam : Camera) :
  Vector3.y (camera_direction k cam) = 0.
Proof. apply direction_y; [apply forward_y|apply right_y]. Qed.

(** Opposite keys cancel, whatever the camera basis. *)
Lemma direction_cancel (k : Keys.t) (f r : Vector3.t) :
  Keys.w k = Keys.s k -> Keys.a k = Keys.d k ->
  Vector3.length (Tiled.direction_of k f r) = 0.
Proof.
  destruct k as [w a s d sh]; cbn. intros -> ->.
  unfold Vector3.length.
  destruct s, d; cbn;
    match goal with |- sqrt ?e = 0 => replace e with 0 by ring end; apply sqrt_0.
Qed.

Lemma tiled_tick_unloaded (w : Tiled.World) :
  Tiled.model w = None \/ Tiled.terrainTiles w = [] ->
  Tiled.updateRobotMovement w = (Normal tt, w).
Proof.
  intros Hg. unfold Tiled.updateRobotMovement, bind, gets, ret.
  destruct (Tiled.model w); [|reflexivity].
  destruct Hg as [Hg|Hg]; [discriminate|]. now rewrite Hg.
Qed.

Lemma tiled_tick_idle (w : Tiled.World) (robot : Tiled.Model) :
  Tiled.model w = Some robot ->
  Tiled.terrainTiles w <> [] ->
  Vector3.length (camera_direction (Tiled.keys w) (Tiled.camera w)) = 0 ->
  Tiled.updateRobotMovement w = Tiled.liftC idleState w.
Proof.
  intros Hm Ht Hl. unfold Tiled.updateRobotMovement, bind, gets. rewrite Hm.
  destruct (Tiled.terrainTiles w) as [|t ts]; [congruence|]. cbn [List.length Nat.eqb].
  unfold camera_direction in Hl. rewrite Hl.
  destruct (Rlt_dec 0 0) as [Hlt|_]; [lra|reflexivity].
Qed.

Lemma tiled_tick_moving (w : Tiled.World) (robot : Tiled.Model) :
  Tiled.model w = Some robot ->
  Tiled.terrainTiles w <> [] ->
  0 < Vector3.length (camera_direction (Tiled.keys w) (Tiled.camera w)) ->
  Tiled.updateRobotMovement w
  = (Tiled.liftC (movingState (Keys.shift (Tiled.keys w))) ;; Tiled.repositionTerrain)
      (Tiled.set_model
         (Some (Tiled.mkModel
                  (tiled_newPos (Tiled.keys w) (Tiled.camera w) (Tiled.terrainTiles w)
                                (Tiled.position robot))
                  (tiled_quaternion (Tiled.keys w) (Tiled.camera w) (Tiled.quaternion robot))))
         w).
Proof.
  intros Hm Ht Hl. unfold Tiled.updateRobotMovement, bind at 1 2 3 4, gets. rewrite Hm.
  destruct (Tiled.terrainTiles w) as [|t ts] eqn:Etiles; [congruence|]. cbn [List.length Nat.eqb].
  unfold camera_direction in Hl.
  destruct (Rlt_dec 0 _) as [_|Hn]; [|contradiction].
  reflexivity.
Qed.

Lemma tiled_newPos_displacement (k : Keys.t) (cam : Camera) (tiles : list Tile) (p : Vector3.t) :
  let speed := if Keys.shift k then moveSpeed * 2 else moveSpeed in
  Vector3.x (tiled_newPos k cam tiles p) - Vector3.x p
  = Vector3.x (Vector3.normalize (camera_direction k cam)) * speed /\
  Vector3.z (tiled_newPos k cam tiles p) - Vector3.z p
  = Vector3.z (Vector3.normalize (camera_direction k cam)) * speed.
Proof. unfold tiled_newPos; cbn. split; ring. Qed.

(** The state after one moving tick, whether or not the transition of
    the animation throws. *)
Lemma tiled_tick_moving_state (w : Tiled.World) (robot : Tiled.Model) :
  Tiled.model w = Some robot ->
  Tiled.terrainTiles w <> [] ->
  0 < Vector3.length (camera_direction (Tiled.keys w) (Tiled.camera w)) ->
  let w' := exec Tiled.updateRobotMovement w in
  Tiled.model w'
  = Some (Tiled.mkModel
            (tiled_newPos (Tiled.keys w) (Tiled.camera w) (Tiled.terrainTiles w)
                          (Tiled.position robot))
            (tiled_quaternion (Tiled.keys w) (Tiled.camera w) (Tiled.quaternion robot))) /\
  Tiled.keys w' = Tiled.keys w /\
  Tiled.camera w' = Tiled.camera w /\
  currentMovement (Tiled.ctl w') = (if Keys.shift (Tiled.keys w) then "Running" else "Walking").
Proof.
  intros Hm Ht Hl. unfold exec. rewrite (tiled_tick_moving w robot Hm Ht Hl).
  unfold bind. rewrite tiled_liftC_eq.
  cbn [Tiled.ctl Tiled.set_model Tiled.keys Tiled.camera Tiled.model Tiled.terrainTiles].
  pose proof (movingState_currentMovement (Keys.shift (Tiled.keys w)) (Tiled.ctl w)) as Hcm.
  destruct (movingState (Keys.shift (Tiled.keys w)) (Tiled.ctl w)) as [[[]|e] c']; cbn in *.
  - unfold Tiled.repositionTerrain, bind, gets, modify. cbn. auto.
  - auto.
Qed.
End TiledFacts.

(** ** The concrete scenes are what the program builds *)

Lemma createGUI_standard :
  createGUI standard_clips (Some []) initialController = (Normal tt, loaded_controller).
Proof. vm_compute. reflexivity. Qed.

Lemma standard_lookup :
  standard_actions !! "Idle" = Some idleAction /\
  standard_actions !! "Walking" = Some walkingAction /\
  standard_actions !! "Running" = Some runningAction /\
  standard_actions !! "Jump" = Some jumpAction.
Proof. repeat split; vm_compute; reflexivity. Qed.

Lemma loaded_controller_ready : ready loaded_controller.
Proof.
  exists standard_actions. destruct standard_lookup as (Hi & Hw & Hr & _).
  repeat split; cbn; eauto.
Qed.

Lemma cf_loaded_built :
  ClosedForm.handle
    (ClosedForm.ModelLoaded (ClosedForm.mkModel (Vector3.new 0 0 0) 0) standard_clips (Some []))
    ClosedForm.initialWorld
  = (Normal tt, cf_loaded).
Proof.
  unfold ClosedForm.handle, bind, modify. rewrite ClosedFormFacts.liftC_eq.
  cbn [ClosedForm.ctl ClosedForm.set_model ClosedForm.initialWorld].
  rewrite createGUI_standard. reflexivity.
Qed.

Lemma tiled_loaded_built (surfaces : R -> R -> list R) :
  (@Tiled.handle (heightfield surfaces) Tiled.TerrainLoaded ;;
   @Tiled.handle (heightfield surfaces)
      (Tiled.ModelLoaded (@Tiled.mkModel (heightfield surfaces) (Vector3.new 0 0 0) tt)
                         standard_clips (Some [])))
    (@Tiled.initialWorld (heightfield surfaces) camera_north)
  = (Normal tt, tiled_loaded surfaces).
Proof.
  unfold bind at 1.
  assert (Hgrid : @Tiled.handle (heightfield surfaces) Tiled.TerrainLoaded
                    (@Tiled.initialWorld (heightfield surfaces) camera_north)
                  = (Normal tt,
                     Tiled.set_terrainTiles grid_tiles
                       (@Tiled.initialWorld (heightfield surfaces) camera_north))).
  { unfold Tiled.handle, Tiled.createTerrainGrid.
    change (Tiled.tileRepeat / 2)%Z with 1%Z.
    change (Tiled.range (- (1)) 1) with [-1; 0; 1]%Z.
    reflexivity. }
  rewrite Hgrid.
  unfold Tiled.handle, bind, modify. rewrite tiled_liftC_eq.
  cbn [Tiled.ctl Tiled.set_model Tiled.set_terrainTiles Tiled.initialWorld Tiled.model
       Tiled.terrainTiles Tiled.camera Tiled.keys].
  rewrite createGUI_standard. reflexivity.
Qed.

(** ** Opposing keys *)

(** C3.  A tick with forward and back both held and no other direction
    ends exactly as a tick with no direction held: the same completion,
    the same robot (position and orientation as before the tick) and the
    same controller, with the locomotion state Idle once the tick is live
    (robot loaded, and tiles present in the tiled variant).  The summed
    direction has length 0, the guarded normalisation of such a vector is
    the zero vector, and on a ready controller the tick returns. *)
Theorem opposing_keys_cancel :
  (forall (w : ClosedForm.World) (b b' : bool),
      let held := ClosedForm.set_keys (Keys.new true false true false b) w in
      let free := ClosedForm.set_keys (Keys.new false false false false b') w in
      let r1 := ClosedForm.updateRobotMovement held in
      let r0 := ClosedForm.updateRobotMovement free in
      fst r1 = fst r0 /\
      ClosedForm.model (snd r1) = ClosedForm.model (snd r0) /\
      ClosedForm.ctl (snd r1) = ClosedForm.ctl (snd r0) /\
      ClosedForm.model (snd r1) = ClosedForm.model w /\
      (ClosedForm.model w <> None -> currentMovement (ClosedForm.ctl (snd r1)) = "Idle") /\
      (ready (ClosedForm.ctl w) -> fst r1 = Normal tt) /\
      Vector3.length (ClosedForm.moveDirection_of (Keys.new true false true false b)) = 0 /\
      Vector3.normalize (ClosedForm.moveDirection_of (Keys.new true false true false b))
      = Vector3.zero) /\
  (forall (T : Three) (w : Tiled.World) (b b' : bool),
      let held := Tiled.set_keys (Keys.new true false true false b) w in
      let free := Tiled.set_keys (Keys.new false false false false b') w in
      let r1 := Tiled.updateRobotMovement held in
      let r0 := Tiled.updateRobotMovement free in
      fst r1 = fst r0 /\
      Tiled.model (snd r1) = Tiled.model (snd r0) /\
      Tiled.ctl (snd r1) = Tiled.ctl (snd r0) /\
      Tiled.terrainTiles (snd r1) = Tiled.terrainTiles (snd r0) /\
      Tiled.camera (snd r1) = Tiled.camera (snd r0) /\
      Tiled.model (snd r1) = Tiled.model w /\
      (Tiled.model w <> None -> Tiled.terrainTiles w <> [] ->
       currentMovement (Tiled.ctl (snd r1)) = "Idle") /\
      (ready (Tiled.ctl w) -> fst r1 = Normal tt) /\
      Vector3.length (camera_direction (Keys.new true false true false b) (Tiled.camera w)) = 0 /\
      Vector3.normalize (camera_direction (Keys.new true false true false b) (Tiled.camera w))
      = Vector3.zero).
Proof.
  split.
  - intros w b b' held free r1 r0.
    assert (Hlen : forall b0, Vector3.length
                           (ClosedForm.moveDirection_of (Keys.new true false true false b0)) = 0)
      by (intros; now apply ClosedFormFacts.moveDirection_cancel).
    assert (Hlen0 : Vector3.length
                      (ClosedForm.moveDirection_of (Keys.new false false false false b')) = 0)
      by now apply ClosedFormFacts.moveDirection_cancel.
    assert (Hnorm : Vector3.normalize
                      (ClosedForm.moveDirection_of (Keys.new true false true false b))
                    = Vector3.zero).
    { unfold Vector3.normalize. rewrite Hlen.
      destruct (Req_dec_T 0 0) as [_|Hne]; [|contradiction].
      unfold Vector3.divideScalar, Vector3.multiplyScalar, Vector3.zero; cbn. f_equal; lra. }
    destruct (ClosedForm.model w) as [robot|] eqn:Hm.
    + assert (H1 : r1 = ClosedForm.liftC idleState held)
        by (apply (ClosedFormFacts.tick_idle held robot); [exact Hm|apply Hlen]).
      assert (H0 : r0 = ClosedForm.liftC idleState free)
        by (apply (ClosedFormFacts.tick_idle free robot); [exact Hm|apply Hlen0]).
      rewrite H1, H0, !ClosedFormFacts.liftC_eq.
      cbn [fst snd ClosedForm.model ClosedForm.ctl ClosedForm.set_ctl ClosedForm.set_keys held free].
      repeat split; auto.
      * intros _. apply idleState_currentMovement.
      * intros Hr. now apply idleState_ready.
    + assert (H1 : r1 = (Normal tt, held)) by now apply ClosedFormFacts.tick_unloaded.
      assert (H0 : r0 = (Normal tt, free)) by now apply ClosedFormFacts.tick_unloaded.
      rewrite H1, H0.
      cbn [fst snd ClosedForm.model ClosedForm.ctl ClosedForm.set_keys held free].
      repeat split; auto; congruence.
  - intros T w b b' held free r1 r0.
    assert (Hlen : forall k, Keys.w k = Keys.s k -> Keys.a k = Keys.d k ->
                             Vector3.length (camera_direction k (Tiled.camera w)) = 0)
      by (intros; now apply direction_cancel).
    assert (Hnorm : Vector3.normalize
                      (camera_direction (Keys.new true false true false b) (Tiled.camera w))
                    = Vector3.zero).
    { unfold Vector3.normalize. rewrite Hlen by reflexivity.
      destruct (Req_dec_T 0 0) as [_|Hne]; [|contradiction].
      unfold Vector3.divideScalar, Vector3.multiplyScalar, Vector3.zero; cbn. f_equal; ring. }
    destruct (Tiled.model w) as [robot|] eqn:Hm;
      [destruct (Tiled.terrainTiles w) as [|t ts] eqn:Ht|].
    + assert (H1 : r1 = (Normal tt, held)) by (apply tiled_tick_unloaded; now right).
      assert (H0 : r0 = (Normal tt, free)) by (apply tiled_tick_unloaded; now right).
      rewrite H1, H0.
      cbn [fst snd Tiled.model Tiled.ctl Tiled.set_keys Tiled.terrainTiles Tiled.camera held free].
      repeat split; auto; congruence.
    + assert (H1 : r1 = Tiled.liftC idleState held).
      { apply (tiled_tick_idle held robot); [exact Hm|cbn; congruence|now apply Hlen]. }
      assert (H0 : r0 = Tiled.liftC idleState free).
      { apply (tiled_tick_idle free robot); [exact Hm|cbn; congruence|now apply Hlen]. }
      rewrite H1, H0, !tiled_liftC_eq.
      cbn [fst snd Tiled.model Tiled.ctl Tiled.set_ctl Tiled.set_keys Tiled.terrainTiles
           Tiled.camera held free].
      rewrite Hm. repeat split; auto.
      * intros _ _. apply idleState_currentMovement.
      * intros Hr. now apply idleState_ready.
    + assert (H1 : r1 = (Normal tt, held)) by (apply tiled_tick_unloaded; now left).
      assert (H0 : r0 = (Normal tt, free)) by (apply tiled_tick_unloaded; now left).
      rewrite H1, H0.
      cbn [fst snd Tiled.model Tiled.ctl Tiled.set_keys Tiled.terrainTiles Tiled.camera held free].
      repeat split; auto; congruence.
Qed.

(** ** A moving tick of the tiled variant on a ready controller *)

Section TiledTicks.
Context `{Three}.

(** A moving tick on a ready controller returns; camera and keys stay,
    the window keeps its tiles. *)
Lemma tiled_tick_moving_ready (w : Tiled.World) (robot : Tiled.Model) :
  Tiled.model w = Some robot ->
  Tiled.terrainTiles w <> [] ->
  0 < Vector3.length (camera_direction (Tiled.keys w) (Tiled.camera w)) ->
  ready (Tiled.ctl w) ->
  let r := Tiled.updateRobotMovement w in
  fst r = Normal tt /\
  Tiled.model (snd r)
  = Some (Tiled.mkModel
            (tiled_newPos (Tiled.keys w) (Tiled.camera w) (Tiled.terrainTiles w)
                          (Tiled.position robot))
            (tiled_quaternion (Tiled.keys w) (Tiled.camera w) (Tiled.quaternion robot))) /\
  Tiled.keys (snd r) = Tiled.keys w /\
  Tiled.camera (snd r) = Tiled.camera w /\
  Tiled.terrainTiles (snd r) <> [] /\
  ready (Tiled.ctl (snd r)) /\
  currentMovement (Tiled.ctl (snd r))
  = (if Keys.shift (Tiled.keys w) then "Running" else "Walking").
Proof.
  intros Hm Ht Hl Hr r. unfold r. rewrite (tiled_tick_moving w robot Hm Ht Hl).
  unfold bind. rewrite tiled_liftC_eq.
  cbn [Tiled.ctl Tiled.set_model].
  destruct (movingState_ready (Keys.shift (Tiled.keys w)) (Tiled.ctl w) Hr) as [Hret Hready].
  pose proof (movingState_currentMovement (Keys.shift (Tiled.keys w)) (Tiled.ctl w)) as Hcm.
  rewrite Hret.
  set (w1 := Tiled.set_ctl _ _).
  set (robot1 := Tiled.mkModel _ _) in *.
  assert (Hm1 : Tiled.model w1 = Some robot1) by reflexivity.
  rewrite (repositionTerrain_places w1 robot1 Hm1).
  cbn [fst snd Tiled.model Tiled.set_terrainTiles Tiled.keys Tiled.camera Tiled.ctl
       Tiled.terrainTiles w1 Tiled.set_ctl Tiled.set_model].
  repeat split; auto.
  intros Hnil. apply (f_equal (@List.length Tile)) in Hnil.
  rewrite place_tiles_length in Hnil. destruct (Tiled.terrainTiles w); [congruence|discriminate].
Qed.

End TiledTicks.

(** ** Speed, sprint and the locomotion state *)

Lemma speed_nonneg (b : bool) : 0 <= (if b then moveSpeed * 2 else moveSpeed).
Proof. pose proof moveSpeed_pos. destruct b; lra. Qed.

(** ** One second of walking forward (closed-form variant) *)

Lemma newPos_height (k : Keys.t) (p : Vector3.t) :
  Vector3.y (newPos_of k p)
  = heightAt_reference 0.1 0.2 5 (Vector3.x (newPos_of k p)) (Vector3.z (newPos_of k p)).
Proof.
  unfold newPos_of, heightAt_reference, ClosedForm.TERRAIN_HEIGHT. cbn.
  match goal with
  | |- _ + sin (?a * 0.2 + ?b * 0.2) * _ * _ = _ =>
      replace (a * 0.2 + b * 0.2) with ((a + b) * 0.2) by ring
  end.
  lra.
Qed.

(** A frame in which the mixer reports no finished action is the
    movement tick. *)
Lemma cf_animate_quiet (dt : R) (w : ClosedForm.World) :
  ClosedForm.animate dt [] w = ClosedForm.updateRobotMovement w.
Proof.
  unfold ClosedForm.animate, bind, gets.
  destruct (mixer (ClosedForm.ctl w)); [|reflexivity].
  rewrite ClosedFormFacts.liftC_eq. cbn. destruct w; reflexivity.
Qed.

Lemma cf_frames_quiet (dt : R) (n : nat) (w : ClosedForm.World) :
  repeat_js n (ClosedForm.animate dt []) w = repeat_js n ClosedForm.updateRobotMovement w.
Proof.
  revert w. induction n as [|n IH]; intros w; [reflexivity|].
  cbn [repeat_js]. unfold bind. rewrite cf_animate_quiet.
  destruct (ClosedForm.updateRobotMovement w) as [[[]|e] w']; [apply IH|reflexivity].
Qed.

(** C6.  World-axis variant: the robot at x = 0, z = 0 with only forward
    held, 60 frames at dt = 1/60 on a ready controller.  Every frame
    returns; at the end x = 0, z = -(60 * moveSpeed) = -6 (the step does
    not depend on dt), the height is the terrain's at that point, and the
    locomotion state is Walking. *)
Theorem forward_for_one_second (w : ClosedForm.World) (robot : ClosedForm.Model) :
  ClosedForm.model w = Some robot ->
  ready (ClosedForm.ctl w) ->
  ClosedForm.keys w = Keys.new true false false false false ->
  Vector3.x (ClosedForm.position robot) = 0 ->
  Vector3.z (ClosedForm.position robot) = 0 ->
  let r := repeat_js 60 (ClosedForm.animate (1 / 60) []) w in
  fst r = Normal tt /\
  exists robot',
    ClosedForm.model (snd r) = Some robot' /\
    Vector3.x (ClosedForm.position robot') = 0 /\
    Vector3.z (ClosedForm.position robot') = - (60 * moveSpeed) /\
    Vector3.z (ClosedForm.position robot') = -6 /\
    Vector3.y (ClosedForm.position robot') = heightAt_reference 0.1 0.2 5 0 (-6) /\
    currentMovement (ClosedForm.ctl (snd r)) = "Walking".
Proof.
  intros Hm Hr Hk Hx Hz r. unfold r. rewrite cf_frames_quiet.
  assert (Hl : 0 < Vector3.length (ClosedForm.moveDirection_of (ClosedForm.keys w))).
  { rewrite Hk. destruct (ClosedFormFacts.moveDirection_forward false) as [-> _]. lra. }
  destruct (ClosedFormFacts.ticks_moving 60 w robot Hm Hr Hl) as (H1 & _ & _ & _ & Hcm & Hmod).
  specialize (Hcm ltac:(lia)). specialize (Hmod ltac:(lia)).
  rewrite Hk in Hcm, Hmod. cbn [Keys.shift] in Hcm.
  split; [exact H1|]. eexists. split; [exact Hmod|]. cbn [ClosedForm.position].
  destruct (ClosedFormFacts.iter_forward false 60 (ClosedForm.position robot)) as [Hix Hiz].
  rewrite Hx in Hix. rewrite Hz in Hiz.
  assert (Hz60 : Vector3.z (Nat.iter 60 (newPos_of (Keys.new true false false false false))
                                     (ClosedForm.position robot)) = -6).
  { rewrite Hiz. change (INR 60) with (INR (59 + 1)). rewrite plus_INR. cbn [INR].
    unfold moveSpeed. lra. }
  split; [exact Hix|]. split; [rewrite Hz60; unfold moveSpeed; lra|]. split; [exact Hz60|].
  split; [|exact Hcm].
  set (final := Nat.iter 60 (newPos_of (Keys.new true false false false false))
                        (ClosedForm.position robot)) in *.
  replace (heightAt_reference 0.1 0.2 5 0 (-6))
    with (heightAt_reference 0.1 0.2 5 (Vector3.x final) (Vector3.z final))
    by (rewrite Hix, Hz60; reflexivity).
  unfold final. change 60%nat with (Datatypes.S 59). cbn [Nat.iter nat_rect].
  apply newPos_height.
Qed.

(** ** Terrain queries of the tiled variant *)

(** C7.  When the downward ray meets no tile the height given to the
    robot is 0: the movement query computes 0 and the tick stores it in
    the robot's position (and returns on a ready controller); the spawn
    timer puts the robot at (0, 0, 0) and returns. *)
Theorem ray_miss_gives_zero (T : Three) :
  (forall (tiles : list Tile) (newPos : Vector3.t),
      all_hits tiles (Vector3.new (Vector3.x newPos) 20 (Vector3.z newPos)) = [] ->
      Tiled.groundHeight tiles newPos = 0) /\
  (forall (w : Tiled.World) (robot : Tiled.Model),
      Tiled.model w = Some robot ->
      Tiled.terrainTiles w <> [] ->
      0 < Vector3.length (camera_direction (Tiled.keys w) (Tiled.camera w)) ->
      let speed := if Keys.shift (Tiled.keys w) then moveSpeed * 2 else moveSpeed in
      let direction := Vector3.normalize (camera_direction (Tiled.keys w) (Tiled.camera w)) in
      let target := Vector3.add (Tiled.position robot) (Vector3.multiplyScalar direction speed) in
      all_hits (Tiled.terrainTiles w) (Vector3.new (Vector3.x target) 20 (Vector3.z target)) = [] ->
      (exists robot',
          Tiled.model (exec Tiled.updateRobotMovement w) = Some robot' /\
          Tiled.position robot' = Vector3.new (Vector3.x target) 0 (Vector3.z target)) /\
      (ready (Tiled.ctl w) -> fst (Tiled.updateRobotMovement w) = Normal tt)) /\
  (forall (w : Tiled.World) (robot : Tiled.Model),
      Tiled.model w = Some robot ->
      all_hits (Tiled.terrainTiles w) (Vector3.new 0 20 0) = [] ->
      Tiled.spawn w
      = (Normal tt,
         Tiled.set_model (Some (Tiled.mkModel (Vector3.new 0 0 0) (Tiled.quaternion robot))) w)).
Proof.
  split; [|split].
  - intros tiles newPos Hno. now apply groundHeight_miss.
  - intros w robot Hm Ht Hl speed direction target Hno. split.
    + destruct (tiled_tick_moving_state w robot Hm Ht Hl) as (Hm' & _).
      eexists. split; [exact Hm'|]. cbn [Tiled.position].
      unfold tiled_newPos. fold direction speed target.
      rewrite groundHeight_miss by exact Hno. reflexivity.
    + intros Hr. now destruct (tiled_tick_moving_ready w robot Hm Ht Hl Hr) as (Hret & _).
  - intros w robot Hm Hno. unfold Tiled.spawn, bind, gets.
    unfold all_hits in Hno. rewrite Hno.
    unfold Tiled.set_model_position, bind, gets, modify. rewrite Hm. reflexivity.
Qed.

(** The camera of the concrete scenes looks along -z: forward alone is a
    unit direction. *)
Lemma camera_north_forward (surfaces : R -> R -> list R) (b : bool) :
  Vector3.length
    (@camera_direction (heightfield surfaces) (Keys.new true false false false b) camera_north) = 1.
Proof.
  unfold camera_direction, Tiled.forward_of, Tiled.direction_of. cbn [Keys.w Keys.s Keys.a Keys.d].
  cbn [getWorldDirection heightfield camera_north snd].
  assert (Hl : Vector3.length (Vector3.set_y (Vector3.new 0 0 (-1)) 0) = 1).
  { unfold Vector3.length; cbn.
    replace (0 * 0 + 0 * 0 + -1 * -1) with 1 by lra. apply sqrt_1. }
  rewrite normalize_nonzero by lra. rewrite Hl.
  unfold Vector3.length, Vector3.add, Vector3.divideScalar, Vector3.multiplyScalar; cbn.
  match goal with |- sqrt ?e = 1 => replace e with 1 by lra end. apply sqrt_1.
Qed.

(** The hits of the spawn ray on the grid of skirted tiles: first the
    skirt of the western neighbour, then the plateau of the centre tile. *)
Lemma skirted_spawn_hits :
  @all_hits (heightfield skirted) grid_tiles (Vector3.new 0 20 0)
  = [mkIntersection (20 - (0 + -5)) (Vector3.new 0 (0 + -5) 0);
     mkIntersection (20 - (0 + 2)) (Vector3.new 0 (0 + 2) 0)].
Proof.
  unfold all_hits, grid_tiles, slots3x3.
  cbn [map flat_map fst snd intersectObject heightfield tile_position
       Vector3.x Vector3.y Vector3.z app].
  unfold skirted.
  repeat match goal with
         | |- context [Rle_dec ?a ?b] => destruct (Rle_dec a b); try lra
         end.
  reflexivity.
Qed.

(** C2 (evidence of the defect).  On the grid of skirted tiles the spawn
    ray from (0, 20, 0) has two hits: the skirt of the western neighbour
    at distance 25 (height -5), found first because that tile comes
    earlier in the array, and the plateau of the centre tile at distance
    18 (height 2).  The spawn timer takes the first, not the closest; the
    movement query at the same (x, z) takes the closest. *)
Theorem spawn_query_not_closest :
  let w := tiled_loaded skirted in
  exists far near : Intersection,
    all_hits (H := heightfield skirted) (Tiled.terrainTiles w) (Vector3.new 0 20 0)
    = [far; near] /\
    distance far = 25 /\ distance near = 18 /\
    Vector3.y (point far) = -5 /\ Vector3.y (point near) = 2 /\
    (exists robot',
        Tiled.spawn w = (Normal tt, Tiled.set_model (Some robot') w) /\
        Vector3.y (Tiled.position robot') = -5) /\
    Tiled.groundHeight (H := heightfield skirted) (Tiled.terrainTiles w) (Vector3.new 0 0 0) = 2.
Proof.
  intros w.
  exists (mkIntersection (20 - (0 + -5)) (Vector3.new 0 (0 + -5) 0)),
         (mkIntersection (20 - (0 + 2)) (Vector3.new 0 (0 + 2) 0)).
  cbn [distance point Vector3.y].
  split; [exact skirted_spawn_hits|].
  split; [lra|]. split; [lra|]. split; [lra|]. split; [lra|]. split.
  - eexists. split.
    + unfold Tiled.spawn, bind, gets.
      pose proof skirted_spawn_hits as Hhits. unfold all_hits in Hhits.
      cbn [w tiled_loaded Tiled.terrainTiles]. rewrite Hhits.
      unfold Tiled.set_model_position, bind, gets, modify. cbn [point Tiled.model]. reflexivity.
    + cbn. lra.
  - unfold Tiled.groundHeight. rewrite collect_hits_all.
    cbn [w tiled_loaded Tiled.terrainTiles Vector3.x Vector3.z].
    rewrite skirted_spawn_hits. cbn [List.length Nat.ltb Nat.leb sort_by_distance insert_by_distance distance].
    destruct (Rle_dec (20 - (0 + -5)) (20 - (0 + 2))) as [Hle|_]; [lra|].
    cbn. lra.
Qed.

(** ** From loading to the first movement *)

Lemma forOf_preserves {S A} (P : S -> Prop) (l : list A) (body : A -> JS S unit) :
  (forall x s, P s -> fst (body x s) = Normal tt /\ P (snd (body x s))) ->
  forall s, P s -> fst (forOf l body s) = Normal tt /\ P (snd (forOf l body s)).
Proof.
  intros Hbody. induction l as [|x l IH]; intros s Hs; cbn [forOf].
  - split; [reflexivity|exact Hs].
  - unfold bind. destruct (Hbody x s Hs) as [Hret HP].
    destruct (body x s) as [res s']. cbn [fst snd] in *. rewrite Hret. now apply IH.
Qed.

Lemma clip_fold_lookup (animations : list string) :
  forall (m : gmap string AnimationAction) (name : string) (a : AnimationAction),
    fold_left (fun m clip => <[clip := clipAction clip]> m) animations m !! name = Some a ->
    a = clipAction name \/ m !! name = Some a.
Proof.
  induction animations as [|clip rest IH]; intros m name a Hl; cbn [fold_left] in Hl.
  - now right.
  - destruct (IH _ _ _ Hl) as [Ha|Hm]; [now left|].
    destruct (decide (clip = name)) as [->|Hne].
    + rewrite lookup_insert_eq in Hm. left. congruence.
    + rewrite lookup_insert_ne in Hm by exact Hne. now right.
Qed.

(** The loop of [createGUI] over the clips. *)
Lemma createGUI_loop (animations : list string) :
  forall c m,
    actions c = Some m ->
    forOf animations
          (fun clip =>
             modify (fun c => set_actions (option_map (insert clip (clipAction clip)) (actions c)) c))
          c
    = (Normal tt,
       set_actions (Some (fold_left (fun m clip => <[clip := clipAction clip]> m) animations m)) c).
Proof.
  induction animations as [|clip rest IH]; intros c m Hact; cbn [forOf fold_left].
  - unfold ret. destruct c; cbn in *. now subst.
  - unfold bind, modify. rewrite (IH _ (<[clip := clipAction clip]> m)).
    + reflexivity.
    + cbn. now rewrite Hact.
Qed.

Lemma bind_modify {S B} (f : S -> S) (k : unit -> JS S B) (s : S) :
  bind (modify f) k s = k tt (f s).
Proof. reflexivity. Qed.

Lemma bind_gets {S A B} (f : S -> A) (k : A -> JS S B) (s : S) :
  bind (gets f) k s = k (f s) s.
Proof. reflexivity. Qed.

Lemma bind_normal {S A B} (c : JS S A) (k : A -> JS S B) (s s' : S) (a : A) :
  c s = (Normal a, s') -> bind c k s = k a s'.
Proof. intros Hc. unfold bind. now rewrite Hc. Qed.

Lemma bind_throw {S A B} (c : JS S A) (k : A -> JS S B) (s s' : S) (e : Exception) :
  c s = (Throw e, s') -> bind c k s = (Throw e, s').
Proof. intros Hc. unfold bind. now rewrite Hc. Qed.

(** [createGUI] on the initial controller, case by case. *)
Lemma createGUI_eq (animations : list string) (face : option (list string)) :
  createGUI animations face initialController
  = let m := fold_left (fun m clip => <[clip := clipAction clip]> m) animations ∅ in
    let c1 := mkController (Some (mkMixer [])) (Some m) None None "Walking" "Idle" [] in
    match face with
    | None => (Throw (TypeError "cannot read properties of undefined"), c1)
    | Some _ =>
        match m !! "Walking" with
        | Some a => (Normal tt, add_call (play a) (set_activeAction (Some a) c1))
        | None => (Throw (TypeError "cannot read properties of undefined"), c1)
        end
    end.
Proof.
  unfold createGUI. rewrite !bind_modify.
  erewrite bind_normal; [|apply (createGUI_loop animations _ ∅); reflexivity].
  destruct face as [targets|]; [|reflexivity].
  unfold actions_at. unfold bind at 1. rewrite bind_gets.
  cbn [actions set_actions set_mixer initialController mixer activeAction previousAction
       api_state currentMovement calls ret].
  rewrite bind_modify, bind_gets.
  destruct (fold_left _ animations ∅ !! "Walking") as [a|] eqn:Hw; reflexivity.
Qed.

(** When [createGUI] returns the controller is in the state
    [walking_while_idle]. *)
Lemma createGUI_returns (animations : list string) (face : option (list string)) :
  fst (createGUI animations face initialController) = Normal tt ->
  walking_while_idle (snd (createGUI animations face initialController)).
Proof.
  rewrite createGUI_eq. cbv zeta.
  destruct face as [targets|]; [|discriminate].
  destruct (fold_left _ animations ∅ !! "Walking") as [a|] eqn:Hw; [|discriminate].
  intros _.
  assert (Ha : a = walkingAction).
  { destruct (clip_fold_lookup animations ∅ "Walking" a Hw) as [->|Hm]; [reflexivity|].
    rewrite lookup_empty in Hm. discriminate. }
  subst a. unfold walking_while_idle. cbn. repeat split; eauto.
Qed.

(** Without a listener the mixer's update changes nothing, whatever
    finished. *)
Lemma mixer_update_no_listener (dt : R) (finished : list AnimationAction) (c : Controller) :
  mixer c = Some (mkMixer []) ->
  mixer_update dt finished c = (Normal tt, c).
Proof.
  intros Hmx. unfold mixer_update.
  induction finished as [|a rest IH]; cbn [forOf]; [reflexivity|].
  unfold bind. unfold dispatchFinished at 1. unfold bind, gets. rewrite Hmx. cbn [finishedListeners forOf].
  unfold ret at 1. exact IH.
Qed.

Lemma idleState_idle (c : Controller) :
  currentMovement c = "Idle" -> idleState c = (Normal tt, c).
Proof. intros Hc. unfold idleState, bind, gets. rewrite Hc. reflexivity. Qed.

(** The handlers of the keys other than the space bar only write [keys]. *)
Lemma cf_onKeyDown_keys (key : string) (w : ClosedForm.World) :
  toLowerCase key <> " " ->
  exists k, ClosedForm.onKeyDown key w = (Normal tt, ClosedForm.set_keys k w).
Proof.
  intros Hkey. unfold ClosedForm.onKeyDown, modify.
  repeat match goal with
         | |- context [String.eqb ?a ?b] =>
             destruct (String.eqb_spec a b); [try (eexists; reflexivity)|]
         end.
  - contradiction.
  - exists (ClosedForm.keys w). destruct w; reflexivity.
Qed.

Lemma cf_onKeyUp_keys (key : string) (w : ClosedForm.World) :
  exists k, ClosedForm.onKeyUp key w = (Normal tt, ClosedForm.set_keys k w).
Proof.
  unfold ClosedForm.onKeyUp, modify.
  repeat match goal with
         | |- context [String.eqb ?a ?b] =>
             destruct (String.eqb_spec a b); [try (eexists; reflexivity)|]
         end.
  exists (ClosedForm.keys w). destruct w; reflexivity.
Qed.

(** A frame without listener, with Idle recorded and no net direction
    changes nothing. *)
Lemma cf_still_frame (dt : R) (finished : list AnimationAction) (w : ClosedForm.World) :
  ClosedForm.model w <> None ->
  mixer (ClosedForm.ctl w) = Some (mkMixer []) ->
  currentMovement (ClosedForm.ctl w) = "Idle" ->
  no_net_direction (ClosedForm.keys w) ->
  ClosedForm.animate dt finished w = (Normal tt, w).
Proof.
  intros Hm Hmx Hcm [Hws Had].
  unfold ClosedForm.animate. rewrite bind_gets, Hmx.
  erewrite bind_normal.
  2:{ rewrite ClosedFormFacts.liftC_eq, mixer_update_no_listener by exact Hmx.
      cbn [fst snd]. destruct w; reflexivity. }
  cbv beta.
  replace (ClosedForm.set_ctl (ClosedForm.ctl w) w) with w by (destruct w; reflexivity).
  destruct (ClosedForm.model w) as [robot|] eqn:Hrobot; [|congruence].
  rewrite (ClosedFormFacts.tick_idle w robot Hrobot)
    by now apply ClosedFormFacts.moveDirection_cancel.
  rewrite ClosedFormFacts.liftC_eq, idleState_idle by exact Hcm.
  cbn [fst snd]. destruct w; reflexivity.
Qed.

Lemma cf_quiet_step (e : ClosedForm.Event) (w : ClosedForm.World) :
  ClosedForm.model w <> None ->
  walking_while_idle (ClosedForm.ctl w) ->
  cf_quiet_event e w ->
  fst (ClosedForm.handle e w) = Normal tt /\
  ClosedForm.model (snd (ClosedForm.handle e w)) <> None /\
  walking_while_idle (ClosedForm.ctl (snd (ClosedForm.handle e w))).
Proof.
  intros Hm Hinv Hq. destruct e as [scene animations face|key|key|choice|name|dt finished];
    cbn [cf_quiet_event] in Hq; try contradiction; cbn [ClosedForm.handle].
  - destruct (cf_onKeyDown_keys key w Hq) as [k ->]. cbn. auto.
  - destruct (cf_onKeyUp_keys key w) as [k ->]. cbn. auto.
  - pose proof Hinv as (Hmx & _ & _ & Hcm & _).
    rewrite cf_still_frame by assumption. cbn. auto.
Qed.

Lemma cf_quiet_run (evs : list ClosedForm.Event) :
  forall w : ClosedForm.World,
    ClosedForm.model w <> None ->
    walking_while_idle (ClosedForm.ctl w) ->
    cf_quiet evs w ->
    fst (forOf evs ClosedForm.handle w) = Normal tt /\
    walking_while_idle (ClosedForm.ctl (snd (forOf evs ClosedForm.handle w))).
Proof.
  induction evs as [|e evs IH]; intros w Hm Hinv Hq; cbn [forOf].
  - cbn. auto.
  - destruct Hq as [Hqe Hqr].
    destruct (cf_quiet_step e w Hm Hinv Hqe) as (Hret & Hm' & Hinv').
    unfold exec in Hqr. unfold bind.
    destruct (ClosedForm.handle e w) as [res w']. cbn [fst snd] in *. rewrite Hret.
    now apply IH.
Qed.

Section TiledQuiet.
Context `{Three}.

Lemma tiled_onKeyDown_keys (key : string) (w : Tiled.World) :
  toLowerCase key <> " " ->
  exists k, Tiled.onKeyDown key w = (Normal tt, Tiled.set_keys k w).
Proof.
  intros Hkey. unfold Tiled.onKeyDown, modify.
  repeat match goal with
         | |- context [String.eqb ?a ?b] =>
             destruct (String.eqb_spec a b); [try (eexists; reflexivity)|]
         end.
  - contradiction.
  - exists (Tiled.keys w). destruct w; reflexivity.
Qed.

Lemma tiled_onKeyUp_keys (key : string) (w : Tiled.World) :
  exists k, Tiled.onKeyUp key w = (Normal tt, Tiled.set_keys k w).
Proof.
  unfold Tiled.onKeyUp, modify.
  repeat match goal with
         | |- context [String.eqb ?a ?b] =>
             destruct (String.eqb_spec a b); [try (eexists; reflexivity)|]
         end.
  exists (Tiled.keys w). destruct w; reflexivity.
Qed.

(** The camera update returns and writes the camera only. *)
Lemma updateThirdPersonCamera_camera (w : Tiled.World) :
  exists cam, Tiled.updateThirdPersonCamera w = (Normal tt, Tiled.set_camera cam w).
Proof.
  unfold Tiled.updateThirdPersonCamera. rewrite bind_gets.
  destruct (Tiled.model w) as [robot|].
  - rewrite !bind_gets. unfold modify. eexists. reflexivity.
  - exists (Tiled.camera w). destruct w; reflexivity.
Qed.

Lemma createTerrainGrid_tiles (w : Tiled.World) :
  Tiled.createTerrainGrid w = (Normal tt, Tiled.set_terrainTiles (Tiled.terrainTiles w ++ grid_tiles) w).
Proof.
  unfold Tiled.createTerrainGrid.
  change (Tiled.tileRepeat / 2)%Z with 1%Z.
  change (Tiled.range (- (1)) 1) with [-1; 0; 1]%Z.
  cbn [forOf]. unfold bind, modify, ret. cbn [Tiled.terrainTiles Tiled.set_terrainTiles].
  unfold Tiled.set_terrainTiles; cbn [Tiled.model Tiled.camera Tiled.keys Tiled.ctl].
  repeat rewrite <- app_assoc. reflexivity.
Qed.

Lemma spawn_model (w : Tiled.World) (robot : Tiled.Model) :
  Tiled.model w = Some robot ->
  exists robot', Tiled.spawn w = (Normal tt, Tiled.set_model (Some robot') w).
Proof.
  intros Hm. unfold Tiled.spawn. rewrite bind_gets.
  destruct (flat_map _ _) as [|first rest];
    unfold Tiled.set_model_position; rewrite bind_gets, Hm; unfold modify; eexists; reflexivity.
Qed.

Lemma tiled_still_frame (dt : R) (finished : list AnimationAction) (w : Tiled.World) :
  Tiled.model w <> None ->
  mixer (Tiled.ctl w) = Some (mkMixer []) ->
  currentMovement (Tiled.ctl w) = "Idle" ->
  no_net_direction (Tiled.keys w) ->
  exists cam, Tiled.animate dt finished w = (Normal tt, Tiled.set_camera cam w).
Proof.
  intros Hm Hmx Hcm [Hws Had].
  unfold Tiled.animate. rewrite bind_gets, Hmx.
  erewrite bind_normal.
  2:{ rewrite tiled_liftC_eq, mixer_update_no_listener by exact Hmx.
      cbn [fst snd]. destruct w; reflexivity. }
  assert (Htick : Tiled.updateRobotMovement w = (Normal tt, w)).
  { destruct (Tiled.model w) as [robot|] eqn:Hrobot; [|congruence].
    destruct (Tiled.terrainTiles w) as [|t ts] eqn:Htiles.
    - apply tiled_tick_unloaded. now right.
    - rewrite (tiled_tick_idle w robot Hrobot); [|congruence|now apply direction_cancel].
      rewrite tiled_liftC_eq, idleState_idle by exact Hcm.
      cbn [fst snd]. destruct w; reflexivity. }
  cbv beta.
  replace (Tiled.set_ctl (Tiled.ctl w) w) with w by (destruct w; reflexivity).
  erewrite bind_normal by exact Htick.
  apply updateThirdPersonCamera_camera.
Qed.

Lemma tiled_quiet_step (e : Tiled.Event) (w : Tiled.World) :
  Tiled.model w <> None ->
  walking_while_idle (Tiled.ctl w) ->
  tiled_quiet_event e w ->
  fst (Tiled.handle e w) = Normal tt /\
  Tiled.model (snd (Tiled.handle e w)) <> None /\
  walking_while_idle (Tiled.ctl (snd (Tiled.handle e w))).
Proof.
  intros Hm Hinv Hq.
  destruct e as [|scene animations face| |key|key|choice|name|cam|dt finished];
    cbn [tiled_quiet_event] in Hq; try contradiction; cbn [Tiled.handle].
  - rewrite createTerrainGrid_tiles. cbn. auto.
  - destruct (Tiled.model w) as [robot|] eqn:Hrobot; [|congruence].
    destruct (spawn_model w robot Hrobot) as [robot' ->]. cbn. split; [reflexivity|].
    split; [congruence|exact Hinv].
  - destruct (tiled_onKeyDown_keys key w Hq) as [k ->]. cbn. auto.
  - destruct (tiled_onKeyUp_keys key w) as [k ->]. cbn. auto.
  - cbn. auto.
  - pose proof Hinv as (Hmx & _ & _ & Hcm & _).
    destruct (tiled_still_frame dt finished w Hm Hmx Hcm Hq) as [cam ->]. cbn. auto.
Qed.

Lemma tiled_quiet_run (evs : list Tiled.Event) :
  forall w : Tiled.World,
    Tiled.model w <> None ->
    walking_while_idle (Tiled.ctl w) ->
    tiled_quiet evs w ->
    fst (forOf evs Tiled.handle w) = Normal tt /\
    walking_while_idle (Tiled.ctl (snd (forOf evs Tiled.handle w))).
Proof.
  induction evs as [|e evs IH]; intros w Hm Hinv Hq; cbn [forOf].
  - cbn. auto.
  - destruct Hq as [Hqe Hqr].
    destruct (tiled_quiet_step e w Hm Hinv Hqe) as (Hret & Hm' & Hinv').
    unfold exec in Hqr. unfold bind.
    destruct (Tiled.handle e w) as [res w']. cbn [fst snd] in *. rewrite Hret.
    now apply IH.
Qed.
End TiledQuiet.

(** C10.  From the moment [createGUI] has returned, through any run of
    frames in which the keys held have no net direction (with key events
    other than the space bar going down in between, and in the tiled
    variant the terrain arriving, the spawn timer and camera drags), every
    handler returns, the active action is the Walking action while the
    recorded locomotion state is Idle, and the only call ever made on an
    action is the initial [play] on Walking: no frame starts a transition
    to Idle.  Both variants. *)
Theorem walking_animation_while_idle :
  (forall (w0 : ClosedForm.World) (scene : ClosedForm.Model) (animations : list string)
          (face : option (list string)) (evs : list ClosedForm.Event),
      ClosedForm.ctl w0 = initialController ->
      let load := ClosedForm.handle (ClosedForm.ModelLoaded scene animations face) w0 in
      fst load = Normal tt ->
      cf_quiet evs (snd load) ->
      let r := forOf evs ClosedForm.handle (snd load) in
      fst r = Normal tt /\
      activeAction (ClosedForm.ctl (snd r)) = Some walkingAction /\
      clipName walkingAction = "Walking" /\
      currentMovement (ClosedForm.ctl (snd r)) = "Idle" /\
      calls (ClosedForm.ctl (snd r)) = [play walkingAction]) /\
  (forall (T : Three) (w0 : Tiled.World) (scene : Tiled.Model) (animations : list string)
          (face : option (list string)) (evs : list Tiled.Event),
      Tiled.ctl w0 = initialController ->
      let load := Tiled.handle (Tiled.ModelLoaded scene animations face) w0 in
      fst load = Normal tt ->
      tiled_quiet evs (snd load) ->
      let r := forOf evs Tiled.handle (snd load) in
      fst r = Normal tt /\
      activeAction (Tiled.ctl (snd r)) = Some walkingAction /\
      clipName walkingAction = "Walking" /\
      currentMovement (Tiled.ctl (snd r)) = "Idle" /\
      calls (Tiled.ctl (snd r)) = [play walkingAction]).
Proof.
  split.
  - intros w0 scene animations face evs Hc0 load Hload Hq r.
    assert (Hl : load = (fst (createGUI animations face initialController),
                         ClosedForm.set_ctl (snd (createGUI animations face initialController))
                                            (ClosedForm.set_model (Some scene) w0))).
    { unfold load, ClosedForm.handle. rewrite bind_modify, ClosedFormFacts.liftC_eq.
      cbn [ClosedForm.ctl ClosedForm.set_model]. now rewrite Hc0. }
    rewrite Hl in Hload, Hq. unfold r. rewrite Hl. cbn [fst snd] in *.
    assert (Hm : ClosedForm.model
                   (ClosedForm.set_ctl (snd (createGUI animations face initialController))
                                       (ClosedForm.set_model (Some scene) w0)) <> None)
      by (cbn; congruence).
    destruct (cf_quiet_run evs _ Hm (createGUI_returns animations face Hload) Hq)
      as (Hret & _ & _ & Hact & Hcm & Hcalls).
    auto.
  - intros T w0 scene animations face evs Hc0 load Hload Hq r.
    assert (Hl : load = (fst (createGUI animations face initialController),
                         Tiled.set_ctl (snd (createGUI animations face initialController))
                                       (Tiled.set_model (Some scene) w0))).
    { unfold load, Tiled.handle. rewrite bind_modify, tiled_liftC_eq.
      cbn [Tiled.ctl Tiled.set_model]. now rewrite Hc0. }
    rewrite Hl in Hload, Hq. unfold r. rewrite Hl. cbn [fst snd] in *.
    assert (Hm : Tiled.model
                   (Tiled.set_ctl (snd (createGUI animations face initialController))
                                  (Tiled.set_model (Some scene) w0)) <> None)
      by (cbn; congruence).
    destruct (tiled_quiet_run evs _ Hm (createGUI_returns animations face Hload) Hq)
      as (Hret & _ & _ & Hact & Hcm & Hcalls).
    auto.
Qed.

(** ** Overlays and the return to the locomotion state *)

(** The listener is registered at most once, and [restoreState] takes it
    off again. *)
Lemma addEventListener_once (m : AnimationMixer) :
  addEventListener restoreState_listener (addEventListener restoreState_listener m)
  = addEventListener restoreState_listener m.
Proof.
  unfold addEventListener.
  destruct (decide (restoreState_listener ∈ finishedListeners m)) as [Hin|Hout].
  - destruct (decide (restoreState_listener ∈ finishedListeners m)); [reflexivity|contradiction].
  - cbn [finishedListeners].
    destruct (decide _) as [_|Hn]; [reflexivity|].
    exfalso. apply Hn. apply elem_of_app. right. now left.
Qed.

Lemma armed_then_disarmed :
  removeEventListener restoreState_listener (addEventListener restoreState_listener (mkMixer []))
  = mkMixer [].
Proof. reflexivity. Qed.

(** The crossfade to Jump on the loaded controller. *)
Lemma jump_crossfade :
  fadeToAction "Jump" 0.2 loaded_controller = (Normal tt, jumping_controller).
Proof.
  destruct standard_lookup as (_ & _ & _ & Hjump).
  rewrite (fadeToAction_switch "Jump" 0.2 loaded_controller standard_actions
                               walkingAction jumpAction);
    [reflexivity|reflexivity|exact Hjump|reflexivity|discriminate].
Qed.

(** The emote button: the crossfade, then the listener is armed. *)
Lemma emote_button_arms :
  api_emote "Jump" loaded_controller = (Normal tt, armed_controller).
Proof. unfold api_emote. rewrite (bind_normal _ _ _ _ _ jump_crossfade). reflexivity. Qed.

(** With the listener armed, the update in which an action finishes runs
    [restoreState]: the listener is taken off and the controller
    crossfades to the recorded locomotion state. *)
Lemma armed_update_restores (dt : R) (finished : AnimationAction) :
  mixer_update dt [finished] armed_controller = (Normal tt, restored_controller).
Proof.
  destruct standard_lookup as (Hidle & _).
  unfold mixer_update. cbn [forOf]. unfold dispatchFinished.
  unfold bind at 1. unfold bind at 1. unfold gets at 1.
  cbn [mixer armed_controller set_mixer finishedListeners forOf run_listener].
  fold armed_controller. unfold bind at 1.
  change (restoreState armed_controller)
    with (fadeToAction "Idle" 0.2 (set_mixer (Some (mkMixer [])) jumping_controller)).
  rewrite (fadeToAction_switch "Idle" 0.2 _ standard_actions jumpAction idleAction);
    [reflexivity|reflexivity|exact Hidle|reflexivity|discriminate].
Qed.

(** C4 (evidence of the defect).  On the loaded robot, standing still:
    the space bar starts Jump without arming the listener, so the frame
    in which the mixer reports Jump finished, and every later frame while
    no direction is held, leaves Jump the active action although the
    recorded locomotion state is Idle.  The emote button for the same
    action arms the listener, and the same frame returns the controller to
    the Idle action.  Both variants. *)
Theorem space_jump_not_restored :
  (let key_run :=
     forOf [ClosedForm.KeyDown " "; ClosedForm.AnimationFrame (1 / 60) [jumpAction]]
           ClosedForm.handle cf_loaded in
   let button_run :=
     forOf [ClosedForm.EmoteClicked "Jump"; ClosedForm.AnimationFrame (1 / 60) [jumpAction]]
           ClosedForm.handle cf_loaded in
   key_run = (Normal tt, ClosedForm.set_ctl jumping_controller cf_loaded) /\
   (forall frames : list (R * list AnimationAction),
       forOf frames (fun f => ClosedForm.animate (fst f) (snd f)) (snd key_run)
       = (Normal tt, snd key_run)) /\
   button_run = (Normal tt, ClosedForm.set_ctl restored_controller cf_loaded)) /\
  (let key_run :=
     forOf [Tiled.KeyDown " "; Tiled.AnimationFrame (1 / 60) [jumpAction]]
           Tiled.handle (tiled_loaded no_mesh) in
   let button_run :=
     forOf [Tiled.EmoteClicked "Jump"; Tiled.AnimationFrame (1 / 60) [jumpAction]]
           Tiled.handle (tiled_loaded no_mesh) in
   fst key_run = Normal tt /\
   Tiled.ctl (snd key_run) = jumping_controller /\
   (forall frames : list (R * list AnimationAction),
       let later := forOf frames (fun f => Tiled.animate (fst f) (snd f)) (snd key_run) in
       fst later = Normal tt /\ Tiled.ctl (snd later) = jumping_controller) /\
   fst button_run = Normal tt /\
   Tiled.ctl (snd button_run) = restored_controller) /\
  activeAction jumping_controller = Some jumpAction /\
  currentMovement jumping_controller = "Idle" /\
  jumping_controller.(actions) = Some standard_actions /\
  standard_actions !! "Idle" = Some idleAction /\
  activeAction restored_controller = Some idleAction /\
  jumpAction <> idleAction.
Proof.
  split; [|split].
  - cbv zeta.
    assert (Hkey : ClosedForm.handle (ClosedForm.KeyDown " ") cf_loaded
                   = (Normal tt, ClosedForm.set_ctl jumping_controller cf_loaded)).
    { change (ClosedForm.handle (ClosedForm.KeyDown " ") cf_loaded)
        with (ClosedForm.liftC (fadeToAction "Jump" 0.2) cf_loaded).
      rewrite ClosedFormFacts.liftC_eq.
      change (ClosedForm.ctl cf_loaded) with loaded_controller.
      rewrite jump_crossfade. reflexivity. }
    assert (Hstill : forall dt finished,
               ClosedForm.animate dt finished (ClosedForm.set_ctl jumping_controller cf_loaded)
               = (Normal tt, ClosedForm.set_ctl jumping_controller cf_loaded)).
    { intros dt finished. apply cf_still_frame; try reflexivity.
      - discriminate.
      - split; reflexivity. }
    assert (Hrun : forOf [ClosedForm.KeyDown " "; ClosedForm.AnimationFrame (1 / 60) [jumpAction]]
                         ClosedForm.handle cf_loaded
                   = (Normal tt, ClosedForm.set_ctl jumping_controller cf_loaded)).
    { cbn [forOf]. rewrite (bind_normal _ _ _ _ _ Hkey). cbv beta.
      cbn [ClosedForm.handle].
      rewrite (bind_normal _ _ _ _ tt (Hstill _ _)). reflexivity. }
    split; [exact Hrun|]. split.
    + intros frames. rewrite Hrun. cbn [snd].
      induction frames as [|[dt finished] frames IH]; cbn [forOf fst snd]; [reflexivity|].
      rewrite (bind_normal _ _ _ _ tt (Hstill _ _)). exact IH.
    + cbn [forOf].
      assert (Hbutton : ClosedForm.handle (ClosedForm.EmoteClicked "Jump") cf_loaded
                        = (Normal tt, ClosedForm.set_ctl armed_controller cf_loaded)).
      { cbn [ClosedForm.handle]. rewrite ClosedFormFacts.liftC_eq.
        change (ClosedForm.ctl cf_loaded) with loaded_controller.
        rewrite emote_button_arms. reflexivity. }
      rewrite (bind_normal _ _ _ _ _ Hbutton). cbv beta.
      assert (Hframe : ClosedForm.handle (ClosedForm.AnimationFrame (1 / 60) [jumpAction])
                                         (ClosedForm.set_ctl armed_controller cf_loaded)
                       = (Normal tt, ClosedForm.set_ctl restored_controller cf_loaded)).
      { cbn [ClosedForm.handle]. unfold ClosedForm.animate. rewrite bind_gets.
        cbn [ClosedForm.ctl ClosedForm.set_ctl mixer armed_controller set_mixer].
        erewrite bind_normal.
        2:{ rewrite ClosedFormFacts.liftC_eq. cbn [ClosedForm.ctl ClosedForm.set_ctl].
            rewrite armed_update_restores. reflexivity. }
        cbv beta. cbn [ClosedForm.set_ctl ClosedForm.model ClosedForm.keys cf_loaded snd].
        erewrite ClosedFormFacts.tick_idle;
          [|reflexivity|now apply ClosedFormFacts.moveDirection_cancel].
        rewrite ClosedFormFacts.liftC_eq, idleState_idle by reflexivity. reflexivity. }
      rewrite (bind_normal _ _ _ _ _ Hframe). reflexivity.
  - cbv zeta.
    assert (Hkey : Tiled.handle (Tiled.KeyDown " ") (tiled_loaded no_mesh)
                   = (Normal tt, Tiled.set_ctl jumping_controller (tiled_loaded no_mesh))).
    { change (Tiled.handle (Tiled.KeyDown " ") (tiled_loaded no_mesh))
        with (Tiled.liftC (fadeToAction "Jump" 0.2) (tiled_loaded no_mesh)).
      rewrite tiled_liftC_eq.
      change (Tiled.ctl (tiled_loaded no_mesh)) with loaded_controller.
      rewrite jump_crossfade. reflexivity. }
    assert (Hstill : forall dt finished (w : @Tiled.World (heightfield no_mesh)),
               Tiled.model w <> None ->
               Tiled.ctl w = jumping_controller ->
               Tiled.keys w = Keys.initial ->
               let r := Tiled.animate dt finished w in
               fst r = Normal tt /\ Tiled.model (snd r) <> None /\
               Tiled.ctl (snd r) = jumping_controller /\ Tiled.keys (snd r) = Keys.initial).
    { intros dt finished w Hm Hc Hk.
      destruct (tiled_still_frame dt finished w Hm) as [cam Hcam].
      - now rewrite Hc.
      - now rewrite Hc.
      - rewrite Hk. split; reflexivity.
      - cbv zeta. rewrite Hcam. cbn. auto. }
    assert (Hlater : forall (frames : list (R * list AnimationAction))
                            (w : @Tiled.World (heightfield no_mesh)),
               Tiled.model w <> None ->
               Tiled.ctl w = jumping_controller ->
               Tiled.keys w = Keys.initial ->
               let later := forOf frames (fun f => Tiled.animate (fst f) (snd f)) w in
               fst later = Normal tt /\ Tiled.ctl (snd later) = jumping_controller).
    { induction frames as [|[dt finished] frames IH]; intros w Hm Hc Hk; cbn [forOf fst snd].
      - cbn. auto.
      - destruct (Hstill dt finished w Hm Hc Hk) as (Hret & Hm' & Hc' & Hk').
        unfold bind. cbn [fst snd] in *.
        destruct (Tiled.animate dt finished w) as [res w']. cbn [fst snd] in *. rewrite Hret.
        now apply IH. }
    cbn [forOf]. rewrite (bind_normal _ _ _ _ _ Hkey). cbv beta.
    destruct (Hstill (1 / 60) [jumpAction] (Tiled.set_ctl jumping_controller (tiled_loaded no_mesh)))
      as (Hret & Hm' & Hc' & Hk'); [discriminate|reflexivity|reflexivity|].
    cbn [Tiled.handle].
    destruct (Tiled.animate (1 / 60) [jumpAction]
                            (Tiled.set_ctl jumping_controller (tiled_loaded no_mesh)))
      as [res w1] eqn:Hanim.
    cbn [fst snd] in *. subst res.
    rewrite (bind_normal _ _ _ _ tt Hanim). cbv beta. unfold ret. cbn [fst snd].
    split; [reflexivity|]. split; [exact Hc'|].
    split; [intros frames; apply Hlater; assumption|].
    assert (Hbutton : Tiled.handle (Tiled.EmoteClicked "Jump") (tiled_loaded no_mesh)
                      = (Normal tt, Tiled.set_ctl armed_controller (tiled_loaded no_mesh))).
    { cbn [Tiled.handle]. rewrite tiled_liftC_eq.
      change (Tiled.ctl (tiled_loaded no_mesh)) with loaded_controller.
      rewrite emote_button_arms. reflexivity. }
    rewrite (bind_normal _ _ _ _ _ Hbutton). cbv beta.
    assert (Hframe : exists cam,
               Tiled.handle (Tiled.AnimationFrame (1 / 60) [jumpAction])
                            (Tiled.set_ctl armed_controller (tiled_loaded no_mesh))
               = (Normal tt,
                  Tiled.set_camera cam (Tiled.set_ctl restored_controller (tiled_loaded no_mesh)))).
    { cbn [Tiled.handle]. unfold Tiled.animate. rewrite bind_gets.
      cbn [Tiled.ctl Tiled.set_ctl mixer armed_controller set_mixer].
      erewrite bind_normal.
      2:{ rewrite tiled_liftC_eq. cbn [Tiled.ctl Tiled.set_ctl].
          rewrite armed_update_restores. reflexivity. }
      cbv beta. cbn [snd].
      erewrite bind_normal.
      2:{ erewrite (tiled_tick_idle _ _);
            [|reflexivity|discriminate|now apply direction_cancel].
          rewrite tiled_liftC_eq, idleState_idle by reflexivity. reflexivity. }
      cbv beta. cbn [fst snd].
      match goal with
      | |- exists cam, Tiled.updateThirdPersonCamera ?w = _ =>
          destruct (updateThirdPersonCamera_camera w) as [cam Hcam]; rewrite Hcam
      end.
      exists cam. reflexivity. }
    destruct Hframe as [cam Hframe].
    rewrite (bind_normal _ _ _ _ _ Hframe). cbn. auto.
  - destruct standard_lookup as (Hidle & _).
    repeat split; try reflexivity; try exact Hidle. discriminate.
Qed.

(** ** Exceptions in a frame *)

Lemma cf_sparse_built :
  forOf [ClosedForm.ModelLoaded (ClosedForm.mkModel (Vector3.new 0 0 0) 0) sparse_clips (Some []);
         ClosedForm.KeyDown "w"; ClosedForm.KeyDown "Shift"]
        ClosedForm.handle ClosedForm.initialWorld
  = (Normal tt, cf_sparse_sprinting).
Proof.
  assert (Hgui : createGUI sparse_clips (Some []) initialController = (Normal tt, sparse_controller))
    by (vm_compute; reflexivity).
  cbn [forOf]. erewrite bind_normal.
  2:{ cbn [ClosedForm.handle]. rewrite bind_modify, ClosedFormFacts.liftC_eq.
      cbn [ClosedForm.ctl ClosedForm.set_model ClosedForm.initialWorld].
      rewrite Hgui. reflexivity. }
  reflexivity.
Qed.

(** The movement tick of the sprinting robot without a Running clip:
    the robot is moved, Running is recorded, and the transition throws
    with the active action left undefined. *)
Lemma cf_sparse_tick :
  ClosedForm.updateRobotMovement cf_sparse_sprinting
  = (Throw (TypeError "cannot read properties of undefined"),
     ClosedForm.mkWorld
       (Some (ClosedForm.mkModel
                (newPos_of (Keys.new true false false false true) (Vector3.new 0 0 0))
                (targetRotation_of (Keys.new true false false false true))))
       (Keys.new true false false false true)
       (mkController (Some (mkMixer [])) (Some sparse_actions) None (Some walkingAction)
                     "Walking" "Running" [play walkingAction; fadeOut walkingAction 0.2])).
Proof.
  rewrite (ClosedFormFacts.tick_moving cf_sparse_sprinting
             (ClosedForm.mkModel (Vector3.new 0 0 0) 0)); [|reflexivity|].
  2:{ destruct (ClosedFormFacts.moveDirection_forward true) as [Hl _].
      cbn [ClosedForm.keys cf_sparse_sprinting]. rewrite Hl. lra. }
  rewrite ClosedFormFacts.liftC_eq.
  cbn [ClosedForm.ctl ClosedForm.set_model ClosedForm.keys cf_sparse_sprinting Keys.shift
       ClosedForm.model ClosedForm.position].
  assert (Hstate : movingState true sparse_controller
                   = (Throw (TypeError "cannot read properties of undefined"),
                      mkController (Some (mkMixer [])) (Some sparse_actions) None (Some walkingAction)
                                   "Walking" "Running" [play walkingAction; fadeOut walkingAction 0.2])).
  { unfold movingState. rewrite bind_gets.
    change (true && negb (currentMovement sparse_controller =? "Running")%string) with true.
    cbv iota. rewrite bind_modify.
    rewrite (fadeToAction_missing "Running" 0.2 _ sparse_actions walkingAction);
      [reflexivity|reflexivity|vm_compute; reflexivity|reflexivity]. }
  rewrite Hstate. reflexivity.
Qed.

(** C9 (what fails).  A frame of the sprinting robot without a Running
    clip: the exception raised inside the movement tick is the completion
    of [animate]; nothing catches it. *)
Lemma frame_exception_escapes :
  fst (ClosedForm.updateRobotMovement cf_sparse_sprinting)
  = Throw (TypeError "cannot read properties of undefined") /\
  fst (ClosedForm.animate (1 / 60) [] cf_sparse_sprinting)
  = Throw (TypeError "cannot read properties of undefined") /\
  ~ (forall (dt : R) (finished : list AnimationAction) (w : ClosedForm.World),
        exists w', ClosedForm.animate dt finished w = (Normal tt, w')).
Proof.
  assert (Hanim : fst (ClosedForm.animate (1 / 60) [] cf_sparse_sprinting)
                  = Throw (TypeError "cannot read properties of undefined")).
  { rewrite cf_animate_quiet, cf_sparse_tick. reflexivity. }
  split; [rewrite cf_sparse_tick; reflexivity|]. split; [exact Hanim|].
  intros Hcaught. destruct (Hcaught (1 / 60) [] cf_sparse_sprinting) as [w' Hw'].
  rewrite Hw' in Hanim. discriminate.
Qed.

(** C9 (as amended).  [animate] has no handler: an exception raised by
    the mixer update or by the movement tick is the completion of
    [animate], with the state as it was at the throw; in the tiled variant
    the camera step of that frame is not run.  Both variants. *)
Theorem frame_exception_propagates :
  (forall (dt : R) (finished : list AnimationAction) (w : ClosedForm.World) (e : Exception),
      (mixer (ClosedForm.ctl w) <> None ->
       fst (mixer_update dt finished (ClosedForm.ctl w)) = Throw e ->
       ClosedForm.animate dt finished w
       = (Throw e, ClosedForm.set_ctl (snd (mixer_update dt finished (ClosedForm.ctl w))) w)) /\
      (forall c',
          (mixer (ClosedForm.ctl w) = None /\ c' = ClosedForm.ctl w) \/
          (mixer (ClosedForm.ctl w) <> None /\
           mixer_update dt finished (ClosedForm.ctl w) = (Normal tt, c')) ->
          fst (ClosedForm.updateRobotMovement (ClosedForm.set_ctl c' w)) = Throw e ->
          ClosedForm.animate dt finished w
          = ClosedForm.updateRobotMovement (ClosedForm.set_ctl c' w))) /\
  (forall (T : Three) (dt : R) (finished : list AnimationAction) (w : Tiled.World) (e : Exception),
      (mixer (Tiled.ctl w) <> None ->
       fst (mixer_update dt finished (Tiled.ctl w)) = Throw e ->
       Tiled.animate dt finished w
       = (Throw e, Tiled.set_ctl (snd (mixer_update dt finished (Tiled.ctl w))) w)) /\
      (forall c',
          (mixer (Tiled.ctl w) = None /\ c' = Tiled.ctl w) \/
          (mixer (Tiled.ctl w) <> None /\
           mixer_update dt finished (Tiled.ctl w) = (Normal tt, c')) ->
          fst (Tiled.updateRobotMovement (Tiled.set_ctl c' w)) = Throw e ->
          Tiled.animate dt finished w = Tiled.updateRobotMovement (Tiled.set_ctl c' w) /\
          Tiled.camera (snd (Tiled.animate dt finished w)) = Tiled.camera w)).
Proof.
  split.
  - intros dt finished w e. split.
    + intros Hmx Hthrow. unfold ClosedForm.animate. rewrite bind_gets.
      destruct (mixer (ClosedForm.ctl w)) as [mx|]; [|congruence].
      apply bind_throw.
      rewrite ClosedFormFacts.liftC_eq, Hthrow. reflexivity.
    + intros c' Hc' Hthrow. unfold ClosedForm.animate. rewrite bind_gets.
      destruct Hc' as [[Hnone ->]|[Hsome Hupd]].
      * rewrite Hnone. unfold bind, ret.
        replace (ClosedForm.set_ctl (ClosedForm.ctl w) w) with w by (destruct w; reflexivity).
        reflexivity.
      * destruct (mixer (ClosedForm.ctl w)) as [mx|]; [|congruence].
        erewrite bind_normal; [reflexivity|].
        rewrite ClosedFormFacts.liftC_eq, Hupd. reflexivity.
  - intros T dt finished w e. split.
    + intros Hmx Hthrow. unfold Tiled.animate. rewrite bind_gets.
      destruct (mixer (Tiled.ctl w)) as [mx|]; [|congruence].
      apply bind_throw.
      rewrite tiled_liftC_eq, Hthrow. reflexivity.
    + intros c' Hc' Hthrow.
      assert (Hanim : Tiled.animate dt finished w
                      = Tiled.updateRobotMovement (Tiled.set_ctl c' w)).
      { destruct (Tiled.updateRobotMovement (Tiled.set_ctl c' w)) as [res w2] eqn:Htick.
        cbn [fst] in Hthrow. subst res.
        unfold Tiled.animate. rewrite bind_gets.
        destruct Hc' as [[Hnone ->]|[Hsome Hupd]].
        - rewrite Hnone.
          replace (Tiled.set_ctl (Tiled.ctl w) w) with w in Htick by (destruct w; reflexivity).
          rewrite (bind_normal _ _ w w tt) by reflexivity.
          now apply bind_throw.
        - destruct (mixer (Tiled.ctl w)) as [mx|]; [|congruence].
          erewrite bind_normal.
          2:{ rewrite tiled_liftC_eq, Hupd. reflexivity. }
          now apply bind_throw. }
      split; [exact Hanim|]. rewrite Hanim.
      (* the movement tick never writes the camera *)
      clear Hanim Hc'. set (w1 := Tiled.set_ctl c' w) in *.
      change (Tiled.camera w) with (Tiled.camera w1).
      destruct (Tiled.model w1) as [robot|] eqn:Hm.
      * destruct (Tiled.terrainTiles w1) as [|t ts] eqn:Ht.
        -- rewrite tiled_tick_unloaded by now right. reflexivity.
        -- destruct (Rlt_dec 0 (Vector3.length (camera_direction (Tiled.keys w1) (Tiled.camera w1))))
             as [Hl|Hl].
           ++ assert (Hne : Tiled.terrainTiles w1 <> []) by congruence.
              now destruct (tiled_tick_moving_state w1 robot Hm Hne Hl) as (_ & _ & Hcam & _).
           ++ assert (Hzero : Vector3.length (camera_direction (Tiled.keys w1) (Tiled.camera w1)) = 0).
              { pose proof (length_nonneg (camera_direction (Tiled.keys w1) (Tiled.camera w1))). lra. }
              rewrite (tiled_tick_idle w1 robot Hm) by (congruence || exact Hzero).
              rewrite tiled_liftC_eq. reflexivity.
      * rewrite tiled_tick_unloaded by now left. reflexivity.
Qed.

(** ** The statements at concrete scenes *)

Lemma sparse_running_throws :
  movingState true sparse_controller
  = (Throw (TypeError "cannot read properties of undefined"),
     mkController (Some (mkMixer [])) (Some sparse_actions) None (Some walkingAction)
                  "Walking" "Running" [play walkingAction; fadeOut walkingAction 0.2]).
Proof.
  unfold movingState. rewrite bind_gets.
  change (true && negb (currentMovement sparse_controller =? "Running")%string) with true.
  cbv iota. rewrite bind_modify.
  rewrite (fadeToAction_missing "Running" 0.2 _ sparse_actions walkingAction);
    [reflexivity|reflexivity|vm_compute; reflexivity|reflexivity].
Qed.

Lemma tiled_sparse_tick :
  fst (Tiled.updateRobotMovement tiled_sparse_sprinting)
  = Throw (TypeError "cannot read properties of undefined").
Proof.
  rewrite (tiled_tick_moving tiled_sparse_sprinting
             (@Tiled.mkModel (heightfield no_mesh) (Vector3.new 0 0 0) tt));
    [|reflexivity|discriminate|].
  2:{ cbn [Tiled.keys Tiled.camera tiled_sparse_sprinting].
      rewrite camera_north_forward. lra. }
  erewrite bind_throw; [reflexivity|].
  rewrite tiled_liftC_eq.
  cbn [Tiled.ctl Tiled.set_model Tiled.keys tiled_sparse_sprinting Keys.shift].
  rewrite sparse_running_throws. reflexivity.
Qed.

Lemma tangled_update_throws (dt : R) :
  mixer tangled_controller <> None /\
  fst (mixer_update dt [yesAction] tangled_controller)
  = Throw (TypeError "cannot read properties of undefined").
Proof.
  split.
  - intros Hnone. vm_compute in Hnone. discriminate.
  - unfold mixer_update. cbn [forOf]. unfold bind.
    assert (Hd : dispatchFinished tangled_controller
                 = (Throw (TypeError "cannot read properties of undefined"),
                    snd (dispatchFinished tangled_controller)))
      by (vm_compute; reflexivity).
    rewrite Hd. reflexivity.
Qed.

Lemma cf_forward_length (b : bool) :
  0 < Vector3.length (ClosedForm.moveDirection_of (ClosedForm.keys (cf_forward b))).
Proof.
  destruct (ClosedFormFacts.moveDirection_forward b) as [Hl _].
  cbn [cf_forward ClosedForm.keys ClosedForm.set_keys]. rewrite Hl. lra.
Qed.

Lemma tiled_forward_length (surfaces : R -> R -> list R) (b : bool) :
  0 < Vector3.length (camera_direction (Tiled.keys (tiled_forward surfaces b))
                                       (Tiled.camera (tiled_forward surfaces b))).
Proof.
  cbn [tiled_forward Tiled.keys Tiled.camera Tiled.set_keys tiled_loaded].
  rewrite camera_north_forward. lra.
Qed.

(** Opposing keys on the loaded standard robot, both variants. *)
Lemma opposing_keys_cancel_witness :
  (ClosedForm.model cf_loaded <> None /\
   ready (ClosedForm.ctl cf_loaded) /\
   currentMovement
     (ClosedForm.ctl
        (snd (ClosedForm.updateRobotMovement
                (ClosedForm.set_keys (Keys.new true false true false false) cf_loaded))))
   = "Idle" /\
   fst (ClosedForm.updateRobotMovement
          (ClosedForm.set_keys (Keys.new true false true false false) cf_loaded))
   = Normal tt) /\
  (Tiled.model (tiled_loaded no_mesh) <> None /\
   Tiled.terrainTiles (tiled_loaded no_mesh) <> [] /\
   ready (Tiled.ctl (tiled_loaded no_mesh)) /\
   currentMovement
     (Tiled.ctl
        (snd (Tiled.updateRobotMovement
                (Tiled.set_keys (Keys.new true false true false false) (tiled_loaded no_mesh)))))
   = "Idle" /\
   fst (Tiled.updateRobotMovement
          (Tiled.set_keys (Keys.new true false true false false) (tiled_loaded no_mesh)))
   = Normal tt).
Proof.
  destruct opposing_keys_cancel as [Hcf Htiled].
  assert (Hm : ClosedForm.model cf_loaded <> None) by discriminate.
  assert (Hmt : Tiled.model (tiled_loaded no_mesh) <> None) by discriminate.
  assert (Htiles : Tiled.terrainTiles (tiled_loaded no_mesh) <> []) by discriminate.
  split.
  - destruct (Hcf cf_loaded false false) as (_ & _ & _ & _ & Hidle & Hret & _).
    split; [exact Hm|]. split; [exact loaded_controller_ready|].
    split; [exact (Hidle Hm)|exact (Hret loaded_controller_ready)].
  - destruct (Htiled (heightfield no_mesh) (tiled_loaded no_mesh) false false)
      as (_ & _ & _ & _ & _ & _ & Hidle & Hret & _).
    split; [exact Hmt|]. split; [exact Htiles|]. split; [exact loaded_controller_ready|].
    split; [exact (Hidle Hmt Htiles)|exact (Hret loaded_controller_ready)].
Defined.

(** Sixty frames of walking forward from the origin. *)
Lemma forward_for_one_second_witness :
  ClosedForm.model (cf_forward false) = Some (ClosedForm.mkModel (Vector3.new 0 0 0) 0) /\
  ready (ClosedForm.ctl (cf_forward false)) /\
  ClosedForm.keys (cf_forward false) = Keys.new true false false false false /\
  Vector3.x (Vector3.new 0 0 0) = 0 /\
  Vector3.z (Vector3.new 0 0 0) = 0 /\
  fst (repeat_js 60 (ClosedForm.animate (1 / 60) []) (cf_forward false)) = Normal tt /\
  exists robot',
    ClosedForm.model (snd (repeat_js 60 (ClosedForm.animate (1 / 60) []) (cf_forward false)))
    = Some robot' /\
    Vector3.x (ClosedForm.position robot') = 0 /\
    Vector3.z (ClosedForm.position robot') = -6 /\
    currentMovement
      (ClosedForm.ctl (snd (repeat_js 60 (ClosedForm.animate (1 / 60) []) (cf_forward false))))
    = "Walking".
Proof.
  destruct (forward_for_one_second (cf_forward false) (ClosedForm.mkModel (Vector3.new 0 0 0) 0)
              eq_refl loaded_controller_ready eq_refl eq_refl eq_refl)
    as (Hret & robot' & Hm & Hx & _ & Hz & _ & Hcm).
  split; [reflexivity|]. split; [exact loaded_controller_ready|].
  split; [reflexivity|]. split; [reflexivity|]. split; [reflexivity|].
  split; [exact Hret|]. exists robot'. auto.
Defined.

(** A scene without mesh: every ray misses. *)
Lemma ray_miss_gives_zero_witness :
  Tiled.model (tiled_forward no_mesh false)
  = Some (@Tiled.mkModel (heightfield no_mesh) (Vector3.new 0 0 0) tt) /\
  Tiled.terrainTiles (tiled_forward no_mesh false) <> [] /\
  0 < Vector3.length (camera_direction (Tiled.keys (tiled_forward no_mesh false))
                                       (Tiled.camera (tiled_forward no_mesh false))) /\
  all_hits (H := heightfield no_mesh) grid_tiles (Vector3.new 0 20 0) = [] /\
  ready (Tiled.ctl (tiled_forward no_mesh false)) /\
  Tiled.groundHeight (H := heightfield no_mesh) grid_tiles (Vector3.new 0 0 0) = 0 /\
  (exists robot',
      Tiled.model (exec Tiled.updateRobotMovement (tiled_forward no_mesh false)) = Some robot' /\
      Vector3.y (Tiled.position robot') = 0) /\
  fst (Tiled.updateRobotMovement (tiled_forward no_mesh false)) = Normal tt /\
  fst (Tiled.spawn (tiled_forward no_mesh false)) = Normal tt.
Proof.
  destruct (ray_miss_gives_zero (heightfield no_mesh)) as (Hquery & Htick & Hspawn).
  assert (Htiles : Tiled.terrainTiles (tiled_forward no_mesh false) <> []) by discriminate.
  assert (Hmiss : forall origin, all_hits (H := heightfield no_mesh) grid_tiles origin = [])
    by (intros; reflexivity).
  destruct (Htick (tiled_forward no_mesh false) _ eq_refl Htiles
                  (tiled_forward_length no_mesh false) (Hmiss _))
    as ((robot' & Hm & Hpos) & Hret).
  split; [reflexivity|]. split; [exact Htiles|].
  split; [exact (tiled_forward_length no_mesh false)|]. split; [exact (Hmiss _)|].
  split; [exact loaded_controller_ready|].
  split; [exact (Hquery grid_tiles (Vector3.new 0 0 0) (Hmiss _))|].
  split; [exists robot'; split; [exact Hm|rewrite Hpos; reflexivity]|].
  split; [exact (Hret loaded_controller_ready)|].
  rewrite (Hspawn (tiled_forward no_mesh false) _ eq_refl (Hmiss _)). reflexivity.
Defined.

(** Recentering the grid around the robot at the origin, twice. *)
Lemma repositionTerrain_idempotent_witness :
  Tiled.model (tiled_loaded skirted)
  = Some (@Tiled.mkModel (heightfield skirted) (Vector3.new 0 0 0) tt) /\
  Tiled.repositionTerrain (exec Tiled.repositionTerrain (tiled_loaded skirted))
  = (Normal tt, exec Tiled.repositionTerrain (tiled_loaded skirted)) /\
  List.length (Tiled.terrainTiles (exec Tiled.repositionTerrain (tiled_loaded skirted)))
  = 9%nat.
Proof.
  destruct (repositionTerrain_idempotent (tiled_loaded skirted) _ eq_refl)
    as (_ & Hsecond & _ & Hlen & _).
  split; [reflexivity|]. split; [exact Hsecond|]. rewrite Hlen. reflexivity.
Defined.

(** Frames that throw: in the mixer update (tangled controller) and in
    the movement tick (robot without a Running clip). *)
Lemma frame_exception_propagates_witness :
  (mixer (ClosedForm.ctl cf_tangled) <> None /\
   fst (mixer_update (1 / 60) [yesAction] (ClosedForm.ctl cf_tangled))
   = Throw (TypeError "cannot read properties of undefined") /\
   fst (ClosedForm.animate (1 / 60) [yesAction] cf_tangled)
   = Throw (TypeError "cannot read properties of undefined")) /\
  (mixer (ClosedForm.ctl cf_sparse_sprinting) <> None /\
   mixer_update (1 / 60) [] (ClosedForm.ctl cf_sparse_sprinting) = (Normal tt, sparse_controller) /\
   fst (ClosedForm.updateRobotMovement (ClosedForm.set_ctl sparse_controller cf_sparse_sprinting))
   = Throw (TypeError "cannot read properties of undefined") /\
   fst (ClosedForm.animate (1 / 60) [] cf_sparse_sprinting)
   = Throw (TypeError "cannot read properties of undefined")) /\
  (mixer (Tiled.ctl tiled_tangled) <> None /\
   fst (mixer_update (1 / 60) [yesAction] (Tiled.ctl tiled_tangled))
   = Throw (TypeError "cannot read properties of undefined") /\
   fst (Tiled.animate (1 / 60) [yesAction] tiled_tangled)
   = Throw (TypeError "cannot read properties of undefined")) /\
  (mixer (Tiled.ctl tiled_sparse_sprinting) <> None /\
   mixer_update (1 / 60) [] (Tiled.ctl tiled_sparse_sprinting) = (Normal tt, sparse_controller) /\
   fst (Tiled.updateRobotMovement (Tiled.set_ctl sparse_controller tiled_sparse_sprinting))
   = Throw (TypeError "cannot read properties of undefined") /\
   fst (Tiled.animate (1 / 60) [] tiled_sparse_sprinting)
   = Throw (TypeError "cannot read properties of undefined") /\
   Tiled.camera (snd (Tiled.animate (1 / 60) [] tiled_sparse_sprinting)) = camera_north).
Proof.
  destruct frame_exception_propagates as [Hcf Htiled].
  destruct (tangled_update_throws (1 / 60)) as [Hmx Hthrow].
  assert (Hsparse : mixer sparse_controller <> None) by discriminate.
  assert (Hcftick : fst (ClosedForm.updateRobotMovement
                           (ClosedForm.set_ctl sparse_controller cf_sparse_sprinting))
                    = Throw (TypeError "cannot read properties of undefined"))
    by (change (ClosedForm.set_ctl sparse_controller cf_sparse_sprinting) with cf_sparse_sprinting;
        rewrite cf_sparse_tick; reflexivity).
  assert (Htick : fst (Tiled.updateRobotMovement
                         (Tiled.set_ctl sparse_controller tiled_sparse_sprinting))
                  = Throw (TypeError "cannot read properties of undefined"))
    by exact tiled_sparse_tick.
  split; [|split; [|split]].
  - destruct (Hcf (1 / 60) [yesAction] cf_tangled (TypeError "cannot read properties of undefined"))
      as [Hupdate _].
    split; [exact Hmx|]. split; [exact Hthrow|].
    rewrite (Hupdate Hmx Hthrow). reflexivity.
  - destruct (Hcf (1 / 60) [] cf_sparse_sprinting (TypeError "cannot read properties of undefined"))
      as [_ Hmove].
    split; [exact Hsparse|]. split; [reflexivity|]. split; [exact Hcftick|].
    rewrite (Hmove sparse_controller (or_intror (conj Hsparse eq_refl)) Hcftick).
    exact Hcftick.
  - destruct (Htiled (heightfield no_mesh) (1 / 60) [yesAction] tiled_tangled
                     (TypeError "cannot read properties of undefined")) as [Hupdate _].
    split; [exact Hmx|]. split; [exact Hthrow|].
    rewrite (Hupdate Hmx Hthrow). reflexivity.
  - destruct (Htiled (heightfield no_mesh) (1 / 60) [] tiled_sparse_sprinting
                     (TypeError "cannot read properties of undefined")) as [_ Hmove].
    destruct (Hmove sparse_controller (or_intror (conj Hsparse eq_refl)) Htick) as [Hanim Hcam].
    split; [exact Hsparse|]. split; [reflexivity|]. split; [exact Htick|].
    split; [rewrite Hanim; exact Htick|exact Hcam].
Defined.

(** Loading the standard robot, then keys without net direction and a
    frame. *)
Lemma walking_animation_while_idle_witness :
  (ClosedForm.ctl ClosedForm.initialWorld = initialController /\
   fst (ClosedForm.handle
          (ClosedForm.ModelLoaded (ClosedForm.mkModel (Vector3.new 0 0 0) 0) standard_clips (Some []))
          ClosedForm.initialWorld) = Normal tt /\
   cf_quiet [ClosedForm.KeyDown "Shift"; ClosedForm.KeyDown "w"; ClosedForm.KeyDown "S";
             ClosedForm.AnimationFrame (1 / 60) [jumpAction]] cf_loaded /\
   activeAction
     (ClosedForm.ctl
        (snd (forOf [ClosedForm.KeyDown "Shift"; ClosedForm.KeyDown "w"; ClosedForm.KeyDown "S";
                     ClosedForm.AnimationFrame (1 / 60) [jumpAction]]
                    ClosedForm.handle cf_loaded)))
   = Some walkingAction /\
   currentMovement
     (ClosedForm.ctl
        (snd (forOf [ClosedForm.KeyDown "Shift"; ClosedForm.KeyDown "w"; ClosedForm.KeyDown "S";
                     ClosedForm.AnimationFrame (1 / 60) [jumpAction]]
                    ClosedForm.handle cf_loaded)))
   = "Idle") /\
  (Tiled.ctl (Tiled.set_terrainTiles grid_tiles
                (@Tiled.initialWorld (heightfield no_mesh) camera_north)) = initialController /\
   tiled_quiet [Tiled.KeyDown "a"; Tiled.KeyDown "D"; Tiled.SpawnTimer;
                Tiled.AnimationFrame (1 / 60) [jumpAction]] (tiled_loaded no_mesh) /\
   activeAction
     (Tiled.ctl
        (snd (forOf [Tiled.KeyDown "a"; Tiled.KeyDown "D"; Tiled.SpawnTimer;
                     Tiled.AnimationFrame (1 / 60) [jumpAction]]
                    Tiled.handle (tiled_loaded no_mesh))))
   = Some walkingAction /\
   currentMovement
     (Tiled.ctl
        (snd (forOf [Tiled.KeyDown "a"; Tiled.KeyDown "D"; Tiled.SpawnTimer;
                     Tiled.AnimationFrame (1 / 60) [jumpAction]]
                    Tiled.handle (tiled_loaded no_mesh))))
   = "Idle").
Proof.
  destruct walking_animation_while_idle as [Hcf Htiled].
  split.
  - assert (Hload : ClosedForm.handle
                      (ClosedForm.ModelLoaded (ClosedForm.mkModel (Vector3.new 0 0 0) 0)
                                              standard_clips (Some []))
                      ClosedForm.initialWorld = (Normal tt, cf_loaded)) by exact cf_loaded_built.
    assert (Hquiet : cf_quiet [ClosedForm.KeyDown "Shift"; ClosedForm.KeyDown "w";
                               ClosedForm.KeyDown "S";
                               ClosedForm.AnimationFrame (1 / 60) [jumpAction]] cf_loaded).
    { cbn [cf_quiet cf_quiet_event].
      split; [discriminate|]. split; [discriminate|]. split; [discriminate|].
      split; [split; reflexivity|exact I]. }
    pose proof (Hcf ClosedForm.initialWorld (ClosedForm.mkModel (Vector3.new 0 0 0) 0)
                    standard_clips (Some [])
                    [ClosedForm.KeyDown "Shift"; ClosedForm.KeyDown "w"; ClosedForm.KeyDown "S";
                     ClosedForm.AnimationFrame (1 / 60) [jumpAction]] eq_refl) as Hrun.
    cbv zeta in Hrun. rewrite Hload in Hrun. cbn [fst snd] in Hrun.
    destruct (Hrun eq_refl Hquiet) as (_ & Hact & _ & Hcm & _).
    split; [reflexivity|]. split; [rewrite Hload; reflexivity|]. split; [exact Hquiet|].
    split; [exact Hact|exact Hcm].
  - set (w0 := Tiled.set_terrainTiles grid_tiles
                 (@Tiled.initialWorld (heightfield no_mesh) camera_north)).
    assert (Hload : Tiled.handle
                      (Tiled.ModelLoaded (@Tiled.mkModel (heightfield no_mesh) (Vector3.new 0 0 0) tt)
                                         standard_clips (Some [])) w0
                    = (Normal tt, tiled_loaded no_mesh)).
    { unfold Tiled.handle. rewrite bind_modify, tiled_liftC_eq.
      cbn [Tiled.ctl Tiled.set_model Tiled.set_terrainTiles Tiled.initialWorld w0].
      rewrite createGUI_standard. reflexivity. }
    assert (Hquiet : tiled_quiet [Tiled.KeyDown "a"; Tiled.KeyDown "D"; Tiled.SpawnTimer;
                                  Tiled.AnimationFrame (1 / 60) [jumpAction]]
                                 (tiled_loaded no_mesh)).
    { cbn [tiled_quiet tiled_quiet_event].
      split; [discriminate|]. split; [discriminate|]. split; [exact I|].
      split; [split; reflexivity|exact I]. }
    pose proof (Htiled (heightfield no_mesh) w0
                       (@Tiled.mkModel (heightfield no_mesh) (Vector3.new 0 0 0) tt)
                       standard_clips (Some [])
                       [Tiled.KeyDown "a"; Tiled.KeyDown "D"; Tiled.SpawnTimer;
                        Tiled.AnimationFrame (1 / 60) [jumpAction]] eq_refl) as Hrun.
    cbv zeta in Hrun. rewrite Hload in Hrun. cbn [fst snd] in Hrun.
    destruct (Hrun eq_refl Hquiet) as (_ & Hact & _ & Hcm & _).
    split; [reflexivity|]. split; [exact Hquiet|]. split; [exact Hact|exact Hcm].
Defined.

(** * Further properties *)

(** ** Transitions of the animation controller *)

(** The three ways a call of [fadeToAction] can go once [actions]
    exists. *)
Lemma fadeToAction_cases (name : string) (duration : R) (c : Controller)
      (m : gmap string AnimationAction) :
  actions c = Some m ->
  let r := fadeToAction name duration c in
  (activeAction c = m !! name /\ r = (Normal tt, c)) \/
  (activeAction c <> m !! name /\
   ((exists p a, activeAction c = Some p /\ m !! name = Some a /\ fst r = Normal tt /\
                 exists more, calls (snd r) = (calls c ++ more)%list) \/
    ((activeAction c = None \/ m !! name = None) /\
     fst r = Throw (TypeError "cannot read properties of undefined") /\
     exists more, calls (snd r) = (calls c ++ more)%list))).
Proof.
  intros Hact r.
  destruct (decide (activeAction c = m !! name)) as [E|E].
  - left. split; [exact E|]. now apply (fadeToAction_same name duration c m).
  - right. split; [exact E|].
    destruct (activeAction c) as [p|] eqn:Hp; destruct (m !! name) as [a|] eqn:Hn.
    + left. exists p, a. unfold r.
      rewrite (fadeToAction_switch name duration c m p a) by (assumption || congruence).
      cbn. repeat split; eauto.
    + right. unfold r. rewrite (fadeToAction_missing name duration c m p) by assumption.
      cbn. split; [now right|]. split; [reflexivity|eauto].
    + right. split; [now left|]. unfold r. js_unfold. rewrite Hact, Hp, Hn. cbn.
      destruct (decide (None = Some a)) as [E'|_]; [discriminate|]. cbn.
      split; [reflexivity|]. exists []. now rewrite app_nil_r.
    + congruence.
Qed.

(** After the call the active action is [actions[name]], also when the
    call threw. *)
Lemma fadeToAction_active (name : string) (duration : R) (c : Controller)
      (m : gmap string AnimationAction) :
  actions c = Some m ->
  activeAction (snd (fadeToAction name duration c)) = m !! name.
Proof.
  intros Hact. js_unfold. rewrite Hact. cbn.
  destruct (decide (activeAction c = m !! name)) as [E|E]; cbn; [exact E|].
  destruct (activeAction c); destruct (m !! name); cbn; reflexivity.
Qed.

(** X1.  Once [actions] exists, [fadeToAction (name)] leaves the active
    action equal to [actions[name]] whether it returns or throws, and an
    immediate second call for the same name, with any duration, returns
    without changing anything. *)
Theorem fadeToAction_settles (name : string) (duration duration' : R) (c : Controller)
        (m : gmap string AnimationAction) :
  actions c = Some m ->
  let c' := snd (fadeToAction name duration c) in
  activeAction c' = m !! name /\
  actions c' = Some m /\
  fadeToAction name duration' c' = (Normal tt, c').
Proof.
  intros Hact c'.
  assert (Hactive : activeAction c' = m !! name)
    by now apply fadeToAction_active.
  assert (Hact' : actions c' = Some m).
  { destruct (fadeToAction_frame name duration c) as (_ & Ha & _). unfold c'. now rewrite Ha. }
  split; [exact Hactive|]. split; [exact Hact'|].
  now apply (fadeToAction_same name duration' c' m).
Qed.

(** X2.  Once [actions] exists, [fadeToAction (name)] throws exactly when
    the active action and [actions[name]] differ and one of the two is
    undefined (a missing clip, or nothing active yet).  It is a no-op
    exactly when the two are equal.  In every case the mixer with its
    listeners, [actions], [api.state] and [currentMovement] stay as they
    were and the calls made so far stay on record. *)
Theorem fadeToAction_throws_iff (name : string) (duration : R) (c : Controller)
        (m : gmap string AnimationAction) :
  actions c = Some m ->
  let r := fadeToAction name duration c in
  (fst r = Throw (TypeError "cannot read properties of undefined") <->
   activeAction c <> m !! name /\ (activeAction c = None \/ m !! name = None)) /\
  (fst r = Normal tt <->
   activeAction c = m !! name \/ (is_Some (activeAction c) /\ is_Some (m !! name))) /\
  (activeAction c = m !! name -> snd r = c) /\
  mixer (snd r) = mixer c /\ actions (snd r) = actions c /\
  api_state (snd r) = api_state c /\ currentMovement (snd r) = currentMovement c /\
  (exists more, calls (snd r) = (calls c ++ more)%list).
Proof.
  intros Hact r.
  destruct (fadeToAction_frame name duration c) as (Hmx & Ha & Hapi & Hcm). fold r in Hmx, Ha, Hapi, Hcm.
  pose proof (fadeToAction_cases name duration c m Hact) as Hcases. cbv zeta in Hcases.
  fold r in Hcases.
  split; [|split; [|split]].
  - split.
    + intros Hthrow. destruct Hcases as [[E Hr]|[E [(p & a & Hp & Hn & Hret & _)|(Hundef & _)]]].
      * rewrite Hr in Hthrow. discriminate.
      * rewrite Hret in Hthrow. discriminate.
      * auto.
    + intros [E Hundef]. destruct Hcases as [[E' _]|[_ [(p & a & Hp & Hn & _)|(_ & Hthrow & _)]]].
      * contradiction.
      * destruct Hundef as [H0|H0]; congruence.
      * exact Hthrow.
  - split.
    + intros Hret. destruct Hcases as [[E _]|[E [(p & a & Hp & Hn & _)|(_ & Hthrow & _)]]].
      * now left.
      * right. rewrite Hp. eauto.
      * rewrite Hthrow in Hret. discriminate.
    + intros Hok. destruct Hcases as [[E Hr]|[E [(p & a & Hp & Hn & Hret & _)|(Hundef & _)]]].
      * now rewrite Hr.
      * exact Hret.
      * destruct Hok as [Hok|[[p Hp] [a Hn]]]; [contradiction|].
        destruct Hundef as [H0|H0]; congruence.
  - intros E. destruct Hcases as [[_ Hr]|[E' _]]; [now rewrite Hr|contradiction].
  - repeat split; auto.
    destruct Hcases as [[_ Hr]|[_ [(p & a & _ & _ & _ & Hmore)|(_ & _ & Hmore)]]]; auto.
    rewrite Hr. exists []. cbn. now rewrite app_nil_r.
Qed.

(** ** What [createGUI] builds *)

Lemma clip_fold_lookup_in (animations : list string) :
  forall (m : gmap string AnimationAction) (name : string),
    fold_left (fun m clip => <[clip := clipAction clip]> m) animations m !! name
    = if decide (name ∈ animations) then Some (clipAction name) else m !! name.
Proof.
  induction animations as [|clip rest IH]; intros m name; cbn [fold_left].
  - destruct (decide (name ∈ [])) as [Hin|_]; [|reflexivity]. now apply elem_of_nil in Hin.
  - rewrite IH.
    destruct (decide (name ∈ rest)) as [Hin|Hout].
    + destruct (decide (name ∈ clip :: rest)) as [_|Hn]; [reflexivity|].
      exfalso. apply Hn. now right.
    + destruct (decide (clip = name)) as [->|Hne].
      * rewrite lookup_insert_eq.
        destruct (decide (name ∈ name :: rest)) as [_|Hn]; [reflexivity|].
        exfalso. apply Hn. now left.
      * rewrite lookup_insert_ne by exact Hne.
        destruct (decide (name ∈ clip :: rest)) as [Hin|_]; [|reflexivity].
        apply elem_of_cons in Hin. destruct Hin as [->|Hin]; contradiction.
Qed.

(** The loop policy of a clip, by its name. *)
Lemma clipAction_policy (name : string) :
  (In name emotes \/ In name once_states -> clipAction name = mkAction name true LoopOnce) /\
  (~ (In name emotes \/ In name once_states) -> clipAction name = mkAction name false LoopRepeat).
Proof.
  unfold clipAction, includes, indexOf, emotes, states, once_states.
  cbn [indexOf_from In].
  repeat match goal with
         | |- context [String.eqb ?a name] =>
             destruct (String.eqb_spec a name) as [<-|?]
         end;
    cbn; (split; [intros _; reflexivity | intros Hn; exfalso; apply Hn; tauto])
         || (split; [intros H; exfalso; intuition congruence | intros _; reflexivity]).
Qed.

(** X3.  Whatever the clips and whether or not [createGUI] returns, it
    leaves in [actions] exactly one action per clip name (a name that
    occurs twice has one entry).  The action of an emote (Jump, Yes, No,
    Wave, Punch, ThumbsUp) and of Death, Sitting and Standing plays once
    and clamps; the action of every other clip, Idle, Walking, Running and
    Dance among them, repeats and does not clamp. *)
Theorem createGUI_actions (animations : list string) (face : option (list string)) :
  exists m : gmap string AnimationAction,
    actions (snd (createGUI animations face initialController)) = Some m /\
    (forall name, In name animations -> m !! name = Some (clipAction name)) /\
    (forall name, ~ In name animations -> m !! name = None) /\
    (forall name a, m !! name = Some a ->
        clipName a = name /\
        (In name emotes \/ In name once_states ->
         clampWhenFinished a = true /\ loop a = LoopOnce) /\
        (~ (In name emotes \/ In name once_states) ->
         clampWhenFinished a = false /\ loop a = LoopRepeat)).
Proof.
  exists (fold_left (fun m clip => <[clip := clipAction clip]> m) animations
                    (∅ : gmap string AnimationAction)).
  assert (Hlook : forall name,
             fold_left (fun m clip => <[clip := clipAction clip]> m) animations
                       (∅ : gmap string AnimationAction) !! name
             = if decide (name ∈ animations) then Some (clipAction name) else None).
  { intros name. rewrite clip_fold_lookup_in. now rewrite lookup_empty. }
  split; [|split; [|split]].
  - rewrite createGUI_eq. cbv zeta. destruct face as [targets|]; [|reflexivity].
    destruct (fold_left _ animations ∅ !! "Walking"); reflexivity.
  - intros name Hin. rewrite Hlook.
    destruct (decide (name ∈ animations)) as [_|Hn]; [reflexivity|].
    exfalso. apply Hn. now apply list_elem_of_In.
  - intros name Hout. rewrite Hlook.
    destruct (decide (name ∈ animations)) as [Hin|_]; [|reflexivity].
    exfalso. apply Hout. now apply list_elem_of_In.
  - intros name a Ha. rewrite Hlook in Ha.
    destruct (decide (name ∈ animations)) as [_|_]; [|discriminate].
    injection Ha as <-. destruct (clipAction_policy name) as [Honce Hrepeat].
    split; [|split].
    + unfold clipAction. now destruct (_ || _).
    + intros Hn. now rewrite (Honce Hn).
    + intros Hn. now rewrite (Hrepeat Hn).
Qed.

(** X4.  [createGUI] returns exactly when the model has the object
    'Head_4' and a clip named Walking; it then has started that clip and
    nothing else.  Otherwise it throws with no action active and no call
    made.  Either way a fresh mixer without listeners is in place,
    the recorded locomotion state is 'Idle' and [api.state] is
    'Walking'. *)
Theorem createGUI_returns_iff (animations : list string) (face : option (list string)) :
  let r := createGUI animations face initialController in
  (fst r = Normal tt <-> face <> None /\ In "Walking" animations) /\
  (fst r = Normal tt ->
   activeAction (snd r) = Some walkingAction /\ calls (snd r) = [play walkingAction]) /\
  (fst r <> Normal tt ->
   fst r = Throw (TypeError "cannot read properties of undefined") /\
   activeAction (snd r) = None /\ calls (snd r) = []) /\
  mixer (snd r) = Some (mkMixer []) /\
  previousAction (snd r) = None /\
  currentMovement (snd r) = "Idle" /\
  api_state (snd r) = "Walking".
Proof.
  intros r. unfold r. rewrite createGUI_eq. cbv zeta.
  rewrite clip_fold_lookup_in, lookup_empty.
  destruct face as [targets|].
  - destruct (decide ("Walking" ∈ animations)) as [Hin|Hout]; cbn.
    + apply list_elem_of_In in Hin.
      repeat split; auto; try discriminate; try congruence.
    + assert (Hnot : ~ In "Walking" animations)
        by (intros Hin; apply Hout; now apply list_elem_of_In).
      repeat split; auto; try discriminate; try congruence; tauto.
  - cbn. repeat split; auto; try discriminate; try congruence; tauto.
Qed.

(** ** The return from an overlay *)

Lemma restoreState_fade (c : Controller) (mx : AnimationMixer) :
  mixer c = Some mx ->
  restoreState c
  = fadeToAction (currentMovement c) 0.2
                 (set_mixer (Some (removeEventListener restoreState_listener mx)) c).
Proof.
  intros Hmx. unfold restoreState, on_mixer, bind, gets, modify. rewrite Hmx. reflexivity.
Qed.

Lemma restoreState_disarms (c : Controller) (mx : AnimationMixer) :
  mixer c = Some mx ->
  mixer (snd (restoreState c))
  = Some (removeEventListener restoreState_listener mx).
Proof.
  intros Hmx. rewrite (restoreState_fade c mx Hmx).
  now destruct (fadeToAction_frame (currentMovement c) 0.2
                  (set_mixer (Some (removeEventListener restoreState_listener mx)) c))
    as (Hm & _).
Qed.

(** X5.  With the listener armed once, the mixer update in which one or
    several actions finish runs [restoreState] exactly once: the update
    is that one call (same completion, same state), and the listener is
    off afterwards even when the call threw, so a later update finds
    nothing to run. *)
Theorem one_arming_one_restore (dt dt' : R) (first : AnimationAction)
        (rest later : list AnimationAction) (c : Controller) :
  mixer c = Some (mkMixer [restoreState_listener]) ->
  let c' := snd (mixer_update dt (first :: rest) c) in
  mixer_update dt (first :: rest) c = restoreState c /\
  listeners_of c' = [] /\
  mixer_update dt' later c' = (Normal tt, c').
Proof.
  intros Hmx c'.
  assert (Hoff : mixer (snd (restoreState c)) = Some (mkMixer []))
    by (rewrite (restoreState_disarms c _ Hmx); reflexivity).
  assert (Hupd : mixer_update dt (first :: rest) c = restoreState c).
  { unfold mixer_update. cbn [forOf]. unfold dispatchFinished at 1.
    unfold bind at 1. rewrite bind_gets, Hmx. cbn [finishedListeners forOf run_listener].
    unfold bind at 1.
    destruct (restoreState c) as [[[]|e] c1] eqn:Hr; cbn [snd] in Hoff.
    - unfold ret at 1. apply (mixer_update_no_listener dt rest c1 Hoff).
    - reflexivity. }
  split; [exact Hupd|].
  unfold c'. rewrite Hupd. split.
  - unfold listeners_of. now rewrite Hoff.
  - now apply mixer_update_no_listener.
Qed.

(** X6.  [restoreState] goes to the locomotion state recorded when the
    overlay finishes, not to the one recorded when it started: afterwards
    the active action is [actions[currentMovement]] for the current value
    of [currentMovement], which the call does not change; it returns
    exactly when that action is active already or both it and the active
    action exist. *)
Theorem restore_targets_current_state (c : Controller) (m : gmap string AnimationAction)
        (mx : AnimationMixer) :
  actions c = Some m ->
  mixer c = Some mx ->
  let r := restoreState c in
  activeAction (snd r) = m !! currentMovement c /\
  currentMovement (snd r) = currentMovement c /\
  actions (snd r) = Some m /\
  (fst r = Normal tt <->
   activeAction c = m !! currentMovement c \/
   (is_Some (activeAction c) /\ is_Some (m !! currentMovement c))).
Proof.
  intros Hact Hmx r. unfold r. rewrite (restoreState_fade c mx Hmx).
  set (c1 := set_mixer (Some (removeEventListener restoreState_listener mx)) c).
  assert (Hact1 : actions c1 = Some m) by exact Hact.
  destruct (fadeToAction_frame (currentMovement c) 0.2 c1) as (_ & Ha & _ & Hcm).
  split; [now apply fadeToAction_active|]. split; [exact Hcm|]. split; [now rewrite Ha|].
  pose proof (fadeToAction_cases (currentMovement c) 0.2 c1 m Hact1) as Hcases.
  cbv zeta in Hcases. change (activeAction c1) with (activeAction c) in Hcases.
  split.
  - intros Hret. destruct Hcases as [[E _]|[E [(p & a & Hp & Hn & _)|(_ & Hthrow & _)]]].
    + now left.
    + right. rewrite Hp, Hn. eauto.
    + rewrite Hthrow in Hret. discriminate.
  - intros Hok. destruct Hcases as [[E Hr]|[E [(p & a & Hp & Hn & Hret & _)|(Hundef & _)]]].
    + now rewrite Hr.
    + exact Hret.
    + destruct Hok as [Hok|[[p Hp] [a Hn]]]; [contradiction|].
      destruct Hundef as [H0|H0]; congruence.
Qed.

(** ** How handlers compose *)

Lemma bind_invariant {S A B} (P : S -> Prop) (c : JS S A) (k : A -> JS S B) (s : S) :
  P (snd (c s)) ->
  (forall a s', P s' -> P (snd (k a s'))) ->
  P (snd (bind c k s)).
Proof.
  intros Hc Hk. unfold bind. destruct (c s) as [[a|e] s']; cbn [snd] in *; auto.
Qed.

Lemma forOf_invariant {S A} (P : S -> Prop) (l : list A) (body : A -> JS S unit) :
  (forall x s, P s -> P (snd (body x s))) ->
  forall s, P s -> P (snd (forOf l body s)).
Proof.
  intros Hbody. induction l as [|x l IH]; intros s Hs; cbn [forOf]; [exact Hs|].
  apply bind_invariant; auto.
Qed.

Lemma movingState_eq (shift : bool) (c : Controller) :
  movingState shift c
  = if String.eqb (currentMovement c) (locomotion_of true shift) then (Normal tt, c)
    else fadeToAction (locomotion_of true shift) 0.2
                      (set_currentMovement (locomotion_of true shift) c).
Proof.
  unfold movingState, bind, gets, modify. destruct shift; cbn [locomotion_of andb negb];
    destruct (String.eqb (currentMovement c) _); reflexivity.
Qed.

Lemma idleState_eq (c : Controller) :
  idleState c
  = if String.eqb (currentMovement c) "Idle" then (Normal tt, c)
    else fadeToAction "Idle" 0.2 (set_currentMovement "Idle" c).
Proof.
  unfold idleState, bind, gets, modify.
  destruct (String.eqb (currentMovement c) "Idle"); reflexivity.
Qed.

(** The three ways a movement tick of the closed-form variant can go. *)
Lemma cf_tick_cases (w : ClosedForm.World) :
  (ClosedForm.model w = None /\ ClosedForm.updateRobotMovement w = (Normal tt, w)) \/
  (exists robot,
      ClosedForm.model w = Some robot /\
      Vector3.length (ClosedForm.moveDirection_of (ClosedForm.keys w)) = 0 /\
      ClosedForm.updateRobotMovement w = ClosedForm.liftC idleState w) \/
  (exists robot,
      ClosedForm.model w = Some robot /\
      0 < Vector3.length (ClosedForm.moveDirection_of (ClosedForm.keys w)) /\
      ClosedForm.updateRobotMovement w
      = ClosedForm.liftC (movingState (Keys.shift (ClosedForm.keys w)))
          (ClosedForm.set_model
             (Some (ClosedForm.mkModel (newPos_of (ClosedForm.keys w) (ClosedForm.position robot))
                                       (targetRotation_of (ClosedForm.keys w)))) w)).
Proof.
  destruct (ClosedForm.model w) as [robot|] eqn:Hm.
  - right.
    destruct (Rlt_dec 0 (Vector3.length (ClosedForm.moveDirection_of (ClosedForm.keys w))))
      as [Hl|Hl].
    + right. exists robot. split; [reflexivity|]. split; [exact Hl|].
      now apply (ClosedFormFacts.tick_moving w robot).
    + left. exists robot. split; [reflexivity|].
      assert (Hz : Vector3.length (ClosedForm.moveDirection_of (ClosedForm.keys w)) = 0)
        by (pose proof (length_nonneg (ClosedForm.moveDirection_of (ClosedForm.keys w))); lra).
      split; [exact Hz|]. now apply (ClosedFormFacts.tick_idle w robot).
  - left. split; [reflexivity|]. now apply ClosedFormFacts.tick_unloaded.
Qed.

Lemma cf_animate_eq (dt : R) (finished : list AnimationAction) (w : ClosedForm.World) :
  ClosedForm.animate dt finished w
  = match mixer (ClosedForm.ctl w) with
    | Some _ => bind (ClosedForm.liftC (mixer_update dt finished))
                     (fun _ => ClosedForm.updateRobotMovement) w
    | None => ClosedForm.updateRobotMovement w
    end.
Proof.
  unfold ClosedForm.animate. rewrite bind_gets.
  destruct (mixer (ClosedForm.ctl w)); reflexivity.
Qed.

Section TiledShapes.
Context `{Three}.

(** The ways a movement tick of the tiled variant can go. *)
Lemma tiled_tick_cases (w : Tiled.World) :
  ((Tiled.model w = None \/ Tiled.terrainTiles w = []) /\
   Tiled.updateRobotMovement w = (Normal tt, w)) \/
  (exists robot,
      Tiled.model w = Some robot /\ Tiled.terrainTiles w <> [] /\
      Vector3.length (camera_direction (Tiled.keys w) (Tiled.camera w)) = 0 /\
      Tiled.updateRobotMovement w = Tiled.liftC idleState w) \/
  (exists robot,
      Tiled.model w = Some robot /\ Tiled.terrainTiles w <> [] /\
      0 < Vector3.length (camera_direction (Tiled.keys w) (Tiled.camera w)) /\
      Tiled.updateRobotMovement w
      = (Tiled.liftC (movingState (Keys.shift (Tiled.keys w))) ;; Tiled.repositionTerrain)
          (Tiled.set_model
             (Some (Tiled.mkModel
                      (tiled_newPos (Tiled.keys w) (Tiled.camera w) (Tiled.terrainTiles w)
                                    (Tiled.position robot))
                      (tiled_quaternion (Tiled.keys w) (Tiled.camera w) (Tiled.quaternion robot))))
             w)).
Proof.
  destruct (Tiled.model w) as [robot|] eqn:Hm.
  - destruct (Tiled.terrainTiles w) as [|t ts] eqn:Ht.
    + left. split; [now right|]. apply tiled_tick_unloaded. now right.
    + right.
      assert (Hne : Tiled.terrainTiles w <> []) by congruence.
      destruct (Rlt_dec 0 (Vector3.length (camera_direction (Tiled.keys w) (Tiled.camera w))))
        as [Hl|Hl].
      * right. exists robot. split; [reflexivity|]. rewrite <- Ht. split; [exact Hne|].
        split; [exact Hl|]. now apply (tiled_tick_moving w robot).
      * left. exists robot. split; [reflexivity|]. rewrite <- Ht. split; [exact Hne|].
        assert (Hz : Vector3.length (camera_direction (Tiled.keys w) (Tiled.camera w)) = 0)
          by (pose proof (length_nonneg (camera_direction (Tiled.keys w) (Tiled.camera w))); lra).
        split; [exact Hz|]. now apply (tiled_tick_idle w robot).
  - left. split; [now left|]. apply tiled_tick_unloaded. now left.
Qed.

Lemma tiled_animate_eq (dt : R) (finished : list AnimationAction) (w : Tiled.World) :
  Tiled.animate dt finished w
  = match mixer (Tiled.ctl w) with
    | Some _ => bind (Tiled.liftC (mixer_update dt finished))
                     (fun _ => bind Tiled.updateRobotMovement
                                    (fun _ => Tiled.updateThirdPersonCamera)) w
    | None => bind Tiled.updateRobotMovement (fun _ => Tiled.updateThirdPersonCamera) w
    end.
Proof.
  unfold Tiled.animate. rewrite bind_gets.
  destruct (mixer (Tiled.ctl w)); reflexivity.
Qed.
End TiledShapes.

(** ** The locomotion state after a tick *)

Lemma locomotion_step (target : string) (c : Controller) :
  let r := if String.eqb (currentMovement c) target then (Normal tt, c)
           else fadeToAction target 0.2 (set_currentMovement target c) in
  currentMovement (snd r) = target /\
  (currentMovement c = target -> r = (Normal tt, c)) /\
  (currentMovement c <> target ->
   r = fadeToAction target 0.2 (set_currentMovement target c)).
Proof.
  cbv zeta. destruct (String.eqb_spec (currentMovement c) target) as [E|E].
  - repeat split; auto. contradiction.
  - destruct (fadeToAction_frame target 0.2 (set_currentMovement target c)) as (_ & _ & _ & Hcm).
    repeat split; auto. contradiction.
Qed.

(** X7.  A tick that passes its guard (robot loaded, and tiles present in
    the tiled variant) leaves [currentMovement] determined by the input
    alone: 'Idle' without net direction, otherwise 'Running' with the
    sprint modifier and 'Walking' without, whatever was recorded before
    (a state picked in the panel is overwritten by the next tick).  When
    the recorded state already has that value the tick returns and leaves
    the controller untouched; otherwise its effect on the controller and
    its completion are those of [fadeToAction] to the new state over
    0.2.  Both variants. *)
Theorem tick_sets_locomotion_state :
  (forall (w : ClosedForm.World) (robot : ClosedForm.Model),
      ClosedForm.model w = Some robot ->
      let moving :=
        if Rlt_dec 0 (Vector3.length (ClosedForm.moveDirection_of (ClosedForm.keys w)))
        then true else false in
      let target := locomotion_of moving (Keys.shift (ClosedForm.keys w)) in
      let r := ClosedForm.updateRobotMovement w in
      currentMovement (ClosedForm.ctl (snd r)) = target /\
      (currentMovement (ClosedForm.ctl w) = target ->
       fst r = Normal tt /\ ClosedForm.ctl (snd r) = ClosedForm.ctl w) /\
      (currentMovement (ClosedForm.ctl w) <> target ->
       fst r = fst (fadeToAction target 0.2 (set_currentMovement target (ClosedForm.ctl w))) /\
       ClosedForm.ctl (snd r)
       = snd (fadeToAction target 0.2 (set_currentMovement target (ClosedForm.ctl w))))) /\
  (forall (T : Three) (w : Tiled.World) (robot : Tiled.Model),
      Tiled.model w = Some robot ->
      Tiled.terrainTiles w <> [] ->
      let moving :=
        if Rlt_dec 0 (Vector3.length (camera_direction (Tiled.keys w) (Tiled.camera w)))
        then true else false in
      let target := locomotion_of moving (Keys.shift (Tiled.keys w)) in
      let r := Tiled.updateRobotMovement w in
      currentMovement (Tiled.ctl (snd r)) = target /\
      (currentMovement (Tiled.ctl w) = target ->
       fst r = Normal tt /\ Tiled.ctl (snd r) = Tiled.ctl w) /\
      (currentMovement (Tiled.ctl w) <> target ->
       fst r = fst (fadeToAction target 0.2 (set_currentMovement target (Tiled.ctl w))) /\
       Tiled.ctl (snd r)
       = snd (fadeToAction target 0.2 (set_currentMovement target (Tiled.ctl w))))).
Proof.
  split.
  - intros w robot Hm moving target r.
    destruct (cf_tick_cases w) as [[Hnone _]|[(robot' & _ & Hz & Hrun)|(robot' & _ & Hl & Hrun)]];
      [congruence| |].
    + assert (Ht : target = "Idle").
      { unfold target, moving. rewrite Hz. destruct (Rlt_dec 0 0); [lra|reflexivity]. }
      unfold r. rewrite Hrun, ClosedFormFacts.liftC_eq, idleState_eq, Ht.
      cbn [fst snd ClosedForm.ctl ClosedForm.set_ctl].
      destruct (locomotion_step "Idle" (ClosedForm.ctl w)) as (H1 & H2 & H3).
      split; [exact H1|]. split; intros Hc.
      * rewrite (H2 Hc). auto.
      * rewrite (H3 Hc). auto.
    + assert (Ht : target = locomotion_of true (Keys.shift (ClosedForm.keys w))).
      { unfold target, moving. destruct (Rlt_dec 0 _); [reflexivity|contradiction]. }
      unfold r. rewrite Hrun, ClosedFormFacts.liftC_eq, movingState_eq, Ht.
      cbn [fst snd ClosedForm.ctl ClosedForm.set_ctl ClosedForm.set_model].
      destruct (locomotion_step (locomotion_of true (Keys.shift (ClosedForm.keys w)))
                                (ClosedForm.ctl w)) as (H1 & H2 & H3).
      split; [exact H1|]. split; intros Hc.
      * rewrite (H2 Hc). auto.
      * rewrite (H3 Hc). auto.
  - intros T w robot Hm Htiles moving target r.
    destruct (tiled_tick_cases w)
      as [[[Hnone|Hnone] _]|[(robot' & _ & _ & Hz & Hrun)|(robot' & _ & _ & Hl & Hrun)]];
      [congruence|congruence| |].
    + assert (Ht : target = "Idle").
      { unfold target, moving. rewrite Hz. destruct (Rlt_dec 0 0); [lra|reflexivity]. }
      unfold r. rewrite Hrun, tiled_liftC_eq, idleState_eq, Ht.
      cbn [fst snd Tiled.ctl Tiled.set_ctl].
      destruct (locomotion_step "Idle" (Tiled.ctl w)) as (H1 & H2 & H3).
      split; [exact H1|]. split; intros Hc.
      * rewrite (H2 Hc). auto.
      * rewrite (H3 Hc). auto.
    + assert (Ht : target = locomotion_of true (Keys.shift (Tiled.keys w))).
      { unfold target, moving. destruct (Rlt_dec 0 _); [reflexivity|contradiction]. }
      unfold r. rewrite Hrun, Ht. unfold bind. rewrite tiled_liftC_eq, movingState_eq.
      cbn [Tiled.ctl Tiled.set_model].
      destruct (locomotion_step (locomotion_of true (Keys.shift (Tiled.keys w)))
                                (Tiled.ctl w)) as (H1 & H2 & H3).
      set (step := if String.eqb _ _ then _ else _) in *.
      assert (Hshape : forall res c',
                 step = (res, c') ->
                 let r' := match res with
                           | Normal a =>
                               Tiled.repositionTerrain
                                 (Tiled.set_ctl c'
                                    (Tiled.set_model
                                       (Some (Tiled.mkModel
                                                (tiled_newPos (Tiled.keys w) (Tiled.camera w)
                                                              (Tiled.terrainTiles w)
                                                              (Tiled.position robot'))
                                                (tiled_quaternion (Tiled.keys w) (Tiled.camera w)
                                                                  (Tiled.quaternion robot'))))
                                       w))
                           | Throw e =>
                               (Throw e,
                                Tiled.set_ctl c'
                                  (Tiled.set_model
                                     (Some (Tiled.mkModel
                                              (tiled_newPos (Tiled.keys w) (Tiled.camera w)
                                                            (Tiled.terrainTiles w)
                                                            (Tiled.position robot'))
                                              (tiled_quaternion (Tiled.keys w) (Tiled.camera w)
                                                                (Tiled.quaternion robot'))))
                                     w))
                           end in
                 fst r' = res /\ Tiled.ctl (snd r') = c').
      { intros res c' _. destruct res as [[]|e]; cbn.
        - unfold Tiled.repositionTerrain, bind, gets, modify. cbn. auto.
        - auto. }
      destruct step as [res c'] eqn:Hstep. cbn [fst snd] in *.
      destruct (Hshape res c' eq_refl) as [Hres Hctl]. cbv zeta in Hres, Hctl.
      rewrite Hres, Hctl.
      split; [exact H1|]. split; intros Hc.
      * specialize (H2 Hc). injection H2 as -> ->. auto.
      * specialize (H3 Hc). rewrite <- H3. auto.
Qed.

(** ** The listener on the mixer *)

Lemma listeners_fade (name : string) (duration : R) (c : Controller) :
  listeners_of (snd (fadeToAction name duration c)) = listeners_of c.
Proof.
  unfold listeners_of. now destruct (fadeToAction_frame name duration c) as (-> & _).
Qed.

Lemma listeners_add (c : Controller) :
  (List.length (listeners_of c) <= 1)%nat ->
  (List.length (listeners_of (snd (on_mixer (addEventListener restoreState_listener) c))) <= 1)%nat.
Proof.
  unfold on_mixer, listeners_of, bind, gets, modify, throw.
  destruct (mixer c) as [[ls]|] eqn:Hmx; cbn; [|rewrite Hmx; cbn; lia].
  intros Hlen. unfold addEventListener. cbn [finishedListeners].
  destruct (decide (restoreState_listener ∈ ls)) as [Hin|Hout]; cbn; [exact Hlen|].
  destruct ls as [|[] ls]; cbn; [lia|].
  exfalso. apply Hout. now left.
Qed.

Lemma remove_first_length (l : Listener) (ls : list Listener) :
  (List.length (remove_first l ls) <= List.length ls)%nat.
Proof.
  induction ls as [|h ls IH]; cbn; [lia|].
  destruct (decide (h = l)); cbn; lia.
Qed.

Lemma listeners_restore (c : Controller) :
  (List.length (listeners_of c) <= 1)%nat ->
  (List.length (listeners_of (snd (restoreState c))) <= 1)%nat.
Proof.
  intros Hlen. destruct (mixer c) as [mx|] eqn:Hmx.
  - unfold listeners_of at 1. rewrite (restoreState_disarms c mx Hmx).
    cbn [removeEventListener finishedListeners].
    unfold listeners_of in Hlen. rewrite Hmx in Hlen.
    pose proof (remove_first_length restoreState_listener (finishedListeners mx)). lia.
  - unfold restoreState, on_mixer, bind, gets, throw. rewrite Hmx. cbn. exact Hlen.
Qed.

Lemma listeners_update (dt : R) (finished : list AnimationAction) (c : Controller) :
  (List.length (listeners_of c) <= 1)%nat ->
  (List.length (listeners_of (snd (mixer_update dt finished c))) <= 1)%nat.
Proof.
  unfold mixer_update. revert c.
  apply (forOf_invariant (fun c => (List.length (listeners_of c) <= 1)%nat)).
  intros _ c Hc. unfold dispatchFinished. rewrite bind_gets.
  destruct (mixer c) as [mx|]; [|exact Hc].
  revert c Hc.
  apply (forOf_invariant (fun c => (List.length (listeners_of c) <= 1)%nat)).
  intros [] c Hc. now apply listeners_restore.
Qed.

Lemma listeners_moving (shift : bool) (c : Controller) :
  listeners_of (snd (movingState shift c)) = listeners_of c.
Proof.
  rewrite movingState_eq. destruct (String.eqb _ _); [reflexivity|].
  now rewrite listeners_fade.
Qed.

Lemma listeners_idle (c : Controller) :
  listeners_of (snd (idleState c)) = listeners_of c.
Proof.
  rewrite idleState_eq. destruct (String.eqb _ _); [reflexivity|].
  now rewrite listeners_fade.
Qed.

Lemma listeners_emote (name : string) (c : Controller) :
  (List.length (listeners_of c) <= 1)%nat ->
  (List.length (listeners_of (snd (api_emote name c))) <= 1)%nat.
Proof.
  intros Hlen. unfold api_emote.
  apply (bind_invariant (fun c => (List.length (listeners_of c) <= 1)%nat)).
  - now rewrite listeners_fade.
  - intros _ c'. apply listeners_add.
Qed.

Lemma listeners_state (choice : string) (c : Controller) :
  listeners_of (snd (api_state_onChange choice c)) = listeners_of c.
Proof.
  unfold api_state_onChange. rewrite bind_modify, bind_gets, bind_modify, bind_gets.
  now rewrite listeners_fade.
Qed.

(** [createGUI] installs a fresh mixer, on whatever controller. *)
Lemma createGUI_fresh_mixer (animations : list string) (face : option (list string))
      (c : Controller) :
  mixer (snd (createGUI animations face c)) = Some (mkMixer []).
Proof.
  unfold createGUI. rewrite !bind_modify.
  apply (bind_invariant (fun c => mixer c = Some (mkMixer []))).
  - apply (forOf_invariant (fun c => mixer c = Some (mkMixer []))); [|reflexivity].
    intros clip s Hs. exact Hs.
  - intros _ s Hs. destruct face as [targets|]; [|exact Hs].
    apply (bind_invariant (fun c => mixer c = Some (mkMixer []))).
    + unfold actions_at. rewrite bind_gets. now destruct (actions s).
    + intros walking s' Hs'. rewrite bind_modify, bind_gets.
      cbn [activeAction set_activeAction]. destruct walking; exact Hs'.
Qed.

Lemma cf_listeners_step (e : ClosedForm.Event) (w : ClosedForm.World) :
  (List.length (listeners_of (ClosedForm.ctl w)) <= 1)%nat ->
  (List.length (listeners_of (ClosedForm.ctl (exec (ClosedForm.handle e) w))) <= 1)%nat.
Proof.
  intros Hlen. unfold exec.
  destruct e as [scene animations face|key|key|choice|name|dt finished]; cbn [ClosedForm.handle].
  - rewrite bind_modify, ClosedFormFacts.liftC_eq. cbn [snd ClosedForm.ctl ClosedForm.set_ctl].
    unfold listeners_of. rewrite createGUI_fresh_mixer. cbn. lia.
  - unfold ClosedForm.onKeyDown, modify.
    repeat match goal with
           | |- context [String.eqb ?a ?b] => destruct (String.eqb a b); [exact Hlen|]
           end.
    destruct (String.eqb _ " "); [|exact Hlen].
    rewrite bind_gets. destruct (ClosedForm.model w); [|exact Hlen].
    rewrite ClosedFormFacts.liftC_eq. cbn [snd ClosedForm.ctl ClosedForm.set_ctl].
    now rewrite listeners_fade.
  - destruct (cf_onKeyUp_keys key w) as [k ->]. exact Hlen.
  - rewrite ClosedFormFacts.liftC_eq. cbn [snd ClosedForm.ctl ClosedForm.set_ctl].
    now rewrite listeners_state.
  - rewrite ClosedFormFacts.liftC_eq. cbn [snd ClosedForm.ctl ClosedForm.set_ctl].
    now apply listeners_emote.
  - assert (Htick : forall w',
               (List.length (listeners_of (ClosedForm.ctl w')) <= 1)%nat ->
               (List.length (listeners_of
                               (ClosedForm.ctl (snd (ClosedForm.updateRobotMovement w')))) <= 1)%nat).
    { intros w' Hw'.
      destruct (cf_tick_cases w') as [[_ ->]|[(robot & _ & _ & ->)|(robot & _ & _ & ->)]];
        [exact Hw'| |]; rewrite ClosedFormFacts.liftC_eq;
        cbn [snd ClosedForm.ctl ClosedForm.set_ctl ClosedForm.set_model].
      - now rewrite listeners_idle.
      - now rewrite listeners_moving. }
    rewrite cf_animate_eq. destruct (mixer (ClosedForm.ctl w)); [|now apply Htick].
    apply (bind_invariant
             (fun w => (List.length (listeners_of (ClosedForm.ctl w)) <= 1)%nat)).
    + rewrite ClosedFormFacts.liftC_eq. cbn [snd ClosedForm.ctl ClosedForm.set_ctl].
      now apply listeners_update.
    + intros _ w'. apply Htick.
Qed.

Section TiledListeners.
Context `{Three}.

Lemma tiled_tick_ctl (w : Tiled.World) :
  Tiled.ctl (snd (Tiled.updateRobotMovement w)) = Tiled.ctl w \/
  Tiled.ctl (snd (Tiled.updateRobotMovement w)) = snd (idleState (Tiled.ctl w)) \/
  Tiled.ctl (snd (Tiled.updateRobotMovement w))
  = snd (movingState (Keys.shift (Tiled.keys w)) (Tiled.ctl w)).
Proof.
  destruct (tiled_tick_cases w)
    as [[_ ->]|[(robot & _ & _ & _ & ->)|(robot & _ & _ & _ & ->)]].
  - now left.
  - right. left. now rewrite tiled_liftC_eq.
  - right. right. unfold bind. rewrite tiled_liftC_eq. cbn [Tiled.ctl Tiled.set_model].
    destruct (movingState (Keys.shift (Tiled.keys w)) (Tiled.ctl w)) as [[[]|e] c']; cbn.
    + unfold Tiled.repositionTerrain, bind, gets, modify. cbn. reflexivity.
    + reflexivity.
Qed.

Lemma tiled_listeners_step (e : Tiled.Event) (w : Tiled.World) :
  (List.length (listeners_of (Tiled.ctl w)) <= 1)%nat ->
  (List.length (listeners_of (Tiled.ctl (exec (Tiled.handle e) w))) <= 1)%nat.
Proof.
  intros Hlen. unfold exec.
  destruct e as [|scene animations face| |key|key|choice|name|cam|dt finished];
    cbn [Tiled.handle].
  - now rewrite createTerrainGrid_tiles.
  - rewrite bind_modify, tiled_liftC_eq. cbn [snd Tiled.ctl Tiled.set_ctl].
    unfold listeners_of. rewrite createGUI_fresh_mixer. cbn. lia.
  - unfold Tiled.spawn. rewrite bind_gets.
    destruct (flat_map _ _); unfold Tiled.set_model_position; rewrite bind_gets;
      destruct (Tiled.model w); exact Hlen.
  - unfold Tiled.onKeyDown, modify.
    repeat match goal with
           | |- context [String.eqb ?a ?b] => destruct (String.eqb a b); [exact Hlen|]
           end.
    destruct (String.eqb _ " "); [|exact Hlen].
    rewrite bind_gets. destruct (Tiled.model w); [|exact Hlen].
    rewrite tiled_liftC_eq. cbn [snd Tiled.ctl Tiled.set_ctl].
    now rewrite listeners_fade.
  - destruct (tiled_onKeyUp_keys key w) as [k ->]. exact Hlen.
  - rewrite tiled_liftC_eq. cbn [snd Tiled.ctl Tiled.set_ctl]. now rewrite listeners_state.
  - rewrite tiled_liftC_eq. cbn [snd Tiled.ctl Tiled.set_ctl]. now apply listeners_emote.
  - exact Hlen.
  - assert (Htick : forall w',
               (List.length (listeners_of (Tiled.ctl w')) <= 1)%nat ->
               (List.length
                  (listeners_of
                     (Tiled.ctl (snd (bind Tiled.updateRobotMovement
                                           (fun _ => Tiled.updateThirdPersonCamera) w')))) <= 1)%nat).
    { intros w' Hw'.
      apply (bind_invariant (fun w => (List.length (listeners_of (Tiled.ctl w)) <= 1)%nat)).
      - destruct (tiled_tick_ctl w') as [->|[->| ->]];
          [exact Hw'|now rewrite listeners_idle|now rewrite listeners_moving].
      - intros _ s Hs. destruct (updateThirdPersonCamera_camera s) as [cam ->]. exact Hs. }
    rewrite tiled_animate_eq. destruct (mixer (Tiled.ctl w)); [|now apply Htick].
    apply (bind_invariant (fun w => (List.length (listeners_of (Tiled.ctl w)) <= 1)%nat)).
    + rewrite tiled_liftC_eq. cbn [snd Tiled.ctl Tiled.set_ctl]. now apply listeners_update.
    + intros _ w'. apply Htick.
Qed.
End TiledListeners.

(** X8.  However the events fall (key presses, panel clicks, frames,
    loading, handlers that throw), the mixer never holds more than one
    'finished' listener: arming is not cumulative.  Both variants, from
    the initial state. *)
Theorem listener_registered_at_most_once :
  (forall evs : list ClosedForm.Event,
      (List.length (listeners_of (ClosedForm.ctl (cf_run evs ClosedForm.initialWorld))) <= 1)%nat) /\
  (forall (T : Three) (camera0 : Camera) (evs : list Tiled.Event),
      (List.length
         (listeners_of (Tiled.ctl (tiled_run evs (Tiled.initialWorld camera0)))) <= 1)%nat).
Proof.
  split.
  - intros evs. unfold cf_run.
    assert (Hgen : forall w,
               (List.length (listeners_of (ClosedForm.ctl w)) <= 1)%nat ->
               (List.length
                  (listeners_of
                     (ClosedForm.ctl
                        (fold_left (fun w e => exec (ClosedForm.handle e) w) evs w))) <= 1)%nat).
    { induction evs as [|e evs IH]; intros w Hw; cbn [fold_left]; [exact Hw|].
      apply IH. now apply cf_listeners_step. }
    apply Hgen. cbn. lia.
  - intros T camera0 evs. unfold tiled_run.
    assert (Hgen : forall w : Tiled.World,
               (List.length (listeners_of (Tiled.ctl w)) <= 1)%nat ->
               (List.length
                  (listeners_of
                     (Tiled.ctl
                        (fold_left (fun w e => exec (Tiled.handle e) w) evs w))) <= 1)%nat).
    { induction evs as [|e evs IH]; intros w Hw; cbn [fold_left]; [exact Hw|].
      apply IH. now apply tiled_listeners_step. }
    apply Hgen. cbn. lia.
Qed.

(** ** Key handlers *)

Lemma fadeToAction_twice (name : string) (duration duration' : R) (c : Controller) :
  snd (fadeToAction name duration' (snd (fadeToAction name duration c)))
  = snd (fadeToAction name duration c).
Proof.
  destruct (actions c) as [m|] eqn:Hact.
  - destruct (fadeToAction_frame name duration c) as (_ & Ha & _).
    rewrite (fadeToAction_same name duration' _ m); [reflexivity|congruence|].
    now apply fadeToAction_active.
  - assert (Hthrow : forall d, snd (fadeToAction name d c) = c)
      by (intros d; js_unfold; rewrite Hact; reflexivity).
    now rewrite !Hthrow.
Qed.

(** X9.  A key that repeats while held changes nothing after its first
    event: [onKeyDown] twice for the same key leaves the state of
    [onKeyDown] once, for every key, the space bar included (the Jump that
    is already active is not restarted).  For every key but the space bar
    a release after the press leaves the state of the release alone: the
    press leaves no trace.  No key handler other than the space bar's
    touches anything but [keys]: robot and controller (and, in the tiled
    variant, tiles and camera) stay as they are.  Both variants. *)
Theorem key_repeat_and_release :
  (forall (key : string) (w : ClosedForm.World),
      exec (ClosedForm.onKeyDown key) (exec (ClosedForm.onKeyDown key) w)
      = exec (ClosedForm.onKeyDown key) w /\
      (toLowerCase key <> " " ->
       exec (ClosedForm.onKeyUp key) (exec (ClosedForm.onKeyDown key) w)
       = exec (ClosedForm.onKeyUp key) w /\
       fst (ClosedForm.onKeyDown key w) = Normal tt /\
       ClosedForm.model (exec (ClosedForm.onKeyDown key) w) = ClosedForm.model w /\
       ClosedForm.ctl (exec (ClosedForm.onKeyDown key) w) = ClosedForm.ctl w) /\
      fst (ClosedForm.onKeyUp key w) = Normal tt /\
      ClosedForm.model (exec (ClosedForm.onKeyUp key) w) = ClosedForm.model w /\
      ClosedForm.ctl (exec (ClosedForm.onKeyUp key) w) = ClosedForm.ctl w) /\
  (forall (T : Three) (key : string) (w : Tiled.World),
      exec (Tiled.onKeyDown key) (exec (Tiled.onKeyDown key) w)
      = exec (Tiled.onKeyDown key) w /\
      (toLowerCase key <> " " ->
       exec (Tiled.onKeyUp key) (exec (Tiled.onKeyDown key) w)
       = exec (Tiled.onKeyUp key) w /\
       fst (Tiled.onKeyDown key w) = Normal tt /\
       Tiled.model (exec (Tiled.onKeyDown key) w) = Tiled.model w /\
       Tiled.ctl (exec (Tiled.onKeyDown key) w) = Tiled.ctl w /\
       Tiled.terrainTiles (exec (Tiled.onKeyDown key) w) = Tiled.terrainTiles w /\
       Tiled.camera (exec (Tiled.onKeyDown key) w) = Tiled.camera w) /\
      fst (Tiled.onKeyUp key w) = Normal tt /\
      Tiled.model (exec (Tiled.onKeyUp key) w) = Tiled.model w /\
      Tiled.ctl (exec (Tiled.onKeyUp key) w) = Tiled.ctl w /\
      Tiled.terrainTiles (exec (Tiled.onKeyUp key) w) = Tiled.terrainTiles w /\
      Tiled.camera (exec (Tiled.onKeyUp key) w) = Tiled.camera w).
Proof.
  split.
  - intros key w. unfold exec, ClosedForm.onKeyDown, ClosedForm.onKeyUp, modify.
    repeat match goal with
           | |- context [String.eqb ?a ?b] =>
               destruct (String.eqb_spec a b);
               [cbn; repeat split; auto; intros; repeat split; auto; congruence|]
           end.
    destruct (String.eqb_spec (toLowerCase key) " ") as [E|E].
    + split; [|repeat split; auto; contradiction].
      rewrite !bind_gets. destruct (ClosedForm.model w) as [robot|] eqn:Hm.
      * rewrite ClosedFormFacts.liftC_eq. cbn [snd ClosedForm.model ClosedForm.set_ctl].
        rewrite Hm, ClosedFormFacts.liftC_eq.
        cbn [snd ClosedForm.ctl ClosedForm.set_ctl ClosedForm.model ClosedForm.keys].
        now rewrite fadeToAction_twice.
      * cbn. now rewrite Hm.
    + cbn. repeat split; auto.
  - intros T key w. unfold exec, Tiled.onKeyDown, Tiled.onKeyUp, modify.
    repeat match goal with
           | |- context [String.eqb ?a ?b] =>
               destruct (String.eqb_spec a b);
               [cbn; repeat split; auto; intros; repeat split; auto; congruence|]
           end.
    destruct (String.eqb_spec (toLowerCase key) " ") as [E|E].
    + split; [|repeat split; auto; contradiction].
      rewrite !bind_gets. destruct (Tiled.model w) as [robot|] eqn:Hm.
      * rewrite tiled_liftC_eq. cbn [snd Tiled.model Tiled.set_ctl].
        rewrite Hm, tiled_liftC_eq.
        cbn [snd Tiled.ctl Tiled.set_ctl Tiled.model Tiled.keys Tiled.terrainTiles Tiled.camera].
        now rewrite fadeToAction_twice.
      * cbn. now rewrite Hm.
    + cbn. repeat split; auto.
Qed.

(** ** The analytic terrain *)

Lemma reference_bounded (x z : R) :
  -7.5 <= heightAt_reference 0.1 0.2 5 x z <= 7.5.
Proof.
  unfold heightAt_reference.
  pose proof (SIN_bound (x * 0.1)) as [Hs1 Hs2].
  pose proof (COS_bound (z * 0.1)) as [Hc1 Hc2].
  pose proof (SIN_bound ((x + z) * 0.2)) as [Ht1 Ht2].
  assert (Hp : -1 <= sin (x * 0.1) * cos (z * 0.1) <= 1) by (split; nra).
  lra.
Qed.

(** X10.  The terrain height is bounded: [getTerrainHeight] returns a
    value between -7.5 and 7.5 (the two amplitudes 5 and 2.5 added) at
    every (x, z). *)
Theorem getTerrainHeight_bounded (S : Type) (x z : R) (s : S) :
  exists h : R,
    ClosedForm.getTerrainHeight x z s = (Normal h, s) /\ -7.5 <= h <= 7.5.
Proof.
  exists (heightAt_reference 0.1 0.2 5 x z). split; [|apply reference_bounded].
  unfold ClosedForm.getTerrainHeight, heightAt_reference, ret, ClosedForm.TERRAIN_HEIGHT.
  do 2 f_equal. replace (x * 0.2 + z * 0.2) with ((x + z) * 0.2) by lra. lra.
Qed.

Lemma cf_onKeyDown_model (key : string) (w : ClosedForm.World) :
  ClosedForm.model (exec (ClosedForm.onKeyDown key) w) = ClosedForm.model w.
Proof.
  unfold exec, ClosedForm.onKeyDown, modify.
  repeat match goal with
         | |- context [String.eqb ?a ?b] => destruct (String.eqb a b); [reflexivity|]
         end.
  destruct (String.eqb _ " "); [|reflexivity].
  rewrite bind_gets. destruct (ClosedForm.model w) eqn:Hm; [|now rewrite <- Hm].
  now rewrite ClosedFormFacts.liftC_eq.
Qed.

Lemma cf_tick_grounded (w : ClosedForm.World) :
  cf_grounded w -> cf_grounded (snd (ClosedForm.updateRobotMovement w)).
Proof.
  intros Hg.
  destruct (cf_tick_cases w) as [[_ ->]|[(robot & _ & _ & ->)|(robot & _ & _ & ->)]];
    [exact Hg| |]; rewrite ClosedFormFacts.liftC_eq.
  - exact Hg.
  - unfold cf_grounded. cbn [snd ClosedForm.model ClosedForm.set_ctl ClosedForm.set_model
                             ClosedForm.position].
    apply newPos_height.
Qed.

Lemma cf_grounded_step (e : ClosedForm.Event) (w : ClosedForm.World) :
  cf_loads_grounded e -> cf_grounded w -> cf_grounded (exec (ClosedForm.handle e) w).
Proof.
  intros He Hg. unfold exec.
  destruct e as [scene animations face|key|key|choice|name|dt finished]; cbn [ClosedForm.handle].
  - rewrite bind_modify, ClosedFormFacts.liftC_eq. exact He.
  - unfold cf_grounded. change (snd (ClosedForm.onKeyDown key w))
      with (exec (ClosedForm.onKeyDown key) w). now rewrite cf_onKeyDown_model.
  - destruct (cf_onKeyUp_keys key w) as [k ->]. exact Hg.
  - rewrite ClosedFormFacts.liftC_eq. exact Hg.
  - rewrite ClosedFormFacts.liftC_eq. exact Hg.
  - rewrite cf_animate_eq. destruct (mixer (ClosedForm.ctl w)); [|now apply cf_tick_grounded].
    apply (bind_invariant cf_grounded).
    + rewrite ClosedFormFacts.liftC_eq. exact Hg.
    + intros _ w'. apply cf_tick_grounded.
Qed.

(** X11.  The robot of the closed-form variant is locked to the terrain:
    a tick that moves it puts it on the terrain wherever it was, and no
    other handler moves it.  So once the robot stands on the terrain (as
    it does when loaded at the origin) it stands on the terrain after
    every run of events, with its height between -7.5 and 7.5. *)
Theorem robot_stays_on_terrain :
  on_terrain (Vector3.new 0 0 0) /\
  (forall (w : ClosedForm.World) (robot : ClosedForm.Model),
      ClosedForm.model w = Some robot ->
      0 < Vector3.length (ClosedForm.moveDirection_of (ClosedForm.keys w)) ->
      cf_grounded (exec ClosedForm.updateRobotMovement w)) /\
  (forall (evs : list ClosedForm.Event) (w : ClosedForm.World),
      cf_grounded w ->
      Forall cf_loads_grounded evs ->
      cf_grounded (cf_run evs w) /\
      forall robot,
        ClosedForm.model (cf_run evs w) = Some robot ->
        -7.5 <= Vector3.y (ClosedForm.position robot) <= 7.5).
Proof.
  split; [|split].
  - unfold on_terrain, heightAt_reference. cbn.
    replace (0 * 0.1) with 0 by lra. replace ((0 + 0) * 0.2) with 0 by lra.
    rewrite sin_0. lra.
  - intros w robot Hm Hl. unfold exec.
    rewrite (ClosedFormFacts.tick_moving w robot Hm Hl), ClosedFormFacts.liftC_eq.
    unfold cf_grounded. cbn [snd ClosedForm.model ClosedForm.set_ctl ClosedForm.set_model
                             ClosedForm.position].
    apply newPos_height.
  - intros evs w Hg Hevs.
    assert (Hrun : cf_grounded (cf_run evs w)).
    { unfold cf_run. revert w Hg. induction Hevs as [|e evs He _ IH]; intros w Hg; cbn [fold_left].
      - exact Hg.
      - apply IH. now apply cf_grounded_step. }
    split; [exact Hrun|]. intros robot Hm. unfold cf_grounded in Hrun. rewrite Hm in Hrun.
    unfold on_terrain in Hrun. rewrite Hrun. apply reference_bounded.
Qed.

(** ** The window of tiles *)

Lemma Math_round_near (r : R) :
  IZR (Math_round r) - 0.5 <= r < IZR (Math_round r) + 0.5.
Proof.
  unfold Math_round. destruct (base_Int_part (r + 0.5)) as [Hle Hgt]. lra.
Qed.

Lemma Math_round_zero (r : R) :
  -0.5 <= r < 0.5 -> Math_round r = 0%Z.
Proof.
  intros [Hlo Hhi]. unfold Math_round. symmetry. apply Int_part_spec. cbn. lra.
Qed.

Section TileWindow.
Context `{Three}.

Lemma reposition_length (w : Tiled.World) :
  List.length (Tiled.terrainTiles (snd (Tiled.repositionTerrain w)))
  = List.length (Tiled.terrainTiles w).
Proof.
  destruct (Tiled.model w) as [robot|] eqn:Hm.
  - rewrite (repositionTerrain_places w robot Hm). cbn [snd Tiled.terrainTiles Tiled.set_terrainTiles].
    apply place_tiles_length.
  - unfold Tiled.repositionTerrain, bind, gets, throw. rewrite Hm. reflexivity.
Qed.

Lemma tiled_tick_tiles (w : Tiled.World) :
  List.length (Tiled.terrainTiles (snd (Tiled.updateRobotMovement w)))
  = List.length (Tiled.terrainTiles w).
Proof.
  destruct (tiled_tick_cases w)
    as [[_ ->]|[(robot & _ & _ & _ & ->)|(robot & _ & _ & _ & ->)]].
  - reflexivity.
  - now rewrite tiled_liftC_eq.
  - apply (bind_invariant
             (fun w' => List.length (Tiled.terrainTiles w') = List.length (Tiled.terrainTiles w))).
    + now rewrite tiled_liftC_eq.
    + intros _ s Hs. now rewrite reposition_length.
Qed.

Lemma tiled_tiles_step (e : Tiled.Event) (w : Tiled.World) :
  List.length (Tiled.terrainTiles (exec (Tiled.handle e) w))
  = (List.length (Tiled.terrainTiles w)
     + match e with Tiled.TerrainLoaded => 9 | _ => 0 end)%nat.
Proof.
  unfold exec.
  destruct e as [|scene animations face| |key|key|choice|name|cam|dt finished];
    cbn [Tiled.handle]; rewrite ?Nat.add_0_r.
  - rewrite createTerrainGrid_tiles. cbn [snd Tiled.terrainTiles Tiled.set_terrainTiles].
    now rewrite length_app.
  - rewrite bind_modify, tiled_liftC_eq. reflexivity.
  - unfold Tiled.spawn. rewrite bind_gets.
    destruct (flat_map _ _); unfold Tiled.set_model_position; rewrite bind_gets;
      destruct (Tiled.model w); reflexivity.
  - unfold Tiled.onKeyDown, modify.
    repeat match goal with
           | |- context [String.eqb ?a ?b] => destruct (String.eqb a b); [reflexivity|]
           end.
    destruct (String.eqb _ " "); [|reflexivity].
    rewrite bind_gets. destruct (Tiled.model w); [|reflexivity].
    now rewrite tiled_liftC_eq.
  - now destruct (tiled_onKeyUp_keys key w) as [k ->].
  - now rewrite tiled_liftC_eq.
  - now rewrite tiled_liftC_eq.
  - reflexivity.
  - assert (Htick : forall w' : Tiled.World,
               List.length
                 (Tiled.terrainTiles
                    (snd (bind Tiled.updateRobotMovement
                               (fun _ => Tiled.updateThirdPersonCamera) w')))
               = List.length (Tiled.terrainTiles w')).
    { intros w'.
      apply (bind_invariant
               (fun s => List.length (Tiled.terrainTiles s) = List.length (Tiled.terrainTiles w'))).
      - apply tiled_tick_tiles.
      - intros _ s Hs. now destruct (updateThirdPersonCamera_camera s) as [cam ->]. }
    rewrite tiled_animate_eq. destruct (mixer (Tiled.ctl w)); [|apply Htick].
    unfold bind at 1. rewrite tiled_liftC_eq.
    destruct (fst (mixer_update dt finished (Tiled.ctl w))) as [[]|err]; cbn [snd].
    + now rewrite Htick.
    + reflexivity.
Qed.

(** X12.  Tiles are created only when the terrain file arrives, nine at a
    time, and never removed: every other handler (the movement tick with
    its recentering included) keeps the number of tiles, whether it
    returns or throws.  After any run of events the window holds nine
    tiles per arrival of the terrain file. *)
Theorem tile_count_invariant :
  (forall (e : Tiled.Event) (w : Tiled.World),
      List.length (Tiled.terrainTiles (exec (Tiled.handle e) w))
      = (List.length (Tiled.terrainTiles w)
         + match e with Tiled.TerrainLoaded => 9 | _ => 0 end)%nat) /\
  (forall (evs : list Tiled.Event) (w : Tiled.World),
      List.length (Tiled.terrainTiles (tiled_run evs w))
      = (List.length (Tiled.terrainTiles w) + 9 * terrain_loads evs)%nat).
Proof.
  split; [exact tiled_tiles_step|].
  intros evs. unfold tiled_run, terrain_loads.
  induction evs as [|e evs IH]; intros w; cbn [fold_left List.filter List.length]; [lia|].
  rewrite IH, tiled_tiles_step. destruct e; cbn [List.length]; lia.
Qed.

(** X13.  After [repositionTerrain] the centre tile of the window (the
    fifth of the array) lies on the ground plane under the robot's cell:
    it is within half a spacing (49.5) of the robot on both axes.  A
    moving tick on a ready controller recenters after the step, so the
    same holds for the robot's new position. *)
Theorem robot_over_centre_tile :
  (forall (w : Tiled.World) (robot : Tiled.Model) (t : Tile),
      Tiled.model w = Some robot ->
      Tiled.terrainTiles w !! 4%nat = Some t ->
      exists centre : Tile,
        Tiled.terrainTiles (exec Tiled.repositionTerrain w) !! 4%nat = Some centre /\
        Vector3.y (tile_position centre) = 0 /\
        -49.5 <= Vector3.x (Tiled.position robot) - Vector3.x (tile_position centre) < 49.5 /\
        -49.5 <= Vector3.z (Tiled.position robot) - Vector3.z (tile_position centre) < 49.5) /\
  (forall (w : Tiled.World) (robot : Tiled.Model) (t : Tile),
      Tiled.model w = Some robot ->
      Tiled.terrainTiles w !! 4%nat = Some t ->
      0 < Vector3.length (camera_direction (Tiled.keys w) (Tiled.camera w)) ->
      ready (Tiled.ctl w) ->
      exists (robot' : Tiled.Model) (centre : Tile),
        Tiled.updateRobotMovement w = (Normal tt, exec Tiled.updateRobotMovement w) /\
        Tiled.model (exec Tiled.updateRobotMovement w) = Some robot' /\
        Tiled.terrainTiles (exec Tiled.updateRobotMovement w) !! 4%nat = Some centre /\
        Vector3.y (tile_position centre) = 0 /\
        -49.5 <= Vector3.x (Tiled.position robot') - Vector3.x (tile_position centre) < 49.5 /\
        -49.5 <= Vector3.z (Tiled.position robot') - Vector3.z (tile_position centre) < 49.5).
Proof.
  assert (Hcell : forall (w : Tiled.World) (robot : Tiled.Model) (t : Tile),
             Tiled.model w = Some robot ->
             Tiled.terrainTiles w !! 4%nat = Some t ->
             exists centre : Tile,
               Tiled.terrainTiles (exec Tiled.repositionTerrain w) !! 4%nat = Some centre /\
               Vector3.y (tile_position centre) = 0 /\
               -49.5 <= Vector3.x (Tiled.position robot) - Vector3.x (tile_position centre) < 49.5 /\
               -49.5 <= Vector3.z (Tiled.position robot) - Vector3.z (tile_position centre) < 49.5).
  { intros w robot t Hm Ht. unfold exec.
    rewrite (repositionTerrain_places w robot Hm).
    cbn [snd Tiled.terrainTiles Tiled.set_terrainTiles].
    eexists. split.
    - apply (place_tiles_lookup _ _ _ slots3x3 (Tiled.terrainTiles w) 4%nat 0%Z 0%Z t);
        [reflexivity|exact Ht].
    - cbn [tile_position Vector3.x Vector3.y Vector3.z]. split; [reflexivity|].
      unfold Tiled.tileSize, Tiled.scaleFactor.
      pose proof (Math_round_near (Vector3.x (Tiled.position robot) / (20 * 5 * 0.99))) as Hx.
      pose proof (Math_round_near (Vector3.z (Tiled.position robot) / (20 * 5 * 0.99))) as Hz.
      set (rx := IZR (Math_round (Vector3.x (Tiled.position robot) / (20 * 5 * 0.99)))) in *.
      set (rz := IZR (Math_round (Vector3.z (Tiled.position robot) / (20 * 5 * 0.99)))) in *.
      assert (Ex : Vector3.x (Tiled.position robot)
                   = Vector3.x (Tiled.position robot) / (20 * 5 * 0.99) * 99) by lra.
      assert (Ez : Vector3.z (Tiled.position robot)
                   = Vector3.z (Tiled.position robot) / (20 * 5 * 0.99) * 99) by lra.
      set (qx := Vector3.x (Tiled.position robot) / (20 * 5 * 0.99)) in *.
      set (qz := Vector3.z (Tiled.position robot) / (20 * 5 * 0.99)) in *.
      rewrite Ex, Ez. split; split; lra. }
  split; [exact Hcell|].
  intros w robot t Hm Ht Hl Hr.
  assert (Hne : Tiled.terrainTiles w <> []) by (intros E; rewrite E in Ht; discriminate).
  pose proof (tiled_tick_moving w robot Hm Hne Hl) as Htick.
  destruct (movingState_ready (Keys.shift (Tiled.keys w)) (Tiled.ctl w) Hr) as [Hret _].
  set (w0 := Tiled.set_model _ w) in Htick.
  set (w1 := Tiled.set_ctl (snd (movingState (Keys.shift (Tiled.keys w)) (Tiled.ctl w))) w0).
  assert (Hstep : Tiled.updateRobotMovement w = Tiled.repositionTerrain w1).
  { rewrite Htick. unfold bind. rewrite tiled_liftC_eq.
    change (Tiled.ctl w0) with (Tiled.ctl w). rewrite Hret. reflexivity. }
  destruct (Hcell w1 _ t eq_refl Ht) as (centre & Hc & Hy & Hx & Hz).
  eexists. exists centre. unfold exec in *. rewrite Hstep.
  split.
  - rewrite (repositionTerrain_places w1 _ eq_refl). reflexivity.
  - split; [|split; [exact Hc|split; [exact Hy|split; [exact Hx|exact Hz]]]].
    rewrite (repositionTerrain_places w1 _ eq_refl). reflexivity.
Qed.

(** X14.  On the grid as [createTerrainGrid] laid it out, recentering is
    a no-op while the robot is in the cell of the centre tile
    (-49.5 <= x < 49.5 and -49.5 <= z < 49.5): the tiles move only when
    the robot crosses a cell boundary. *)
Theorem recenter_keeps_initial_grid (w : Tiled.World) (robot : Tiled.Model) :
  Tiled.model w = Some robot ->
  Tiled.terrainTiles w = grid_tiles ->
  -49.5 <= Vector3.x (Tiled.position robot) < 49.5 ->
  -49.5 <= Vector3.z (Tiled.position robot) < 49.5 ->
  Tiled.repositionTerrain w = (Normal tt, w).
Proof.
  intros Hm Ht Hx Hz. rewrite (repositionTerrain_places w robot Hm).
  unfold Tiled.tileSize, Tiled.scaleFactor.
  rewrite !Math_round_zero.
  - rewrite Ht. destruct w as [m tiles cam k c]. cbn in *. subst tiles.
    unfold Tiled.set_terrainTiles. cbn. f_equal. f_equal.
    unfold grid_tiles, slots3x3. cbn [map place_tiles fst snd].
    repeat (f_equal; try lra).
  - lra.
  - lra.
Qed.
End TileWindow.

(** ** Rays and the camera of the tiled variant *)

Section CameraAndRays.
Context `{Three}.

Lemma normalize_null (v : Vector3.t) :
  Vector3.x v = 0 -> Vector3.y v = 0 -> Vector3.z v = 0 ->
  Vector3.normalize v = Vector3.zero.
Proof.
  destruct v as [x y z]; cbn. intros -> -> ->.
  unfold Vector3.normalize, Vector3.divideScalar, Vector3.multiplyScalar, Vector3.zero. cbn.
  f_equal; ring.
Qed.

Lemma direction_vertical_camera (k : Keys.t) (cam : Camera) :
  Vector3.x (getWorldDirection cam) = 0 ->
  Vector3.z (getWorldDirection cam) = 0 ->
  Vector3.length (camera_direction k cam) = 0.
Proof.
  intros Hx Hz. unfold camera_direction.
  assert (Hf : Tiled.forward_of cam = Vector3.zero).
  { unfold Tiled.forward_of. apply normalize_null; cbn; auto. }
  rewrite Hf.
  assert (Hr : Tiled.right_of Vector3.zero = Vector3.zero).
  { unfold Tiled.right_of. apply normalize_null; cbn; ring. }
  rewrite Hr.
  destruct k as [w a s d sh]. unfold Tiled.direction_of, Vector3.length. cbn.
  destruct w, a, s, d; cbn;
    match goal with |- sqrt ?e = 0 => replace e with 0 by ring end; apply sqrt_0.
Qed.

Lemma idleState_records_idle (c : Controller) :
  currentMovement (snd (idleState c)) = "Idle".
Proof.
  rewrite idleState_eq.
  destruct (String.eqb_spec (currentMovement c) "Idle") as [E|E]; [exact E|].
  now destruct (fadeToAction_frame "Idle" 0.2 (set_currentMovement "Idle" c)) as (_ & _ & _ & ->).
Qed.

(** X15.  The movement basis is the camera's viewing direction flattened
    onto the ground plane.  When the camera looks along the vertical
    that vector is zero, three.js's guarded [normalize] keeps it zero,
    and the tick takes the idle branch whatever keys are held: the robot
    and the tiles stay where they are and the state recorded is Idle. *)
Theorem vertical_camera_stops_robot (w : Tiled.World) (robot : Tiled.Model) :
  Tiled.model w = Some robot ->
  Tiled.terrainTiles w <> [] ->
  Vector3.x (getWorldDirection (Tiled.camera w)) = 0 ->
  Vector3.z (getWorldDirection (Tiled.camera w)) = 0 ->
  Tiled.updateRobotMovement w = Tiled.liftC idleState w /\
  Tiled.model (exec Tiled.updateRobotMovement w) = Some robot /\
  Tiled.terrainTiles (exec Tiled.updateRobotMovement w) = Tiled.terrainTiles w /\
  currentMovement (Tiled.ctl (exec Tiled.updateRobotMovement w)) = "Idle".
Proof.
  intros Hm Ht Hx Hz.
  pose proof (tiled_tick_idle w robot Hm Ht
                (direction_vertical_camera (Tiled.keys w) (Tiled.camera w) Hx Hz)) as Htick.
  split; [exact Htick|]. unfold exec. rewrite Htick, tiled_liftC_eq.
  cbn [snd Tiled.model Tiled.terrainTiles Tiled.ctl Tiled.set_ctl].
  split; [exact Hm|]. split; [reflexivity|]. apply idleState_records_idle.
Qed.

(** X16.  A moving tick puts the robot at the horizontal step from its
    old position and, when the ray cast down from height 20 above that
    point hits the tiles at all, at the height of a hit of least
    distance among the hits of all the tiles.  This holds whether or not
    the animation transition of the same tick throws. *)
Theorem moving_tick_lands_on_closest_hit (w : Tiled.World) (robot : Tiled.Model) :
  Tiled.model w = Some robot ->
  Tiled.terrainTiles w <> [] ->
  0 < Vector3.length (camera_direction (Tiled.keys w) (Tiled.camera w)) ->
  let step := tiled_step (Tiled.keys w) (Tiled.camera w) (Tiled.position robot) in
  let origin := Vector3.new (Vector3.x step) 20 (Vector3.z step) in
  all_hits (Tiled.terrainTiles w) origin <> [] ->
  exists (first : Intersection) (robot' : Tiled.Model),
    In first (all_hits (Tiled.terrainTiles w) origin) /\
    (forall h, In h (all_hits (Tiled.terrainTiles w) origin) -> distance first <= distance h) /\
    Tiled.model (exec Tiled.updateRobotMovement w) = Some robot' /\
    Tiled.position robot'
    = Vector3.new (Vector3.x step) (Vector3.y (point first)) (Vector3.z step).
Proof.
  intros Hm Ht Hl step origin Hhits.
  destruct (groundHeight_closest (Tiled.terrainTiles w) step Hhits) as (first & Hin & Hmin & Hg).
  destruct (tiled_tick_moving_state w robot Hm Ht Hl) as (Hmodel & _).
  exists first. eexists. split; [exact Hin|]. split; [exact Hmin|].
  split; [exact Hmodel|].
  cbn [Tiled.position]. unfold tiled_newPos. fold (tiled_step (Tiled.keys w) (Tiled.camera w)
                                                     (Tiled.position robot)). fold step.
  unfold Vector3.set_y. now rewrite Hg.
Qed.

(** The camera update, written out. *)
Lemma updateThirdPersonCamera_eq (w : Tiled.World) (robot : Tiled.Model) :
  Tiled.model w = Some robot ->
  let goal := camera_goal robot in
  let desired :=
    match all_hits (Tiled.terrainTiles w) (camera_probe robot) with
    | first :: _ =>
        if Rlt_dec (Vector3.y goal) (Vector3.y (point first) + 2.5)
        then Vector3.set_y goal (Vector3.y (point first) + 2.5)
        else goal
    | [] => goal
    end in
  Tiled.updateThirdPersonCamera w
  = (Normal tt,
     Tiled.set_camera
       (lookAt (camera_set_position (Tiled.camera w)
                  (Vector3.lerp (camera_position (Tiled.camera w)) desired 0.1))
               (Vector3.add (Tiled.position robot) (Vector3.new 0 2 0)))
       w).
Proof.
  intros Hm. unfold Tiled.updateThirdPersonCamera. rewrite bind_gets, Hm, !bind_gets.
  reflexivity.
Qed.

(** X17.  The camera update returns and writes the camera only (nothing
    at all while no robot is loaded).  With a robot, the camera moves a
    tenth of the way towards the point behind and above the robot,
    raised to 2.5 above the first hit of the ray cast down through that
    point when it would lie lower; so a camera that is at least 2.5
    above that hit stays at least 2.5 above it. *)
Theorem camera_keeps_clearance (w : Tiled.World) :
  camera_laws ->
  (Tiled.model w = None -> Tiled.updateThirdPersonCamera w = (Normal tt, w)) /\
  (forall robot : Tiled.Model,
      Tiled.model w = Some robot ->
      let goal := camera_goal robot in
      let old := camera_position (Tiled.camera w) in
      let cam' := Tiled.camera (exec Tiled.updateThirdPersonCamera w) in
      Tiled.updateThirdPersonCamera w = (Normal tt, Tiled.set_camera cam' w) /\
      Vector3.x (camera_position cam') = Vector3.x old + (Vector3.x goal - Vector3.x old) * 0.1 /\
      Vector3.z (camera_position cam') = Vector3.z old + (Vector3.z goal - Vector3.z old) * 0.1 /\
      (all_hits (Tiled.terrainTiles w) (camera_probe robot) = [] ->
       Vector3.y (camera_position cam') = Vector3.y old + (Vector3.y goal - Vector3.y old) * 0.1) /\
      (forall first rest,
          all_hits (Tiled.terrainTiles w) (camera_probe robot) = first :: rest ->
          let floor := Vector3.y (point first) + 2.5 in
          Vector3.y (camera_position cam')
          = Vector3.y old + (Rmax (Vector3.y goal) floor - Vector3.y old) * 0.1 /\
          (floor <= Vector3.y old -> floor <= Vector3.y (camera_position cam')))).
Proof.
  intros [Hset Hlook]. split.
  - intros Hm. unfold Tiled.updateThirdPersonCamera. rewrite bind_gets, Hm. reflexivity.
  - intros robot Hm goal old cam'.
    pose proof (updateThirdPersonCamera_eq w robot Hm) as Heq. cbv zeta in Heq.
    assert (Hcam : cam' = Tiled.camera (snd (Tiled.updateThirdPersonCamera w))) by reflexivity.
    rewrite Heq in Hcam. cbn [snd Tiled.camera Tiled.set_camera] in Hcam.
    split; [rewrite Heq at 1; now rewrite Hcam|].
    assert (Hpos : camera_position cam'
                   = Vector3.lerp old
                       match all_hits (Tiled.terrainTiles w) (camera_probe robot) with
                       | first :: _ =>
                           if Rlt_dec (Vector3.y goal) (Vector3.y (point first) + 2.5)
                           then Vector3.set_y goal (Vector3.y (point first) + 2.5)
                           else goal
                       | [] => goal
                       end 0.1).
    { rewrite Hcam, Hlook, Hset. reflexivity. }
    rewrite Hpos.
    destruct (all_hits (Tiled.terrainTiles w) (camera_probe robot)) as [|first rest] eqn:Hhits.
    + cbn [Vector3.lerp Vector3.x Vector3.y Vector3.z].
      split; [reflexivity|]. split; [reflexivity|]. split; [intros _; reflexivity|].
      intros f r Hfr. discriminate.
    + destruct (Rlt_dec (Vector3.y goal) (Vector3.y (point first) + 2.5)) as [Hlow|Hhigh];
        cbn [Vector3.lerp Vector3.x Vector3.y Vector3.z Vector3.set_y];
        (split; [reflexivity|]); (split; [reflexivity|]);
        (split; [intros Hnil; discriminate|]);
        intros f r Hfr; injection Hfr as <- <-; cbv zeta; unfold Rmax;
        destruct (Rle_dec (Vector3.y goal) (Vector3.y (point first) + 2.5)) as [Hle|Hgt];
        split; try reflexivity; try lra.
Qed.
End CameraAndRays.

(** ** Before the robot file arrives *)

Lemma cf_early_step (e : ClosedForm.Event) (w : ClosedForm.World) :
  cf_early_event e ->
  ClosedForm.model w = None /\ ClosedForm.ctl w = initialController ->
  fst (ClosedForm.handle e w) = Normal tt /\
  (ClosedForm.model (snd (ClosedForm.handle e w)) = None /\
   ClosedForm.ctl (snd (ClosedForm.handle e w)) = initialController).
Proof.
  intros He [Hm Hc].
  destruct e as [scene animations face|key|key|choice|name|dt finished];
    cbn [cf_early_event ClosedForm.handle] in *; try contradiction.
  - unfold ClosedForm.onKeyDown, modify.
    repeat match goal with
           | |- context [String.eqb ?a ?b] => destruct (String.eqb a b); [cbn; solve [auto]|]
           end.
    destruct (String.eqb _ " "); [|cbn; auto].
    rewrite bind_gets, Hm. cbn. auto.
  - destruct (cf_onKeyUp_keys key w) as [k ->]. cbn. auto.
  - rewrite cf_animate_eq, Hc. cbn [mixer initialController].
    rewrite ClosedFormFacts.tick_unloaded by exact Hm. cbn. auto.
Qed.

Section EarlyTiled.
Context `{Three}.

Lemma tiled_early_step (e : Tiled.Event) (w : Tiled.World) :
  tiled_early_event e ->
  Tiled.model w = None /\ Tiled.ctl w = initialController ->
  fst (Tiled.handle e w) = Normal tt /\
  (Tiled.model (snd (Tiled.handle e w)) = None /\
   Tiled.ctl (snd (Tiled.handle e w)) = initialController).
Proof.
  intros He [Hm Hc].
  destruct e as [|scene animations face| |key|key|choice|name|cam|dt finished];
    cbn [tiled_early_event Tiled.handle] in *; try contradiction.
  - rewrite createTerrainGrid_tiles. cbn. auto.
  - unfold Tiled.onKeyDown, modify.
    repeat match goal with
           | |- context [String.eqb ?a ?b] => destruct (String.eqb a b); [cbn; solve [auto]|]
           end.
    destruct (String.eqb _ " "); [|cbn; auto].
    rewrite bind_gets, Hm. cbn. auto.
  - destruct (tiled_onKeyUp_keys key w) as [k ->]. cbn. auto.
  - cbn. auto.
  - rewrite tiled_animate_eq, Hc. cbn [mixer initialController].
    erewrite bind_normal by (apply tiled_tick_unloaded; now left). cbv beta.
    unfold Tiled.updateThirdPersonCamera. rewrite bind_gets, Hm. cbn. auto.
Qed.
End EarlyTiled.

(** X18.  Until the robot file has arrived every key event and every
    frame returns: no handler touches the animation controller (no
    action is looked up, nothing is called on the missing mixer), the
    space bar does nothing, and a frame leaves even the camera where it
    is.  In the tiled variant the same holds while the terrain file
    arrives and the camera is dragged.  Both variants, any run of such
    events. *)
Theorem input_before_loading_is_safe :
  (forall (evs : list ClosedForm.Event) (w : ClosedForm.World),
      ClosedForm.model w = None ->
      ClosedForm.ctl w = initialController ->
      Forall cf_early_event evs ->
      fst (forOf evs ClosedForm.handle w) = Normal tt /\
      ClosedForm.model (exec (forOf evs ClosedForm.handle) w) = None /\
      ClosedForm.ctl (exec (forOf evs ClosedForm.handle) w) = initialController) /\
  (forall (T : Three) (evs : list Tiled.Event) (w : Tiled.World),
      Tiled.model w = None ->
      Tiled.ctl w = initialController ->
      Forall tiled_early_event evs ->
      fst (forOf evs Tiled.handle w) = Normal tt /\
      Tiled.model (exec (forOf evs Tiled.handle) w) = None /\
      Tiled.ctl (exec (forOf evs Tiled.handle) w) = initialController) /\
  (forall (T : Three) (dt : R) (finished : list AnimationAction) (w : Tiled.World),
      Tiled.model w = None ->
      Tiled.ctl w = initialController ->
      Tiled.animate dt finished w = (Normal tt, w)).
Proof.
  split; [|split].
  - intros evs. induction evs as [|e evs IH]; intros w Hm Hc Hall; cbn [forOf].
    + unfold exec. cbn. auto.
    + apply Forall_cons_iff in Hall as [He Hall].
      destruct (cf_early_step e w He (conj Hm Hc)) as (Hret & Hm' & Hc').
      unfold exec, bind.
      destruct (ClosedForm.handle e w) as [[[]|err] w'] eqn:Hh; cbn [fst snd] in *;
        [|discriminate].
      apply (IH w' Hm' Hc' Hall).
  - intros T evs. induction evs as [|e evs IH]; intros w Hm Hc Hall; cbn [forOf].
    + unfold exec. cbn. auto.
    + apply Forall_cons_iff in Hall as [He Hall].
      destruct (tiled_early_step e w He (conj Hm Hc)) as (Hret & Hm' & Hc').
      unfold exec, bind.
      destruct (Tiled.handle e w) as [[[]|err] w'] eqn:Hh; cbn [fst snd] in *;
        [|discriminate].
      apply (IH w' Hm' Hc' Hall).
  - intros T dt finished w Hm Hc.
    rewrite tiled_animate_eq, Hc. cbn [mixer initialController].
    erewrite bind_normal by (apply tiled_tick_unloaded; now left). cbv beta.
    unfold Tiled.updateThirdPersonCamera. rewrite bind_gets, Hm. reflexivity.
Qed.

(** ** A robot file with every clip of the panel *)

Lemma complete_fade (name : string) (duration : R) (c : Controller) :
  complete c ->
  In name (states ++ emotes)%list ->
  fst (fadeToAction name duration c) = Normal tt /\
  complete (snd (fadeToAction name duration c)).
Proof.
  intros (Hmx & (m & Hact & Hall) & Hactive & Hcm) Hin.
  destruct (fadeToAction_returns name duration c m Hact Hactive (Hall name Hin)) as [Hret Hsome].
  destruct (fadeToAction_frame name duration c) as (Em & Ea & _ & Ec).
  split; [exact Hret|]. unfold complete. rewrite Em, Ea, Ec.
  split; [exact Hmx|]. split; [exists m; auto|]. split; [exact Hsome|exact Hcm].
Qed.

Lemma complete_set_currentMovement (name : string) (c : Controller) :
  In name states -> complete c -> complete (set_currentMovement name c).
Proof. intros Hin (Hmx & Hact & Hactive & _). repeat split; assumption. Qed.

Lemma states_in_panel (name : string) : In name states -> In name (states ++ emotes)%list.
Proof. intros Hin. apply in_or_app. now left. Qed.

Lemma complete_restore (c : Controller) :
  complete c ->
  fst (restoreState c) = Normal tt /\ complete (snd (restoreState c)).
Proof.
  intros Hc. pose proof Hc as ([mx Hmx] & Hact & Hactive & Hcm).
  rewrite (restoreState_fade c mx Hmx). apply complete_fade.
  - split; [cbn; eauto|]. split; [exact Hact|]. split; [exact Hactive|exact Hcm].
  - now apply states_in_panel.
Qed.

Lemma complete_update (dt : R) (finished : list AnimationAction) (c : Controller) :
  complete c ->
  fst (mixer_update dt finished c) = Normal tt /\ complete (snd (mixer_update dt finished c)).
Proof.
  unfold mixer_update. revert c. apply forOf_preserves.
  intros _ c Hc. unfold dispatchFinished. rewrite bind_gets.
  destruct (mixer c) as [mx|]; [|split; [reflexivity|exact Hc]].
  revert c Hc. apply forOf_preserves. intros [] c Hc. now apply complete_restore.
Qed.

Lemma complete_state (choice : string) (c : Controller) :
  In choice states -> complete c ->
  fst (api_state_onChange choice c) = Normal tt /\ complete (snd (api_state_onChange choice c)).
Proof.
  intros Hin (Hmx & Hact & Hactive & Hcm).
  unfold api_state_onChange. rewrite bind_modify, bind_gets, bind_modify, bind_gets.
  cbn [api_state set_api_state set_currentMovement].
  apply complete_fade; [|now apply states_in_panel].
  repeat split; assumption.
Qed.

Lemma complete_emote (name : string) (c : Controller) :
  In name emotes -> complete c ->
  fst (api_emote name c) = Normal tt /\ complete (snd (api_emote name c)).
Proof.
  intros Hin Hc.
  destruct (complete_fade name 0.2 c Hc) as [Hret Hc']; [apply in_or_app; now right|].
  unfold api_emote, bind.
  destruct (fadeToAction name 0.2 c) as [[[]|err] c']; cbn [fst snd] in *; [|discriminate].
  destruct Hc' as ([mx Hmx] & Hact & Hactive & Hcm).
  unfold on_mixer, bind, gets, modify. rewrite Hmx. cbn [fst snd].
  split; [reflexivity|]. split; [cbn; eauto|]. repeat split; assumption.
Qed.

Lemma complete_moving (shift : bool) (c : Controller) :
  complete c ->
  fst (movingState shift c) = Normal tt /\ complete (snd (movingState shift c)).
Proof.
  intros Hc. rewrite movingState_eq.
  destruct (String.eqb _ _); [split; [reflexivity|exact Hc]|].
  assert (Hin : In (locomotion_of true shift) states)
    by (destruct shift; cbn; tauto).
  apply complete_fade; [now apply complete_set_currentMovement|now apply states_in_panel].
Qed.

Lemma complete_idle (c : Controller) :
  complete c ->
  fst (idleState c) = Normal tt /\ complete (snd (idleState c)).
Proof.
  intros Hc. rewrite idleState_eq.
  destruct (String.eqb _ _); [split; [reflexivity|exact Hc]|].
  assert (Hin : In "Idle" states) by (cbn; tauto).
  apply complete_fade; [now apply complete_set_currentMovement|now apply states_in_panel].
Qed.

Lemma complete_createGUI (animations targets : list string) :
  (forall name, In name (states ++ emotes)%list -> In name animations) ->
  fst (createGUI animations (Some targets) initialController) = Normal tt /\
  complete (snd (createGUI animations (Some targets) initialController)).
Proof.
  intros Hall. rewrite createGUI_eq. cbv zeta.
  assert (Hlook : forall name, In name (states ++ emotes)%list ->
             fold_left (fun m clip => <[clip := clipAction clip]> m) animations
                       (∅ : gmap string AnimationAction) !! name
             = Some (clipAction name)).
  { intros name Hin. rewrite clip_fold_lookup_in.
    destruct (decide (name ∈ animations)) as [_|Hout]; [reflexivity|].
    exfalso. apply Hout. apply list_elem_of_In. now apply Hall. }
  rewrite (Hlook "Walking") by (cbn; tauto). cbn [fst snd].
  split; [reflexivity|]. split; [cbn; eauto|].
  split; [|split; [cbn; eauto|cbn; tauto]].
  eexists. split; [reflexivity|]. intros name Hin. rewrite (Hlook name Hin). eauto.
Qed.

Lemma cf_complete_tick (w : ClosedForm.World) :
  complete (ClosedForm.ctl w) ->
  fst (ClosedForm.updateRobotMovement w) = Normal tt /\
  complete (ClosedForm.ctl (snd (ClosedForm.updateRobotMovement w))).
Proof.
  intros Hc.
  destruct (cf_tick_cases w) as [[_ ->]|[(robot & _ & _ & ->)|(robot & _ & _ & ->)]].
  - split; [reflexivity|exact Hc].
  - rewrite ClosedFormFacts.liftC_eq. cbn [fst snd ClosedForm.ctl ClosedForm.set_ctl].
    now apply complete_idle.
  - rewrite ClosedFormFacts.liftC_eq.
    cbn [fst snd ClosedForm.ctl ClosedForm.set_ctl ClosedForm.set_model].
    now apply complete_moving.
Qed.

Lemma cf_complete_step (e : ClosedForm.Event) (w : ClosedForm.World) :
  cf_panel_event e ->
  complete (ClosedForm.ctl w) ->
  fst (ClosedForm.handle e w) = Normal tt /\
  complete (ClosedForm.ctl (snd (ClosedForm.handle e w))).
Proof.
  intros He Hc.
  destruct e as [scene animations face|key|key|choice|name|dt finished];
    cbn [cf_panel_event ClosedForm.handle] in *; try contradiction.
  - unfold ClosedForm.onKeyDown, modify.
    repeat match goal with
           | |- context [String.eqb ?a ?b] =>
               destruct (String.eqb a b); [split; [reflexivity|exact Hc]|]
           end.
    destruct (String.eqb _ " "); [|split; [reflexivity|exact Hc]].
    rewrite bind_gets. destruct (ClosedForm.model w); [|split; [reflexivity|exact Hc]].
    rewrite ClosedFormFacts.liftC_eq. cbn [fst snd ClosedForm.ctl ClosedForm.set_ctl].
    apply complete_fade; [exact Hc|cbn; tauto].
  - destruct (cf_onKeyUp_keys key w) as [k ->]. split; [reflexivity|exact Hc].
  - rewrite ClosedFormFacts.liftC_eq. cbn [fst snd ClosedForm.ctl ClosedForm.set_ctl].
    now apply complete_state.
  - rewrite ClosedFormFacts.liftC_eq. cbn [fst snd ClosedForm.ctl ClosedForm.set_ctl].
    now apply complete_emote.
  - rewrite cf_animate_eq. destruct (mixer (ClosedForm.ctl w)); [|now apply cf_complete_tick].
    destruct (complete_update dt finished (ClosedForm.ctl w) Hc) as [Hret Hc'].
    erewrite bind_normal by (rewrite ClosedFormFacts.liftC_eq, Hret; reflexivity). cbv beta.
    apply cf_complete_tick. exact Hc'.
Qed.

Section CompleteTiled.
Context `{Three}.

Lemma tiled_complete_tick (w : Tiled.World) :
  is_Some (Tiled.model w) /\ complete (Tiled.ctl w) ->
  fst (Tiled.updateRobotMovement w) = Normal tt /\
  (is_Some (Tiled.model (snd (Tiled.updateRobotMovement w))) /\
   complete (Tiled.ctl (snd (Tiled.updateRobotMovement w)))).
Proof.
  intros [Hm Hc].
  destruct (tiled_tick_cases w)
    as [[_ ->]|[(robot & _ & _ & _ & ->)|(robot & _ & _ & _ & ->)]].
  - split; [reflexivity|split; assumption].
  - rewrite tiled_liftC_eq. cbn [fst snd Tiled.ctl Tiled.set_ctl Tiled.model].
    destruct (complete_idle (Tiled.ctl w) Hc). auto.
  - unfold bind. rewrite tiled_liftC_eq. cbn [Tiled.ctl Tiled.set_model].
    destruct (complete_moving (Keys.shift (Tiled.keys w)) (Tiled.ctl w) Hc) as [Hret Hc'].
    rewrite Hret.
    erewrite repositionTerrain_places by reflexivity.
    cbn [fst snd Tiled.ctl Tiled.set_ctl Tiled.model Tiled.set_terrainTiles Tiled.set_model].
    split; [reflexivity|]. split; [eauto|exact Hc'].
Qed.

Lemma tiled_complete_step (e : Tiled.Event) (w : Tiled.World) :
  tiled_panel_event e ->
  is_Some (Tiled.model w) /\ complete (Tiled.ctl w) ->
  fst (Tiled.handle e w) = Normal tt /\
  (is_Some (Tiled.model (snd (Tiled.handle e w))) /\
   complete (Tiled.ctl (snd (Tiled.handle e w)))).
Proof.
  intros He [Hm Hc].
  destruct e as [|scene animations face| |key|key|choice|name|cam|dt finished];
    cbn [tiled_panel_event Tiled.handle] in *; try contradiction.
  - rewrite createTerrainGrid_tiles. cbn. auto.
  - destruct Hm as [robot Hm]. destruct (spawn_model w robot Hm) as [robot' ->].
    cbn. eauto.
  - unfold Tiled.onKeyDown, modify.
    repeat match goal with
           | |- context [String.eqb ?a ?b] =>
               destruct (String.eqb a b); [cbn; solve [auto]|]
           end.
    destruct (String.eqb _ " "); [|cbn; solve [auto]].
    rewrite bind_gets.
    destruct (Tiled.model w) eqn:Em; [|exfalso; destruct Hm as [? Hm]; discriminate].
    rewrite tiled_liftC_eq. cbn [fst snd Tiled.ctl Tiled.set_ctl Tiled.model].
    destruct (complete_fade "Jump" 0.2 (Tiled.ctl w) Hc) as [Hret Hc']; [cbn; tauto|].
    split; [exact Hret|split; [rewrite Em; exact Hm|exact Hc']].
  - destruct (tiled_onKeyUp_keys key w) as [k ->]. cbn. auto.
  - rewrite tiled_liftC_eq. cbn [fst snd Tiled.ctl Tiled.set_ctl Tiled.model].
    destruct (complete_state choice (Tiled.ctl w) He Hc). auto.
  - rewrite tiled_liftC_eq. cbn [fst snd Tiled.ctl Tiled.set_ctl Tiled.model].
    destruct (complete_emote name (Tiled.ctl w) He Hc). auto.
  - cbn. auto.
  - assert (Hrest : forall w' : Tiled.World,
               is_Some (Tiled.model w') /\ complete (Tiled.ctl w') ->
               let r := bind Tiled.updateRobotMovement
                             (fun _ => Tiled.updateThirdPersonCamera) w' in
               fst r = Normal tt /\
               (is_Some (Tiled.model (snd r)) /\ complete (Tiled.ctl (snd r)))).
    { intros w' Hw'. destruct (tiled_complete_tick w' Hw') as (Hret & Hm' & Hc').
      cbv zeta. unfold bind.
      destruct (Tiled.updateRobotMovement w') as [[[]|err] w''] eqn:Htick; cbn [fst snd] in *;
        [|discriminate].
      destruct (updateThirdPersonCamera_camera w'') as [cam ->]. cbn. auto. }
    rewrite tiled_animate_eq.
    destruct (mixer (Tiled.ctl w)); [|apply Hrest; auto].
    destruct (complete_update dt finished (Tiled.ctl w) Hc) as [Hret Hc'].
    erewrite bind_normal by (rewrite tiled_liftC_eq, Hret; reflexivity). cbv beta.
    apply Hrest. cbn [Tiled.model Tiled.set_ctl Tiled.ctl]. auto.
Qed.
End CompleteTiled.

(** X19.  No TypeError with a complete robot.  When the robot file has a
    clip for each of the seven states and six emotes of the panel (and
    the head mesh), [createGUI] returns, and from then on every handler
    returns through any run of key events, panel choices, emote
    buttons, frames (whatever actions finish in them) and, in the tiled
    variant, terrain arrivals, the spawn timer and camera drags: every
    action looked up exists and the mixer is there whenever it is
    called. *)
Theorem complete_robot_never_throws :
  (forall animations targets : list string,
      (forall name, In name (states ++ emotes)%list -> In name animations) ->
      fst (createGUI animations (Some targets) initialController) = Normal tt /\
      complete (snd (createGUI animations (Some targets) initialController))) /\
  (forall (evs : list ClosedForm.Event) (w : ClosedForm.World),
      complete (ClosedForm.ctl w) ->
      Forall cf_panel_event evs ->
      fst (forOf evs ClosedForm.handle w) = Normal tt /\
      complete (ClosedForm.ctl (exec (forOf evs ClosedForm.handle) w))) /\
  (forall (T : Three) (evs : list Tiled.Event) (w : Tiled.World),
      is_Some (Tiled.model w) ->
      complete (Tiled.ctl w) ->
      Forall tiled_panel_event evs ->
      fst (forOf evs Tiled.handle w) = Normal tt /\
      is_Some (Tiled.model (exec (forOf evs Tiled.handle) w)) /\
      complete (Tiled.ctl (exec (forOf evs Tiled.handle) w))).
Proof.
  split; [exact complete_createGUI|split].
  - intros evs. induction evs as [|e evs IH]; intros w Hc Hall; cbn [forOf].
    + split; [reflexivity|exact Hc].
    + apply Forall_cons_iff in Hall as [He Hall].
      destruct (cf_complete_step e w He Hc) as (Hret & Hc').
      unfold exec, bind.
      destruct (ClosedForm.handle e w) as [[[]|err] w'] eqn:Hh; cbn [fst snd] in *;
        [|discriminate].
      apply (IH w' Hc' Hall).
  - intros T evs. induction evs as [|e evs IH]; intros w Hm Hc Hall; cbn [forOf].
    + unfold exec. cbn. auto.
    + apply Forall_cons_iff in Hall as [He Hall].
      destruct (tiled_complete_step e w He (conj Hm Hc)) as (Hret & Hm' & Hc').
      unfold exec, bind.
      destruct (Tiled.handle e w) as [[[]|err] w'] eqn:Hh; cbn [fst snd] in *;
        [|discriminate].
      apply (IH w' Hm' Hc' Hall).
Qed.

(** ** Sprint: the step of a tick, and the displacement over frames *)

Section TiledFrames.
Context `{Three}.

(** A frame of the tiled variant in which no action finishes is the
    movement tick followed by the camera update. *)
Lemma tiled_animate_quiet (dt : R) (w : Tiled.World) :
  Tiled.animate dt [] w
  = bind Tiled.updateRobotMovement (fun _ => Tiled.updateThirdPersonCamera) w.
Proof.
  rewrite tiled_animate_eq. destruct (mixer (Tiled.ctl w)); [|reflexivity].
  unfold bind at 1. rewrite tiled_liftC_eq. cbn [mixer_update forOf ret fst snd].
  replace (Tiled.set_ctl (Tiled.ctl w) w) with w by (destruct w; reflexivity).
  reflexivity.
Qed.

(** The camera update leaves the robot and the controller as the tick
    left them, whether or not the tick threw. *)
Lemma tiled_frame_robot (dt : R) (w : Tiled.World) :
  Tiled.model (exec (Tiled.animate dt []) w) = Tiled.model (exec Tiled.updateRobotMovement w) /\
  Tiled.ctl (exec (Tiled.animate dt []) w) = Tiled.ctl (exec Tiled.updateRobotMovement w).
Proof.
  unfold exec. rewrite tiled_animate_quiet. unfold bind.
  destruct (Tiled.updateRobotMovement w) as [[[]|e] w1]; cbn [snd]; [|auto].
  destruct (updateThirdPersonCamera_camera w1) as [cam ->]. auto.
Qed.
End TiledFrames.

(** The displacement after [n] steps of the same length straight ahead. *)
Lemma straight_magnitude (d : R) :
  sqrt (0 * 0 + (2 * d) * (2 * d)) = 2 * sqrt (0 * 0 + d * d).
Proof.
  replace (0 * 0 + (2 * d) * (2 * d)) with ((2 * 2) * (0 * 0 + d * d)) by ring.
  rewrite sqrt_mult by nra. rewrite sqrt_square by lra. reflexivity.
Qed.

(** C5.  In a tick that moves the robot the horizontal step is the unit
    direction times the speed, and the speed is [moveSpeed] without the
    sprint modifier and [moveSpeed * 2] with it; the tick records Walking
    without the modifier and Running with it (both variants, and the
    same for the step of a whole frame of the tiled variant, whose
    camera update comes after the step).  In the closed-form variant,
    over the same number of frames with forward held, the displacement
    with sprint is twice the displacement without.  For the tiled variant
    no such statement is made: there the camera that defines forward is
    moved and re-aimed at the end of every frame. *)
Theorem sprint_doubles_speed :
  (forall (w : ClosedForm.World) (robot : ClosedForm.Model),
      ClosedForm.model w = Some robot ->
      0 < Vector3.length (ClosedForm.moveDirection_of (ClosedForm.keys w)) ->
      let speed := if Keys.shift (ClosedForm.keys w) then moveSpeed * 2 else moveSpeed in
      let direction := Vector3.normalize (ClosedForm.moveDirection_of (ClosedForm.keys w)) in
      let w' := exec ClosedForm.updateRobotMovement w in
      exists robot',
        ClosedForm.model w' = Some robot' /\
        Vector3.x (ClosedForm.position robot') - Vector3.x (ClosedForm.position robot)
        = Vector3.x direction * speed /\
        Vector3.z (ClosedForm.position robot') - Vector3.z (ClosedForm.position robot)
        = Vector3.z direction * speed /\
        sqrt ((Vector3.x (ClosedForm.position robot') - Vector3.x (ClosedForm.position robot)) *
              (Vector3.x (ClosedForm.position robot') - Vector3.x (ClosedForm.position robot)) +
              (Vector3.z (ClosedForm.position robot') - Vector3.z (ClosedForm.position robot)) *
              (Vector3.z (ClosedForm.position robot') - Vector3.z (ClosedForm.position robot)))
        = speed /\
        currentMovement (ClosedForm.ctl w')
        = (if Keys.shift (ClosedForm.keys w) then "Running" else "Walking")) /\
  (forall (T : Three) (w : Tiled.World) (robot : Tiled.Model),
      Tiled.model w = Some robot ->
      Tiled.terrainTiles w <> [] ->
      0 < Vector3.length (camera_direction (Tiled.keys w) (Tiled.camera w)) ->
      let speed := if Keys.shift (Tiled.keys w) then moveSpeed * 2 else moveSpeed in
      let direction := Vector3.normalize (camera_direction (Tiled.keys w) (Tiled.camera w)) in
      let w' := exec Tiled.updateRobotMovement w in
      exists robot',
        Tiled.model w' = Some robot' /\
        Vector3.x (Tiled.position robot') - Vector3.x (Tiled.position robot)
        = Vector3.x direction * speed /\
        Vector3.z (Tiled.position robot') - Vector3.z (Tiled.position robot)
        = Vector3.z direction * speed /\
        sqrt ((Vector3.x (Tiled.position robot') - Vector3.x (Tiled.position robot)) *
              (Vector3.x (Tiled.position robot') - Vector3.x (Tiled.position robot)) +
              (Vector3.z (Tiled.position robot') - Vector3.z (Tiled.position robot)) *
              (Vector3.z (Tiled.position robot') - Vector3.z (Tiled.position robot)))
        = speed /\
        currentMovement (Tiled.ctl w')
        = (if Keys.shift (Tiled.keys w) then "Running" else "Walking")) /\
  (forall (T : Three) (dt : R) (w : Tiled.World) (robot : Tiled.Model),
      Tiled.model w = Some robot ->
      Tiled.terrainTiles w <> [] ->
      0 < Vector3.length (camera_direction (Tiled.keys w) (Tiled.camera w)) ->
      let speed := if Keys.shift (Tiled.keys w) then moveSpeed * 2 else moveSpeed in
      let direction := Vector3.normalize (camera_direction (Tiled.keys w) (Tiled.camera w)) in
      let w' := exec (Tiled.animate dt []) w in
      exists robot',
        Tiled.model w' = Some robot' /\
        Vector3.x (Tiled.position robot') - Vector3.x (Tiled.position robot)
        = Vector3.x direction * speed /\
        Vector3.z (Tiled.position robot') - Vector3.z (Tiled.position robot)
        = Vector3.z direction * speed /\
        sqrt ((Vector3.x (Tiled.position robot') - Vector3.x (Tiled.position robot)) *
              (Vector3.x (Tiled.position robot') - Vector3.x (Tiled.position robot)) +
              (Vector3.z (Tiled.position robot') - Vector3.z (Tiled.position robot)) *
              (Vector3.z (Tiled.position robot') - Vector3.z (Tiled.position robot)))
        = speed /\
        currentMovement (Tiled.ctl w')
        = (if Keys.shift (Tiled.keys w) then "Running" else "Walking")) /\
  (forall (n : nat) (dt : R) (w : ClosedForm.World) (robot : ClosedForm.Model),
      ClosedForm.model w = Some robot ->
      ready (ClosedForm.ctl w) ->
      (0 < n)%nat ->
      let walk := repeat_js n (ClosedForm.animate dt [])
                            (ClosedForm.set_keys (Keys.new true false false false false) w) in
      let sprint := repeat_js n (ClosedForm.animate dt [])
                              (ClosedForm.set_keys (Keys.new true false false false true) w) in
      fst walk = Normal tt /\ fst sprint = Normal tt /\
      exists walker sprinter,
        ClosedForm.model (snd walk) = Some walker /\
        ClosedForm.model (snd sprint) = Some sprinter /\
        Vector3.x (ClosedForm.position walker) = Vector3.x (ClosedForm.position robot) /\
        Vector3.x (ClosedForm.position sprinter) = Vector3.x (ClosedForm.position robot) /\
        Vector3.z (ClosedForm.position walker) - Vector3.z (ClosedForm.position robot)
        = - (INR n * moveSpeed) /\
        Vector3.z (ClosedForm.position sprinter) - Vector3.z (ClosedForm.position robot)
        = 2 * (Vector3.z (ClosedForm.position walker) - Vector3.z (ClosedForm.position robot)) /\
        sqrt ((Vector3.x (ClosedForm.position sprinter) - Vector3.x (ClosedForm.position robot)) *
              (Vector3.x (ClosedForm.position sprinter) - Vector3.x (ClosedForm.position robot)) +
              (Vector3.z (ClosedForm.position sprinter) - Vector3.z (ClosedForm.position robot)) *
              (Vector3.z (ClosedForm.position sprinter) - Vector3.z (ClosedForm.position robot)))
        = 2 * sqrt ((Vector3.x (ClosedForm.position walker) - Vector3.x (ClosedForm.position robot)) *
                    (Vector3.x (ClosedForm.position walker) - Vector3.x (ClosedForm.position robot)) +
                    (Vector3.z (ClosedForm.position walker) - Vector3.z (ClosedForm.position robot)) *
                    (Vector3.z (ClosedForm.position walker) - Vector3.z (ClosedForm.position robot))) /\
        currentMovement (ClosedForm.ctl (snd walk)) = "Walking" /\
        currentMovement (ClosedForm.ctl (snd sprint)) = "Running").
Proof.
  assert (Htick : forall (T : Three) (w : Tiled.World) (robot : Tiled.Model),
             Tiled.model w = Some robot ->
             Tiled.terrainTiles w <> [] ->
             0 < Vector3.length (camera_direction (Tiled.keys w) (Tiled.camera w)) ->
             let speed := if Keys.shift (Tiled.keys w) then moveSpeed * 2 else moveSpeed in
             let direction :=
               Vector3.normalize (camera_direction (Tiled.keys w) (Tiled.camera w)) in
             let w' := exec Tiled.updateRobotMovement w in
             exists robot',
               Tiled.model w' = Some robot' /\
               Vector3.x (Tiled.position robot') - Vector3.x (Tiled.position robot)
               = Vector3.x direction * speed /\
               Vector3.z (Tiled.position robot') - Vector3.z (Tiled.position robot)
               = Vector3.z direction * speed /\
               sqrt ((Vector3.x (Tiled.position robot') - Vector3.x (Tiled.position robot)) *
                     (Vector3.x (Tiled.position robot') - Vector3.x (Tiled.position robot)) +
                     (Vector3.z (Tiled.position robot') - Vector3.z (Tiled.position robot)) *
                     (Vector3.z (Tiled.position robot') - Vector3.z (Tiled.position robot)))
               = speed /\
               currentMovement (Tiled.ctl w')
               = (if Keys.shift (Tiled.keys w) then "Running" else "Walking")).
  { intros T w robot Hm Ht Hl speed direction w'.
    destruct (tiled_tick_moving_state w robot Hm Ht Hl) as (Hm' & _ & _ & Hcm).
    destruct (tiled_newPos_displacement (Tiled.keys w) (Tiled.camera w) (Tiled.terrainTiles w)
                                        (Tiled.position robot)) as [Hdx Hdz].
    eexists. split; [exact Hm'|]. cbn [Tiled.position].
    split; [exact Hdx|]. split; [exact Hdz|]. split; [|exact Hcm].
    rewrite Hdx, Hdz. apply step_magnitude; [apply speed_nonneg|].
    apply normalize_horizontal_unit; [apply camera_direction_y|exact Hl]. }
  split; [|split; [exact Htick|split]].
  - intros w robot Hm Hl speed direction w'.
    destruct (ClosedFormFacts.tick_moving_state w robot Hm Hl) as (Hm' & _ & Hcm).
    destruct (ClosedFormFacts.newPos_displacement (ClosedForm.keys w) (ClosedForm.position robot))
      as [Hdx Hdz].
    eexists. split; [exact Hm'|]. cbn [ClosedForm.position].
    split; [exact Hdx|]. split; [exact Hdz|]. split; [|exact Hcm].
    rewrite Hdx, Hdz. apply step_magnitude; [apply speed_nonneg|].
    apply normalize_horizontal_unit; [apply ClosedFormFacts.moveDirection_y|exact Hl].
  - intros T dt w robot Hm Ht Hl speed direction w'.
    destruct (tiled_frame_robot dt w) as [Em Ec]. unfold w'. rewrite Em, Ec.
    exact (Htick T w robot Hm Ht Hl).
  - intros n dt w robot Hm Hr Hn walk sprint. unfold walk, sprint. rewrite !cf_frames_quiet.
    assert (Hl : forall b, 0 < Vector3.length
                             (ClosedForm.moveDirection_of (Keys.new true false false false b))).
    { intros b. destruct (ClosedFormFacts.moveDirection_forward b) as [-> _]. lra. }
    destruct (ClosedFormFacts.ticks_moving n
                (ClosedForm.set_keys (Keys.new true false false false false) w) robot Hm Hr (Hl false))
      as (Hw1 & _ & _ & [rotw Hw2] & Hw3 & _).
    destruct (ClosedFormFacts.ticks_moving n
                (ClosedForm.set_keys (Keys.new true false false false true) w) robot Hm Hr (Hl true))
      as (Hs1 & _ & _ & [rots Hs2] & Hs3 & _).
    cbn [ClosedForm.keys ClosedForm.set_keys Keys.shift] in *.
    destruct (ClosedFormFacts.iter_forward false n (ClosedForm.position robot)) as [Hwx Hwz].
    destruct (ClosedFormFacts.iter_forward true n (ClosedForm.position robot)) as [Hsx Hsz].
    split; [exact Hw1|]. split; [exact Hs1|].
    eexists. eexists. split; [exact Hw2|]. split; [exact Hs2|].
    cbn [ClosedForm.position].
    split; [exact Hwx|]. split; [exact Hsx|].
    split; [rewrite Hwz; ring|]. split; [rewrite Hwz, Hsz; ring|].
    split; [|split; [apply Hw3; exact Hn|apply Hs3; exact Hn]].
    rewrite Hwx, Hsx, Hwz, Hsz.
    replace (Vector3.x (ClosedForm.position robot) - Vector3.x (ClosedForm.position robot))
      with 0 by ring.
    match goal with
    | |- sqrt (0 * 0 + ?a * ?a) = 2 * sqrt (0 * 0 + ?b * ?b) =>
        replace a with (2 * b) by (cbn [Keys.shift]; ring)
    end.
    apply straight_magnitude.
Qed.

(** ** The follow camera and the displacement over frames (tiled variant) *)

(** The movement direction when only forward is held: the camera's
    viewing direction flattened onto the ground plane, at unit length. *)
Lemma forward_only_direction `{Three} (b : bool) (cam : Camera) :
  let g := getWorldDirection cam in
  let rho := sqrt (Vector3.x g * Vector3.x g + Vector3.z g * Vector3.z g) in
  0 < rho ->
  0 < Vector3.length (camera_direction (Keys.new true false false false b) cam) /\
  Vector3.x (Vector3.normalize (camera_direction (Keys.new true false false false b) cam))
  = Vector3.x g / rho /\
  Vector3.z (Vector3.normalize (camera_direction (Keys.new true false false false b) cam))
  = Vector3.z g / rho.
Proof.
  intros g rho Hrho.
  assert (Hsq : rho * rho = Vector3.x g * Vector3.x g + Vector3.z g * Vector3.z g)
    by (apply sqrt_sqrt; nra).
  unfold camera_direction, Tiled.direction_of. cbn [Keys.w Keys.s Keys.a Keys.d].
  assert (Hf : Tiled.forward_of cam
               = Vector3.new (Vector3.x g * (1 / rho)) (0 * (1 / rho)) (Vector3.z g * (1 / rho))).
  { unfold Tiled.forward_of. fold g.
    assert (Hlen : Vector3.length (Vector3.set_y g 0) = rho).
    { unfold Vector3.length, rho. cbn. f_equal. ring. }
    rewrite normalize_nonzero by (rewrite Hlen; exact Hrho). rewrite Hlen. reflexivity. }
  rewrite Hf.
  set (d := Vector3.add Vector3.zero _).
  assert (Hd : Vector3.length d = 1).
  { unfold d, Vector3.length. cbn.
    replace ((0 + Vector3.x g * (1 / rho)) * (0 + Vector3.x g * (1 / rho))
             + (0 + 0 * (1 / rho)) * (0 + 0 * (1 / rho))
             + (0 + Vector3.z g * (1 / rho)) * (0 + Vector3.z g * (1 / rho)))
      with ((Vector3.x g * Vector3.x g + Vector3.z g * Vector3.z g) / (rho * rho))
      by (field; lra).
    rewrite <- Hsq. replace (rho * rho / (rho * rho)) with 1 by (field; lra). apply sqrt_1. }
  split; [rewrite Hd; lra|].
  rewrite normalize_nonzero by (rewrite Hd; lra). rewrite Hd. unfold d. cbn.
  split; field; lra.
Qed.

(** Flattening a normalised vector and normalising again gives the unit
    vector of its horizontal part. *)
Lemma normalize_flat (v : Vector3.t) :
  0 < Vector3.x v * Vector3.x v + Vector3.z v * Vector3.z v ->
  let g := Vector3.normalize v in
  let rho := sqrt (Vector3.x v * Vector3.x v + Vector3.z v * Vector3.z v) in
  0 < sqrt (Vector3.x g * Vector3.x g + Vector3.z g * Vector3.z g) /\
  Vector3.x g / sqrt (Vector3.x g * Vector3.x g + Vector3.z g * Vector3.z g) = Vector3.x v / rho /\
  Vector3.z g / sqrt (Vector3.x g * Vector3.x g + Vector3.z g * Vector3.z g) = Vector3.z v / rho.
Proof.
  intros Hh g rho.
  assert (Hrho : 0 < rho) by (apply sqrt_lt_R0; exact Hh).
  pose proof (length_sqr v) as Hs. pose proof (length_nonneg v) as Hn.
  assert (HL : 0 < Vector3.length v) by nra.
  set (L := Vector3.length v) in *.
  assert (Hg : g = Vector3.new (Vector3.x v * (1 / L)) (Vector3.y v * (1 / L))
                               (Vector3.z v * (1 / L))).
  { unfold g. rewrite normalize_nonzero by exact HL. reflexivity. }
  rewrite Hg. cbn [Vector3.x Vector3.z].
  assert (Hflat : sqrt (Vector3.x v * (1 / L) * (Vector3.x v * (1 / L))
                        + Vector3.z v * (1 / L) * (Vector3.z v * (1 / L)))
                  = rho * (1 / L)).
  { replace (Vector3.x v * (1 / L) * (Vector3.x v * (1 / L))
             + Vector3.z v * (1 / L) * (Vector3.z v * (1 / L)))
      with ((Vector3.x v * Vector3.x v + Vector3.z v * Vector3.z v) * ((1 / L) * (1 / L)))
      by ring.
    assert (HiL : 0 < 1 / L) by (apply Rdiv_lt_0_compat; lra).
    rewrite sqrt_mult by nra. rewrite (sqrt_square (1 / L)) by lra. reflexivity. }
  rewrite Hflat.
  assert (HiL : 0 < 1 / L) by (apply Rdiv_lt_0_compat; lra).
  split; [nra|]. split; field; lra.
Qed.

Lemma no_mesh_hits (tiles : list Tile) (origin : Vector3.t) :
  all_hits (H := heightfield no_mesh) tiles origin = [].
Proof. unfold all_hits. induction tiles as [|t tiles IH]; [reflexivity|exact IH]. Qed.

(** One frame of the scene without mesh, the robot moving on a ready
    controller: the robot takes its step at height 0, then the camera
    goes a tenth of the way to the point 5 above and 10 behind the robot
    and is aimed at the point 2 above it. *)
Lemma no_mesh_frame (dt : R) (w : @Tiled.World (heightfield no_mesh)) (p : Vector3.t) :
  Tiled.model w = Some (@Tiled.mkModel (heightfield no_mesh) p tt) ->
  Tiled.terrainTiles w <> [] ->
  0 < Vector3.length (camera_direction (Tiled.keys w) (Tiled.camera w)) ->
  ready (Tiled.ctl w) ->
  let speed := if Keys.shift (Tiled.keys w) then moveSpeed * 2 else moveSpeed in
  let direction := Vector3.normalize (camera_direction (Tiled.keys w) (Tiled.camera w)) in
  let p' := Vector3.new (Vector3.x p + Vector3.x direction * speed) 0
                        (Vector3.z p + Vector3.z direction * speed) in
  let at' := Vector3.lerp (fst (Tiled.camera w)) (Vector3.add p' (Vector3.new 0 5 (-10))) 0.1 in
  exists w' : @Tiled.World (heightfield no_mesh),
    Tiled.animate dt [] w = (Normal tt, w') /\
    Tiled.model w' = Some (@Tiled.mkModel (heightfield no_mesh) p' tt) /\
    Tiled.terrainTiles w' <> [] /\
    Tiled.keys w' = Tiled.keys w /\
    ready (Tiled.ctl w') /\
    Tiled.camera w'
    = (at', Vector3.normalize (Vector3.sub (Vector3.add p' (Vector3.new 0 2 0)) at')) /\
    currentMovement (Tiled.ctl w') = (if Keys.shift (Tiled.keys w) then "Running" else "Walking").
Proof.
  intros Hm Ht Hl Hr speed direction p' at'.
  destruct (tiled_tick_moving_ready w _ Hm Ht Hl Hr) as (Hret & Hm1 & Hk1 & Hc1 & Ht1 & Hr1 & Hcm1).
  rewrite tiled_animate_quiet. unfold bind.
  destruct (Tiled.updateRobotMovement w) as [res w1]. cbn [fst snd] in *. subst res.
  assert (Hp : tiled_newPos (Tiled.keys w) (Tiled.camera w) (Tiled.terrainTiles w) p = p').
  { unfold tiled_newPos. rewrite groundHeight_miss by apply no_mesh_hits. reflexivity. }
  cbn [Tiled.position] in Hm1. rewrite Hp in Hm1.
  assert (Hq : tiled_quaternion (Tiled.keys w) (Tiled.camera w)
                 (Tiled.quaternion (@Tiled.mkModel (heightfield no_mesh) p tt)) = tt)
    by reflexivity.
  rewrite Hq in Hm1.
  rewrite (updateThirdPersonCamera_eq w1 _ Hm1). cbv zeta.
  rewrite no_mesh_hits.
  eexists. split; [reflexivity|].
  cbn [Tiled.model Tiled.terrainTiles Tiled.keys Tiled.ctl Tiled.camera Tiled.set_camera].
  split; [exact Hm1|]. split; [exact Ht1|]. split; [exact Hk1|]. split; [exact Hr1|].
  rewrite Hc1. split; [reflexivity|exact Hcm1].
Qed.
(** Two frames of walking ([b = false]) or sprinting ([b = true])
    forward in the scene without mesh, from the origin, the camera at
    (5, 3, -10) looking along +z.  The first step goes along +z; the
    camera update of the first frame puts the camera at
    (4.5, 3.2, -10 + s / 10) and aims it at the robot, so the second
    step goes along (-4.5, 10 + 0.9 s), where [s] is the speed. *)
Lemma southward_two_frames (b : bool) :
  let s := if b then moveSpeed * 2 else moveSpeed in
  let rho := sqrt (4.5 * 4.5 + (10 + 0.9 * s) * (10 + 0.9 * s)) in
  exists (w2 : @Tiled.World (heightfield no_mesh)) (robot2 : @Tiled.Model (heightfield no_mesh)),
    repeat_js 2 (Tiled.animate (1 / 60) []) (tiled_southward b) = (Normal tt, w2) /\
    Tiled.model w2 = Some robot2 /\
    Vector3.x (Tiled.position robot2) = - (4.5 / rho * s) /\
    Vector3.z (Tiled.position robot2) = s + (10 + 0.9 * s) / rho * s /\
    currentMovement (Tiled.ctl w2) = (if b then "Running" else "Walking").
Proof.
  intros s rho.
  assert (Hs : 0 < s) by (unfold s, moveSpeed; destruct b; lra).
  set (k := Keys.new true false false false b).
  assert (Hshift : (if Keys.shift k then moveSpeed * 2 else moveSpeed) = s) by reflexivity.
  assert (Hone : sqrt (0 * 0 + 1 * 1) = 1)
    by (replace (0 * 0 + 1 * 1) with 1 by lra; apply sqrt_1).
  destruct (forward_only_direction (H := heightfield no_mesh) b camera_south)
    as (Hl1 & Hd1x & Hd1z).
  { cbn [getWorldDirection heightfield camera_south snd Vector3.x Vector3.z]. rewrite Hone. lra. }
  cbn [getWorldDirection heightfield camera_south snd Vector3.x Vector3.z] in Hd1x, Hd1z.
  rewrite Hone in Hd1x, Hd1z. fold k in Hl1, Hd1x, Hd1z.
  (* the first frame *)
  destruct (no_mesh_frame (1 / 60) (tiled_southward b) (Vector3.new 0 0 0) eq_refl
              ltac:(discriminate) Hl1 loaded_controller_ready)
    as (w1 & Hf1 & Hm1 & Ht1 & Hk1 & Hr1 & Hc1 & _).
  change (Tiled.keys (tiled_southward b)) with k in Hf1, Hm1, Hk1, Hc1.
  change (Tiled.camera (tiled_southward b)) with camera_south in Hf1, Hm1, Hc1.
  rewrite Hshift in Hm1, Hc1.
  set (d1 := Vector3.normalize (camera_direction (H := heightfield no_mesh) k camera_south)) in *.
  set (p1 := Vector3.new (Vector3.x (Vector3.new 0 0 0) + Vector3.x d1 * s) 0
                         (Vector3.z (Vector3.new 0 0 0) + Vector3.z d1 * s)) in *.
  assert (Hp1x : Vector3.x p1 = 0) by (unfold p1; cbn [Vector3.x]; rewrite Hd1x; lra).
  assert (Hp1z : Vector3.z p1 = s) by (unfold p1; cbn [Vector3.z]; rewrite Hd1z; lra).
  set (at1 := Vector3.lerp (fst camera_south) (Vector3.add p1 (Vector3.new 0 5 (-10))) 0.1) in *.
  set (v1 := Vector3.sub (Vector3.add p1 (Vector3.new 0 2 0)) at1) in *.
  assert (Hv1x : Vector3.x v1 = -4.5).
  { unfold v1, at1, Vector3.sub, Vector3.add, Vector3.lerp. cbn [Vector3.x camera_south fst].
    rewrite Hp1x. lra. }
  assert (Hv1z : Vector3.z v1 = 10 + 0.9 * s).
  { unfold v1, at1, Vector3.sub, Vector3.add, Vector3.lerp. cbn [Vector3.z camera_south fst].
    rewrite Hp1z. lra. }
  assert (Hflat : 0 < Vector3.x v1 * Vector3.x v1 + Vector3.z v1 * Vector3.z v1)
    by (rewrite Hv1x; nra).
  destruct (normalize_flat v1 Hflat) as (Hg & Hgx & Hgz).
  assert (Hrho : sqrt (Vector3.x v1 * Vector3.x v1 + Vector3.z v1 * Vector3.z v1) = rho).
  { unfold rho. f_equal. rewrite Hv1x, Hv1z. lra. }
  rewrite Hrho, Hv1x in Hgx. rewrite Hrho, Hv1z in Hgz.
  destruct (forward_only_direction (H := heightfield no_mesh) b (at1, Vector3.normalize v1))
    as (Hl2 & Hd2x & Hd2z).
  { cbn [getWorldDirection heightfield snd]. exact Hg. }
  cbn [getWorldDirection heightfield snd] in Hd2x, Hd2z. fold k in Hl2, Hd2x, Hd2z.
  rewrite Hgx in Hd2x. rewrite Hgz in Hd2z.
  (* the second frame *)
  assert (Hl2' : 0 < Vector3.length (camera_direction (Tiled.keys w1) (Tiled.camera w1)))
    by (rewrite Hk1, Hc1; exact Hl2).
  destruct (no_mesh_frame (1 / 60) w1 p1 Hm1 Ht1 Hl2' Hr1)
    as (w2 & Hf2 & Hm2 & _ & _ & _ & _ & Hcm2).
  rewrite Hk1, Hc1, Hshift in Hm2. rewrite Hk1 in Hcm2.
  exists w2. eexists.
  split.
  - cbn [repeat_js]. rewrite (bind_normal _ _ _ _ _ Hf1). cbv beta.
    rewrite (bind_normal _ _ _ _ _ Hf2). reflexivity.
  - split; [exact Hm2|]. cbn [Tiled.position Vector3.x Vector3.z].
    rewrite Hd2x, Hd2z, Hp1x, Hp1z. split; [unfold Rdiv; lra|]. split; [lra|exact Hcm2].
Qed.

(** The displacement after those two frames is not doubled by the
    sprint modifier, although each of the four steps has the length of
    its speed and the states are Walking and Running.  The walker is at
    (-0.45 / a, 0.1 + 1.009 / a) with a = sqrt 122.0581, about
    (-0.0407, 0.1913); the sprinter at (-0.9 / b, 0.2 + 2.036 / b) with
    b = sqrt 123.8824, about (-0.0809, 0.3829); twice the walker's
    displacement would be about (-0.0815, 0.3827). *)
Theorem sprint_displacement_not_doubled :
  exists (ww ws : @Tiled.World (heightfield no_mesh))
         (walker sprinter : @Tiled.Model (heightfield no_mesh)),
    Tiled.model (tiled_southward false)
    = Some (@Tiled.mkModel (heightfield no_mesh) (Vector3.new 0 0 0) tt) /\
    Tiled.model (tiled_southward true) = Tiled.model (tiled_southward false) /\
    repeat_js 2 (Tiled.animate (1 / 60) []) (tiled_southward false) = (Normal tt, ww) /\
    repeat_js 2 (Tiled.animate (1 / 60) []) (tiled_southward true) = (Normal tt, ws) /\
    Tiled.model ww = Some walker /\
    Tiled.model ws = Some sprinter /\
    currentMovement (Tiled.ctl ww) = "Walking" /\
    currentMovement (Tiled.ctl ws) = "Running" /\
    Vector3.x (Tiled.position walker) = - (0.45 / sqrt 122.0581) /\
    Vector3.z (Tiled.position walker) = 0.1 + 1.009 / sqrt 122.0581 /\
    Vector3.x (Tiled.position sprinter) = - (0.9 / sqrt 123.8824) /\
    Vector3.z (Tiled.position sprinter) = 0.2 + 2.036 / sqrt 123.8824 /\
    Vector3.x (Tiled.position sprinter) - 0 <> 2 * (Vector3.x (Tiled.position walker) - 0) /\
    sqrt ((Vector3.x (Tiled.position sprinter) - 0) * (Vector3.x (Tiled.position sprinter) - 0)
          + (Vector3.z (Tiled.position sprinter) - 0) * (Vector3.z (Tiled.position sprinter) - 0))
    <> 2 * sqrt ((Vector3.x (Tiled.position walker) - 0) * (Vector3.x (Tiled.position walker) - 0)
                 + (Vector3.z (Tiled.position walker) - 0)
                   * (Vector3.z (Tiled.position walker) - 0)).
Proof.
  destruct (southward_two_frames false) as (ww & walker & Hw & Hmw & Hwx & Hwz & Hcw).
  destruct (southward_two_frames true) as (ws & sprinter & Hs & Hms & Hsx & Hsz & Hcs).
  cbv zeta in Hwx, Hwz, Hsx, Hsz. unfold moveSpeed in Hwx, Hwz, Hsx, Hsz.
  replace (4.5 * 4.5 + (10 + 0.9 * 0.1) * (10 + 0.9 * 0.1)) with 122.0581 in Hwx, Hwz by lra.
  replace (4.5 * 4.5 + (10 + 0.9 * (0.1 * 2)) * (10 + 0.9 * (0.1 * 2))) with 123.8824
    in Hsx, Hsz by lra.
  set (a := sqrt 122.0581) in *. set (b := sqrt 123.8824) in *.
  assert (Ha : 0 < a) by (apply sqrt_lt_R0; lra).
  assert (Hb : 0 < b) by (apply sqrt_lt_R0; lra).
  assert (Haa : a * a = 122.0581) by (apply sqrt_sqrt; lra).
  assert (Hbb : b * b = 123.8824) by (apply sqrt_sqrt; lra).
  assert (Hwx' : Vector3.x (Tiled.position walker) = - (0.45 / a))
    by (rewrite Hwx; unfold Rdiv; lra).
  assert (Hwz' : Vector3.z (Tiled.position walker) = 0.1 + 1.009 / a)
    by (rewrite Hwz; unfold Rdiv; lra).
  assert (Hsx' : Vector3.x (Tiled.position sprinter) = - (0.9 / b))
    by (rewrite Hsx; unfold Rdiv; lra).
  assert (Hsz' : Vector3.z (Tiled.position sprinter) = 0.2 + 2.036 / b)
    by (rewrite Hsz; unfold Rdiv; lra).
  exists ww, ws, walker, sprinter.
  split; [reflexivity|]. split; [reflexivity|]. split; [exact Hw|]. split; [exact Hs|].
  split; [exact Hmw|]. split; [exact Hms|]. split; [exact Hcw|]. split; [exact Hcs|].
  split; [exact Hwx'|]. split; [exact Hwz'|]. split; [exact Hsx'|]. split; [exact Hsz'|].
  rewrite Hwx', Hwz', Hsx', Hsz'.
  set (ia := / a) in *. set (ib := / b) in *.
  assert (Hia : ia * a = 1) by (unfold ia; field; lra).
  assert (Hib : ib * b = 1) by (unfold ib; field; lra).
  assert (Hia2 : ia * ia * 122.0581 = 1) by (rewrite <- Haa; nra).
  assert (Hib2 : ib * ib * 123.8824 = 1) by (rewrite <- Hbb; nra).
  assert (Hiapos : 0 < ia) by (unfold ia; apply Rinv_0_lt_compat; exact Ha).
  assert (Hibpos : 0 < ib) by (unfold ib; apply Rinv_0_lt_compat; exact Hb).
  assert (Hne : 2.036 * ib <> 2.018 * ia).
  { intros E.
    assert (E2 : (2.036 * ib) * (2.036 * ib) = (2.018 * ia) * (2.018 * ia)) by (rewrite E; ring).
    nra. }
  unfold Rdiv. fold ia. fold ib.
  split.
  - intros E. assert (E' : ib = ia) by lra.
    rewrite E' in Hib2. lra.
  - intros E.
    assert (Esq : (- (0.9 * ib) - 0) * (- (0.9 * ib) - 0)
                  + (0.2 + 2.036 * ib - 0) * (0.2 + 2.036 * ib - 0)
                  = 4 * ((- (0.45 * ia) - 0) * (- (0.45 * ia) - 0)
                         + (0.1 + 1.009 * ia - 0) * (0.1 + 1.009 * ia - 0))).
    { set (S := (- (0.9 * ib) - 0) * (- (0.9 * ib) - 0)
                + (0.2 + 2.036 * ib - 0) * (0.2 + 2.036 * ib - 0)) in *.
      set (W := (- (0.45 * ia) - 0) * (- (0.45 * ia) - 0)
                + (0.1 + 1.009 * ia - 0) * (0.1 + 1.009 * ia - 0)) in *.
      assert (HS : 0 <= S) by (unfold S; nra).
      assert (HW : 0 <= W) by (unfold W; nra).
      pose proof (sqrt_sqrt S HS) as H1. pose proof (sqrt_sqrt W HW) as H2.
      rewrite E in H1. nra. }
    apply Hne. nra.
Qed.

(** Forward with and without sprint on the loaded standard robot: a
    tick in each variant, a frame of the tiled variant, and a second of
    frames in the closed-form variant. *)
Lemma sprint_doubles_speed_witness :
  (ClosedForm.model (cf_forward true)
   = Some (ClosedForm.mkModel (Vector3.new 0 0 0) 0) /\
   0 < Vector3.length (ClosedForm.moveDirection_of (ClosedForm.keys (cf_forward true))) /\
   currentMovement (ClosedForm.ctl (exec ClosedForm.updateRobotMovement (cf_forward true)))
   = "Running") /\
  (Tiled.model (tiled_forward no_mesh true)
   = Some (@Tiled.mkModel (heightfield no_mesh) (Vector3.new 0 0 0) tt) /\
   Tiled.terrainTiles (tiled_forward no_mesh true) <> [] /\
   0 < Vector3.length (camera_direction (Tiled.keys (tiled_forward no_mesh true))
                                        (Tiled.camera (tiled_forward no_mesh true))) /\
   currentMovement (Tiled.ctl (exec Tiled.updateRobotMovement (tiled_forward no_mesh true)))
   = "Running" /\
   currentMovement (Tiled.ctl (exec (Tiled.animate (1 / 60) []) (tiled_forward no_mesh true)))
   = "Running") /\
  (ClosedForm.model cf_loaded = Some (ClosedForm.mkModel (Vector3.new 0 0 0) 0) /\
   ready (ClosedForm.ctl cf_loaded) /\ (0 < 60)%nat /\
   fst (repeat_js 60 (ClosedForm.animate (1 / 60) []) (cf_forward true)) = Normal tt /\
   currentMovement
     (ClosedForm.ctl (snd (repeat_js 60 (ClosedForm.animate (1 / 60) []) (cf_forward true))))
   = "Running" /\
   currentMovement
     (ClosedForm.ctl (snd (repeat_js 60 (ClosedForm.animate (1 / 60) []) (cf_forward false))))
   = "Walking").
Proof.
  destruct sprint_doubles_speed as (Hcf & Htiled & Hframe & Hcfn).
  assert (Hn : (0 < 60)%nat) by lia.
  assert (Htiles : Tiled.terrainTiles (tiled_forward no_mesh true) <> []) by discriminate.
  split; [|split].
  - destruct (Hcf (cf_forward true) _ eq_refl (cf_forward_length true))
      as (robot' & _ & _ & _ & _ & Hcm).
    split; [reflexivity|]. split; [exact (cf_forward_length true)|exact Hcm].
  - destruct (Htiled (heightfield no_mesh) (tiled_forward no_mesh true) _ eq_refl Htiles
                     (tiled_forward_length no_mesh true))
      as (robot' & _ & _ & _ & _ & Hcm).
    destruct (Hframe (heightfield no_mesh) (1 / 60) (tiled_forward no_mesh true) _ eq_refl Htiles
                     (tiled_forward_length no_mesh true))
      as (robot'' & _ & _ & _ & _ & Hcm').
    split; [reflexivity|]. split; [exact Htiles|].
    split; [exact (tiled_forward_length no_mesh true)|]. split; [exact Hcm|exact Hcm'].
  - destruct (Hcfn 60%nat (1 / 60) cf_loaded _ eq_refl loaded_controller_ready Hn)
      as (_ & Hret & walker & sprinter & _ & _ & _ & _ & _ & _ & _ & Hw & Hs).
    split; [reflexivity|]. split; [exact loaded_controller_ready|]. split; [exact Hn|].
    split; [exact Hret|]. split; [exact Hs|exact Hw].
Defined.

(** ** The further properties at concrete inputs *)

Lemma fadeToAction_settles_witness :
  actions loaded_controller = Some standard_actions /\
  activeAction (snd (fadeToAction "Jump" 0.2 loaded_controller)) = standard_actions !! "Jump" /\
  fadeToAction "Jump" 0.5 (snd (fadeToAction "Jump" 0.2 loaded_controller))
  = (Normal tt, snd (fadeToAction "Jump" 0.2 loaded_controller)).
Proof.
  destruct (fadeToAction_settles "Jump" 0.2 0.5 loaded_controller standard_actions eq_refl)
    as (Hactive & _ & Hagain).
  split; [reflexivity|]. split; [exact Hactive|exact Hagain].
Defined.

Lemma fadeToAction_throws_iff_witness :
  (actions loaded_controller = Some standard_actions /\
   fst (fadeToAction "Jump" 0.2 loaded_controller) = Normal tt) /\
  (actions sparse_controller = Some sparse_actions /\
   fst (fadeToAction "Running" 0.2 sparse_controller)
   = Throw (TypeError "cannot read properties of undefined")).
Proof.
  split.
  - destruct (fadeToAction_throws_iff "Jump" 0.2 loaded_controller standard_actions eq_refl)
      as (_ & [_ Hret] & _).
    split; [reflexivity|]. apply Hret. right.
    destruct standard_lookup as (_ & _ & _ & Hj). rewrite Hj. cbn. eauto.
  - destruct (fadeToAction_throws_iff "Running" 0.2 sparse_controller sparse_actions eq_refl)
      as ([_ Hthrow] & _).
    split; [reflexivity|]. apply Hthrow.
    assert (Hr : sparse_actions !! "Running" = None) by (vm_compute; reflexivity).
    rewrite Hr. split; [discriminate|now right].
Defined.

Lemma createGUI_actions_witness :
  exists m : gmap string AnimationAction,
    actions (snd (createGUI standard_clips (Some []) initialController)) = Some m /\
    m !! "Jump" = Some (mkAction "Jump" true LoopOnce) /\
    m !! "Walking" = Some (mkAction "Walking" false LoopRepeat) /\
    m !! "Swim" = None.
Proof.
  destruct (createGUI_actions standard_clips (Some [])) as (m & Hm & Hin & Hout & _).
  exists m. split; [exact Hm|].
  split; [|split].
  - rewrite (Hin "Jump") by (cbn; tauto). reflexivity.
  - rewrite (Hin "Walking") by (cbn; tauto). reflexivity.
  - apply Hout. cbn. intuition discriminate.
Defined.

Lemma createGUI_returns_iff_witness :
  (fst (createGUI standard_clips (Some []) initialController) = Normal tt /\
   activeAction (snd (createGUI standard_clips (Some []) initialController))
   = Some walkingAction) /\
  (fst (createGUI ["Idle"] (Some []) initialController)
   = Throw (TypeError "cannot read properties of undefined") /\
   calls (snd (createGUI ["Idle"] (Some []) initialController)) = []).
Proof.
  split.
  - destruct (createGUI_returns_iff standard_clips (Some [])) as ([_ Hif] & Hret & _).
    assert (Hn : fst (createGUI standard_clips (Some []) initialController) = Normal tt).
    { apply Hif. split; [discriminate|cbn; tauto]. }
    split; [exact Hn|]. exact (proj1 (Hret Hn)).
  - destruct (createGUI_returns_iff ["Idle"] (Some [])) as ([Honly _] & _ & Hthrow & _).
    assert (Hn : fst (createGUI ["Idle"] (Some []) initialController) <> Normal tt).
    { intros Hret. destruct (Honly Hret) as [_ Hin]. cbn in Hin. intuition discriminate. }
    destruct (Hthrow Hn) as (Ht & _ & Hcalls). split; [exact Ht|exact Hcalls].
Defined.

Lemma one_arming_one_restore_witness :
  mixer armed_controller = Some (mkMixer [restoreState_listener]) /\
  mixer_update (1 / 60) [jumpAction; walkingAction] armed_controller
  = restoreState armed_controller /\
  listeners_of (snd (mixer_update (1 / 60) [jumpAction; walkingAction] armed_controller)) = [].
Proof.
  destruct (one_arming_one_restore (1 / 60) (1 / 60) jumpAction [walkingAction] []
              armed_controller eq_refl) as (Hupd & Hoff & _).
  split; [reflexivity|]. split; [exact Hupd|exact Hoff].
Defined.

Lemma restore_targets_current_state_witness :
  actions armed_controller = Some standard_actions /\
  mixer armed_controller = Some (mkMixer [restoreState_listener]) /\
  activeAction (snd (restoreState armed_controller)) = Some idleAction /\
  fst (restoreState armed_controller) = Normal tt.
Proof.
  destruct (restore_targets_current_state armed_controller standard_actions
              (mkMixer [restoreState_listener]) eq_refl eq_refl)
    as (Hactive & _ & _ & [_ Hret]).
  destruct standard_lookup as (Hi & _).
  split; [reflexivity|]. split; [reflexivity|].
  split.
  - rewrite Hactive. exact Hi.
  - apply Hret. right. cbn [armed_controller currentMovement set_mixer jumping_controller
                            activeAction]. rewrite Hi. eauto.
Defined.

Lemma tick_sets_locomotion_state_witness :
  (ClosedForm.model (cf_forward true) = Some (ClosedForm.mkModel (Vector3.new 0 0 0) 0) /\
   currentMovement (ClosedForm.ctl (snd (ClosedForm.updateRobotMovement (cf_forward true))))
   = "Running") /\
  (Tiled.model (tiled_forward no_mesh true)
   = Some (@Tiled.mkModel (heightfield no_mesh) (Vector3.new 0 0 0) tt) /\
   Tiled.terrainTiles (tiled_forward no_mesh true) <> [] /\
   currentMovement (Tiled.ctl (snd (Tiled.updateRobotMovement (tiled_forward no_mesh true))))
   = "Running").
Proof.
  destruct tick_sets_locomotion_state as [Hcf Htiled].
  assert (Htiles : Tiled.terrainTiles (tiled_forward no_mesh true) <> []) by discriminate.
  split.
  - destruct (Hcf (cf_forward true) _ eq_refl) as (Hcm & _).
    split; [reflexivity|]. rewrite Hcm.
    destruct (Rlt_dec 0 _) as [_|Hn]; [reflexivity|].
    exfalso. apply Hn. exact (cf_forward_length true).
  - destruct (Htiled (heightfield no_mesh) (tiled_forward no_mesh true) _ eq_refl Htiles)
      as (Hcm & _).
    split; [reflexivity|]. split; [exact Htiles|]. rewrite Hcm.
    destruct (Rlt_dec 0 _) as [_|Hn]; [reflexivity|].
    exfalso. apply Hn. exact (tiled_forward_length no_mesh true).
Defined.

Lemma key_repeat_and_release_witness :
  (toLowerCase "W" <> " " /\
   exec (ClosedForm.onKeyUp "W") (exec (ClosedForm.onKeyDown "W") cf_loaded)
   = exec (ClosedForm.onKeyUp "W") cf_loaded) /\
  (toLowerCase "W" <> " " /\
   exec (Tiled.onKeyUp "W") (exec (Tiled.onKeyDown "W") (tiled_loaded no_mesh))
   = exec (Tiled.onKeyUp "W") (tiled_loaded no_mesh)).
Proof.
  destruct key_repeat_and_release as [Hcf Htiled].
  assert (Hkey : toLowerCase "W" <> " ") by (vm_compute; discriminate).
  split.
  - destruct (Hcf "W" cf_loaded) as (_ & Hup & _).
    split; [exact Hkey|]. exact (proj1 (Hup Hkey)).
  - destruct (Htiled (heightfield no_mesh) "W" (tiled_loaded no_mesh)) as (_ & Hup & _).
    split; [exact Hkey|]. exact (proj1 (Hup Hkey)).
Defined.

Lemma robot_stays_on_terrain_witness :
  (ClosedForm.model (cf_forward false) = Some (ClosedForm.mkModel (Vector3.new 0 0 0) 0) /\
   0 < Vector3.length (ClosedForm.moveDirection_of (ClosedForm.keys (cf_forward false))) /\
   cf_grounded (exec ClosedForm.updateRobotMovement (cf_forward false))) /\
  (cf_grounded cf_loaded /\
   Forall cf_loads_grounded cf_session /\
   cf_grounded (cf_run cf_session cf_loaded)).
Proof.
  destruct robot_stays_on_terrain as (Horigin & Htick & Hrun).
  assert (Hevs : Forall cf_loads_grounded cf_session) by (repeat constructor).
  split.
  - split; [reflexivity|]. split; [exact (cf_forward_length false)|].
    exact (Htick (cf_forward false) _ eq_refl (cf_forward_length false)).
  - split; [exact Horigin|]. split; [exact Hevs|].
    exact (proj1 (Hrun cf_session cf_loaded Horigin Hevs)).
Defined.

Lemma robot_over_centre_tile_witness :
  Tiled.model (tiled_forward no_mesh false)
  = Some (@Tiled.mkModel (heightfield no_mesh) (Vector3.new 0 0 0) tt) /\
  Tiled.terrainTiles (tiled_forward no_mesh false) !! 4%nat
  = Some (mkTile (Vector3.new (0 * (20 * 5 * 0.99)) 0 (0 * (20 * 5 * 0.99)))) /\
  0 < Vector3.length (camera_direction (Tiled.keys (tiled_forward no_mesh false))
                                       (Tiled.camera (tiled_forward no_mesh false))) /\
  ready (Tiled.ctl (tiled_forward no_mesh false)) /\
  (exists centre : Tile,
      Tiled.terrainTiles (exec Tiled.repositionTerrain (tiled_forward no_mesh false)) !! 4%nat
      = Some centre /\
      Vector3.y (tile_position centre) = 0) /\
  Tiled.updateRobotMovement (tiled_forward no_mesh false)
  = (Normal tt, exec Tiled.updateRobotMovement (tiled_forward no_mesh false)).
Proof.
  destruct (@robot_over_centre_tile (heightfield no_mesh)) as [Hcell Htick].
  destruct (Hcell (tiled_forward no_mesh false) _ _ eq_refl eq_refl)
    as (centre & Hc & Hy & _).
  destruct (Htick (tiled_forward no_mesh false) _ _ eq_refl eq_refl
                  (tiled_forward_length no_mesh false) loaded_controller_ready)
    as (robot' & centre' & Hret & _).
  split; [reflexivity|]. split; [reflexivity|].
  split; [exact (tiled_forward_length no_mesh false)|].
  split; [exact loaded_controller_ready|].
  split; [exists centre; split; [exact Hc|exact Hy]|exact Hret].
Defined.

Lemma recenter_keeps_initial_grid_witness :
  Tiled.model (tiled_loaded no_mesh)
  = Some (@Tiled.mkModel (heightfield no_mesh) (Vector3.new 0 0 0) tt) /\
  Tiled.terrainTiles (tiled_loaded no_mesh) = grid_tiles /\
  -49.5 <= 0 < 49.5 /\
  Tiled.repositionTerrain (tiled_loaded no_mesh) = (Normal tt, tiled_loaded no_mesh).
Proof.
  assert (Hcell : -49.5 <= 0 < 49.5) by lra.
  split; [reflexivity|]. split; [reflexivity|]. split; [exact Hcell|].
  exact (@recenter_keeps_initial_grid (heightfield no_mesh) (tiled_loaded no_mesh) _
           eq_refl eq_refl Hcell Hcell).
Defined.

Lemma vertical_camera_stops_robot_witness :
  Tiled.model tiled_overhead
  = Some (@Tiled.mkModel (heightfield no_mesh) (Vector3.new 0 0 0) tt) /\
  Tiled.terrainTiles tiled_overhead <> [] /\
  Keys.w (Tiled.keys tiled_overhead) = true /\
  Vector3.x (getWorldDirection (Tiled.camera tiled_overhead)) = 0 /\
  Vector3.z (getWorldDirection (Tiled.camera tiled_overhead)) = 0 /\
  Tiled.model (exec Tiled.updateRobotMovement tiled_overhead)
  = Some (@Tiled.mkModel (heightfield no_mesh) (Vector3.new 0 0 0) tt) /\
  currentMovement (Tiled.ctl (exec Tiled.updateRobotMovement tiled_overhead)) = "Idle".
Proof.
  assert (Htiles : Tiled.terrainTiles tiled_overhead <> []) by discriminate.
  destruct (@vertical_camera_stops_robot (heightfield no_mesh) tiled_overhead _
              eq_refl Htiles eq_refl eq_refl) as (_ & Hm & _ & Hcm).
  split; [reflexivity|]. split; [exact Htiles|]. split; [reflexivity|].
  split; [reflexivity|]. split; [reflexivity|]. split; [exact Hm|exact Hcm].
Defined.

Lemma moving_tick_lands_on_closest_hit_witness :
  Tiled.model (tiled_forward level false)
  = Some (@Tiled.mkModel (heightfield level) (Vector3.new 0 0 0) tt) /\
  Tiled.terrainTiles (tiled_forward level false) <> [] /\
  0 < Vector3.length (camera_direction (Tiled.keys (tiled_forward level false))
                                       (Tiled.camera (tiled_forward level false))) /\
  exists robot' : @Tiled.Model (heightfield level),
    Tiled.model (exec Tiled.updateRobotMovement (tiled_forward level false)) = Some robot' /\
    Vector3.y (Tiled.position robot') = 0 + 1.
Proof.
  assert (Htiles : Tiled.terrainTiles (tiled_forward level false) <> []) by discriminate.
  assert (Hhits : forall origin,
             all_hits (H := heightfield level) grid_tiles origin <> []) by (intros; discriminate).
  destruct (@moving_tick_lands_on_closest_hit (heightfield level) (tiled_forward level false) _
              eq_refl Htiles (tiled_forward_length level false) (Hhits _))
    as (first & robot' & Hin & _ & Hm & Hpos).
  split; [reflexivity|]. split; [exact Htiles|].
  split; [exact (tiled_forward_length level false)|].
  exists robot'. split; [exact Hm|]. rewrite Hpos. cbn [Vector3.y].
  unfold all_hits in Hin. apply in_flat_map in Hin as (tile & Htile & Hin).
  cbn [intersectObject heightfield level map In] in Hin.
  destruct Hin as [<-|[]]. cbn [point Vector3.y].
  cbn [Tiled.terrainTiles tiled_forward Tiled.set_keys tiled_loaded] in Htile.
  unfold grid_tiles in Htile. apply in_map_iff in Htile as (slot & <- & _). reflexivity.
Defined.

Lemma input_before_loading_is_safe_witness :
  (ClosedForm.model ClosedForm.initialWorld = None /\
   ClosedForm.ctl ClosedForm.initialWorld = initialController /\
   Forall cf_early_event cf_early /\
   fst (forOf cf_early ClosedForm.handle ClosedForm.initialWorld) = Normal tt) /\
  (Tiled.model (Tiled.initialWorld (H := heightfield no_mesh) camera_north) = None /\
   Tiled.ctl (Tiled.initialWorld (H := heightfield no_mesh) camera_north) = initialController /\
   Forall tiled_early_event tiled_early /\
   fst (forOf tiled_early Tiled.handle (Tiled.initialWorld (H := heightfield no_mesh) camera_north))
   = Normal tt).
Proof.
  destruct input_before_loading_is_safe as (Hcf & Htiled & _).
  assert (Hevs : Forall cf_early_event cf_early) by (repeat constructor).
  assert (Hevs' : Forall tiled_early_event tiled_early) by (repeat constructor).
  split.
  - split; [reflexivity|]. split; [reflexivity|]. split; [exact Hevs|].
    exact (proj1 (Hcf cf_early ClosedForm.initialWorld eq_refl eq_refl Hevs)).
  - split; [reflexivity|]. split; [reflexivity|]. split; [exact Hevs'|].
    exact (proj1 (Htiled (heightfield no_mesh) tiled_early
                         (Tiled.initialWorld (H := heightfield no_mesh) camera_north)
                         eq_refl eq_refl Hevs')).
Defined.

Lemma camera_keeps_clearance_witness :
  camera_laws (H := heightfield level) /\
  Tiled.model (tiled_loaded level)
  = Some (@Tiled.mkModel (heightfield level) (Vector3.new 0 0 0) tt) /\
  Vector3.x (camera_position
               (Tiled.camera (exec Tiled.updateThirdPersonCamera (tiled_loaded level))))
  = -5 + (0 + 0 - -5) * 0.1.
Proof.
  assert (Hlaws : camera_laws (H := heightfield level)) by (split; intros; reflexivity).
  destruct (@camera_keeps_clearance (heightfield level) (tiled_loaded level) Hlaws)
    as [_ Hcam].
  destruct (Hcam _ eq_refl) as (_ & Hx & _).
  split; [exact Hlaws|]. split; [reflexivity|]. exact Hx.
Defined.

Lemma complete_robot_never_throws_witness :
  (forall name, In name (states ++ emotes)%list -> In name standard_clips) /\
  complete loaded_controller /\
  (Forall cf_panel_event cf_session /\
   fst (forOf cf_session ClosedForm.handle cf_loaded) = Normal tt) /\
  (is_Some (Tiled.model (tiled_loaded no_mesh)) /\
   Forall tiled_panel_event tiled_session /\
   fst (forOf tiled_session Tiled.handle (tiled_loaded no_mesh)) = Normal tt).
Proof.
  destruct complete_robot_never_throws as (Hgui & Hcf & Htiled).
  assert (Hclips : forall name, In name (states ++ emotes)%list -> In name standard_clips)
    by (intros name Hin; exact Hin).
  assert (Hc : complete loaded_controller).
  { destruct (Hgui standard_clips [] Hclips) as [_ Hc].
    rewrite createGUI_standard in Hc. exact Hc. }
  assert (Hevs : Forall cf_panel_event cf_session)
    by (repeat constructor; cbn; tauto).
  assert (Hevs' : Forall tiled_panel_event tiled_session)
    by (repeat constructor; cbn; tauto).
  assert (Hm : is_Some (Tiled.model (tiled_loaded no_mesh))) by (cbn; eauto).
  split; [exact Hclips|]. split; [exact Hc|]. split.
  - split; [exact Hevs|]. exact (proj1 (Hcf cf_session cf_loaded Hc Hevs)).
  - split; [exact Hm|]. split; [exact Hevs'|].
    exact (proj1 (Htiled (heightfield no_mesh) tiled_session (tiled_loaded no_mesh) Hm Hc Hevs')).
Defined.
